(** * BinPacker: the collision-points packer of [src/algorithm/bin_packer_v3.py]

    A shallow embedding of the placement engine (point frontier, collision,
    support and weight checkers, and the greedy orchestrator) together with
    the properties its specification states about it.

    Numbers.  Python floats are modelled by exact rationals [Q]: [==], [<=],
    [<] are the decidable comparisons of [Q] and [+], [*], [/] are exact.
    The rounding error of float arithmetic is therefore not part of the
    model; [round(x, n)] is the decimal round-half-even of the exact value.

    Objects.  The only object the packer shares with its caller is the
    item list handed to [pack_items]; Python lists of items live in a heap
    of list objects addressed by location, so that aliasing and in-place
    mutation ([list.remove]) are visible.  No statement of the packer
    assigns to a field of an [Item], a [Point3D] or a [PlacedItem], so those
    are plain values.  The lists owned by the managers never escape to the
    caller and are fields of the manager records. *)

From Stdlib Require Import ZArith QArith Qround Qreduction Qcanon Lqa Lia.
From Stdlib Require Import Bool String Ascii Sorted OrderedTypeEx.
From stdpp Require Import base list gmap strings.

Local Open Scope Z_scope.

(** ** Floats as exact rationals *)

Module Float.

Definition eqb (a b : Q) : bool := Qeq_bool a b.
Definition leb (a b : Q) : bool := Qle_bool a b.
Definition ltb (a b : Q) : bool := negb (Qle_bool b a).
Definition geb (a b : Q) : bool := Qle_bool b a.
Definition gtb (a b : Q) : bool := negb (Qle_bool a b).

(** [max(a, b)] and [min(a, b)] of Python return the first argument
    unless the second is strictly larger (smaller). *)
Definition max (a b : Q) : Q := if ltb a b then b else a.
Definition min (a b : Q) : Q := if ltb b a then b else a.

(** Nearest integer, ties to the even one. *)
Definition round_half_even (q : Q) : Z :=
  let f := Qfloor q in
  match Qcompare (q - inject_Z f) (1 # 2) with
  | Lt => f
  | Gt => f + 1
  | Eq => if Z.even f then f else f + 1
  end.

Definition pow10 (ndigits : nat) : Z := 10 ^ Z.of_nat ndigits.

(** The integer [round(x, ndigits) * 10^ndigits]. *)
Definition quantum (x : Q) (ndigits : nat) : Z :=
  round_half_even (x * inject_Z (pow10 ndigits)).

(** [round(x, ndigits)] *)
Definition round (x : Q) (ndigits : nat) : Q :=
  inject_Z (quantum x ndigits) / inject_Z (pow10 ndigits).

(** The text of a float in an f-string identifies its value: two floats
    print alike exactly when they are equal.  The canonical rational
    stands for that text. *)
Definition repr (x : Q) : Qc := Q2Qc x.

End Float.

(** ** Data model *)

Inductive Stackability : Set :=
| STACKABLE
| SEMI_STACKABLE
| UNSTACKABLE.

Definition Stackability_eqb (a b : Stackability) : bool :=
  match a, b with
  | STACKABLE, STACKABLE
  | SEMI_STACKABLE, SEMI_STACKABLE
  | UNSTACKABLE, UNSTACKABLE => true
  | _, _ => false
  end.

Definition Stackability_value (s : Stackability) : string :=
  match s with
  | STACKABLE => "stackable"
  | SEMI_STACKABLE => "semi_stackable"
  | UNSTACKABLE => "unstackable"
  end.

Record Point3D : Set := mkPoint3D { px : Q; py : Q; pz : Q }.

(** [Point3D.__eq__] *)
Definition Point3D_eqb (self other : Point3D) : bool :=
  Float.eqb (Float.round (px self) 3) (Float.round (px other) 3)
  && Float.eqb (Float.round (py self) 3) (Float.round (py other) 3)
  && Float.eqb (Float.round (pz self) 3) (Float.round (pz other) 3).

(** [Point3D.__hash__] hashes the triple of rounded coordinates; the triple
    of their integer quanta is the identity a dictionary keyed by points
    uses. *)
Definition Point3D_hash (self : Point3D) : Z * Z * Z :=
  (Float.quantum (px self) 3, Float.quantum (py self) 3, Float.quantum (pz self) 3).

(** [point in points] *)
Definition point_in (p : Point3D) (points : list Point3D) : bool :=
  existsb (Point3D_eqb p) points.

(** [points.remove(p)], used only under the guard [p in points]: deletes the
    first element equal to [p]. *)
Fixpoint point_remove (p : Point3D) (points : list Point3D) : list Point3D :=
  match points with
  | [] => []
  | q :: rest => if Point3D_eqb q p then rest else q :: point_remove p rest
  end.

Definition Rotation : Set := (Q * Q * Q)%type.

Definition rot_l (r : Rotation) : Q := fst (fst r).
Definition rot_w (r : Rotation) : Q := snd (fst r).
Definition rot_h (r : Rotation) : Q := snd r.

Record Item : Set := mkItem {
  item_id : string;
  item_length : Q;
  item_width : Q;
  item_height : Q;
  item_weight : Q;
  can_rotate : bool;
  destination : string;
  is_palletized : bool;
  stackability : Stackability
}.

Definition Item_volume (self : Item) : Q :=
  (item_length self * item_width self * item_height self)%Q.

Definition Item_base_area (self : Item) : Q :=
  (item_length self * item_width self)%Q.

Definition get_rotations (self : Item) : list Rotation :=
  [ (item_length self, item_width self, item_height self);
    (item_width self, item_length self, item_height self) ].

(** The [==] a dataclass generates: field by field. *)
Definition Item_eqb (a b : Item) : bool :=
  String.eqb (item_id a) (item_id b)
  && Float.eqb (item_length a) (item_length b)
  && Float.eqb (item_width a) (item_width b)
  && Float.eqb (item_height a) (item_height b)
  && Float.eqb (item_weight a) (item_weight b)
  && Bool.eqb (can_rotate a) (can_rotate b)
  && String.eqb (destination a) (destination b)
  && Bool.eqb (is_palletized a) (is_palletized b)
  && Stackability_eqb (stackability a) (stackability b).

Record PlacedItem : Set := mkPlacedItem {
  item : Item;
  position : Point3D;
  rotation : Rotation
}.

Definition Bounds : Set := (Point3D * Point3D)%type.

Definition bounds (self : PlacedItem) : Bounds :=
  (position self,
   mkPoint3D (px (position self) + rot_l (rotation self))%Q
             (py (position self) + rot_w (rotation self))%Q
             (pz (position self) + rot_h (rotation self))%Q).

Definition PlacedItem_volume (self : PlacedItem) : Q :=
  (rot_l (rotation self) * rot_w (rotation self) * rot_h (rotation self))%Q.

(** ** Sorting

    [list.sort(key=...)] and [sorted(..., key=...)] are stable: elements with
    equal keys keep their relative order.  Insertion from the right, each
    element going in front of the first one whose key is not strictly
    smaller, is such a sort. *)

Section StableSort.
Context {A K : Type} (key : A -> K) (ltb : K -> K -> bool).

Fixpoint sort_insert (a : A) (l : list A) : list A :=
  match l with
  | [] => [a]
  | b :: rest =>
      if ltb (key b) (key a) then b :: sort_insert a rest else a :: b :: rest
  end.

Definition sort_by_key (l : list A) : list A := foldr sort_insert [] l.
End StableSort.

(** ** Point frontier manager *)

Definition ScanKey : Type := (Q * Q * Q * Z)%type.

(** Tuples compare lexicographically: the first differing component decides. *)
Definition ScanKey_ltb (k1 k2 : ScanKey) : bool :=
  let '(x1, z1, y1, p1) := k1 in
  let '(x2, z2, y2, p2) := k2 in
  if negb (Float.eqb x1 x2) then Float.ltb x1 x2
  else if negb (Float.eqb z1 z2) then Float.ltb z1 z2
  else if negb (Float.eqb y1 y2) then Float.ltb y1 y2
  else p1 <? p2.

Record PointManager : Type := mkPointManager {
  available_points : list Point3D;
  used_points : list Point3D;
  blocked_points : list Point3D;
  point_priorities : gmap (Z * Z * Z) Z
}.

Definition PointManager_init : PointManager :=
  {| available_points := []; used_points := []; blocked_points := [];
     point_priorities := ∅ |}.

Definition add_point (self : PointManager) (point : Point3D) (priority : Z)
  : PointManager :=
  if negb (point_in point (available_points self))
     && negb (point_in point (used_points self))
  then {| available_points := available_points self ++ [point];
          used_points := used_points self;
          blocked_points := blocked_points self;
          point_priorities :=
            <[Point3D_hash point := priority]> (point_priorities self) |}
  else self.

(** The key of the sort in [get_next_point]. *)
Definition scan_key (self : PointManager) (p : Point3D) : ScanKey :=
  (Float.round (px p) 6,
   Float.round (pz p) 6,
   Float.round (py p) 6,
   default 999 (point_priorities self !! Point3D_hash p)).

(** [get_next_point] sorts the open list in place and returns its head. *)
Definition get_next_point (self : PointManager)
  : option Point3D * PointManager :=
  match available_points self with
  | [] => (None, self)
  | _ =>
      let sorted := sort_by_key (scan_key self) ScanKey_ltb (available_points self) in
      (head sorted,
       {| available_points := sorted;
          used_points := used_points self;
          blocked_points := blocked_points self;
          point_priorities := point_priorities self |})
  end.

Definition mark_point_used (self : PointManager) (point : Point3D) : PointManager :=
  {| available_points :=
       if point_in point (available_points self)
       then point_remove point (available_points self)
       else available_points self;
     used_points := used_points self ++ [point];
     blocked_points := blocked_points self;
     point_priorities := point_priorities self |}.

Definition mark_point_blocked (self : PointManager) (point : Point3D) : PointManager :=
  {| available_points :=
       if point_in point (available_points self)
       then point_remove point (available_points self)
       else available_points self;
     used_points := used_points self;
     blocked_points := blocked_points self ++ [point];
     point_priorities := point_priorities self |}.

(** The candidate list of [generate_new_points], before filtering. *)
Definition successor_candidates (placed_item : PlacedItem) : list Point3D :=
  let x := px (position placed_item) in
  let y := py (position placed_item) in
  let z := pz (position placed_item) in
  let '(l, w, h) := rotation placed_item in
  let width_point := mkPoint3D x (y + w)%Q z in
  let length_point := mkPoint3D (x + l)%Q y z in
  if Stackability_eqb (stackability (item placed_item)) STACKABLE
  then [width_point; mkPoint3D x y (z + h)%Q; length_point]
  else [width_point; length_point].

Definition generate_new_points (self : PointManager) (placed_item : PlacedItem)
  : list Point3D :=
  filter (fun point =>
            negb (point_in point (available_points self))
            && negb (point_in point (used_points self))
            && negb (point_in point (blocked_points self)) = true)
         (successor_candidates placed_item).

(** ** Collision detector *)

Definition aabb_collision (bounds1 bounds2 : Bounds) : bool :=
  let '(min1, max1) := bounds1 in
  let '(min2, max2) := bounds2 in
  negb (Float.leb (px max1) (px min2) || Float.geb (px min1) (px max2)
        || Float.leb (py max1) (py min2) || Float.geb (py min1) (py max2)
        || Float.leb (pz max1) (pz min2) || Float.geb (pz min1) (pz max2)).

(** The cache key [f"{item.id}_{x}_{y}_{z}_{rotation}"].  Neither the text
    of a float nor that of a tuple of floats contains an underscore, so the
    string determines its five parts and the tuple of the parts stands for
    it. *)
Definition CacheKey : Type := (string * (Qc * Qc * Qc) * (Qc * Qc * Qc))%type.

Definition cache_key (it : Item) (pos : Point3D) (rot : Rotation) : CacheKey :=
  (item_id it,
   (Float.repr (px pos), Float.repr (py pos), Float.repr (pz pos)),
   (Float.repr (rot_l rot), Float.repr (rot_w rot), Float.repr (rot_h rot))).

Record CollisionDetector : Type := mkCollisionDetector {
  cd_placed_items : list PlacedItem;
  collision_cache : gmap CacheKey bool
}.

Definition CollisionDetector_init : CollisionDetector :=
  {| cd_placed_items := []; collision_cache := ∅ |}.

Definition cd_add_placed_item (self : CollisionDetector) (placed_item : PlacedItem)
  : CollisionDetector :=
  {| cd_placed_items := cd_placed_items self ++ [placed_item];
     collision_cache := ∅ |}.

(** The scan of [check_collision] over the placed items. *)
Definition collides (placed : list PlacedItem) (it : Item) (pos : Point3D)
  (rot : Rotation) : bool :=
  existsb (fun placed_item =>
             aabb_collision (bounds (mkPlacedItem it pos rot)) (bounds placed_item))
          placed.

Definition check_collision (self : CollisionDetector) (it : Item)
  (pos : Point3D) (rot : Rotation) : bool * CollisionDetector :=
  let k := cache_key it pos rot in
  match collision_cache self !! k with
  | Some cached => (cached, self)
  | None =>
      let hit := collides (cd_placed_items self) it pos rot in
      (hit, {| cd_placed_items := cd_placed_items self;
               collision_cache := <[k := hit]> (collision_cache self) |})
  end.

(** ** Support validator *)

Record SupportValidator : Type := mkSupportValidator {
  sv_placed_items : list PlacedItem
}.

Definition SupportValidator_init : SupportValidator := {| sv_placed_items := [] |}.

Definition sv_add_placed_item (self : SupportValidator) (placed_item : PlacedItem)
  : SupportValidator :=
  {| sv_placed_items := sv_placed_items self ++ [placed_item] |}.

(** [placed_item.position.z + placed_item.rotation[2] == height] *)
Definition supports_at (height : Q) (placed_item : PlacedItem) : bool :=
  Float.eqb (pz (position placed_item) + rot_h (rotation placed_item))%Q height.

Definition get_support_surface (self : SupportValidator) (height : Q)
  : list Bounds :=
  map bounds (filter (fun placed_item => supports_at height placed_item = true)
                     (sv_placed_items self)).

Definition calculate_intersection_area (item_bounds support_bounds : Bounds) : Q :=
  let '(item_min, item_max) := item_bounds in
  let '(support_min, support_max) := support_bounds in
  let x_overlap :=
    Float.max 0 (Float.min (px item_max) (px support_max)
                 - Float.max (px item_min) (px support_min))%Q in
  let y_overlap :=
    Float.max 0 (Float.min (py item_max) (py support_max)
                 - Float.max (py item_min) (py support_min))%Q in
  (x_overlap * y_overlap)%Q.

(** The footprint rectangle [_calculate_support_percentage] intersects with
    every support surface. *)
Definition footprint (pos : Point3D) (rot : Rotation) : Bounds :=
  (pos, mkPoint3D (px pos + rot_l rot)%Q (py pos + rot_w rot)%Q (pz pos)).

Definition supported_area (pos : Point3D) (rot : Rotation)
  (support_surfaces : list Bounds) : Q :=
  fold_left (fun acc surface =>
               (acc + calculate_intersection_area (footprint pos rot) surface)%Q)
            support_surfaces 0%Q.

Definition calculate_support_percentage (pos : Point3D) (rot : Rotation)
  (support_surfaces : list Bounds) : Q :=
  let item_base_area := (rot_l rot * rot_w rot)%Q in
  if Float.gtb item_base_area 0
  then (supported_area pos rot support_surfaces / item_base_area * 100)%Q
  else 0%Q.

Definition validate_support (self : SupportValidator) (it : Item)
  (pos : Point3D) (rot : Rotation) : bool :=
  if Float.eqb (pz pos) 0 then true
  else
    let support_surface := get_support_surface self (pz pos) in
    match support_surface with
    | [] => false
    | _ => Float.geb (calculate_support_percentage pos rot support_surface) 100
    end.

(** ** Weight and stack manager *)

Record WeightManager : Type := mkWeightManager {
  max_stack_height : Z;
  max_weight_per_stack : Q;
  wm_placed_items : list PlacedItem
}.

Definition WeightManager_init : WeightManager :=
  {| max_stack_height := 3; max_weight_per_stack := 1000; wm_placed_items := [] |}.

Definition wm_add_placed_item (self : WeightManager) (placed_item : PlacedItem)
  : WeightManager :=
  {| max_stack_height := max_stack_height self;
     max_weight_per_stack := max_weight_per_stack self;
     wm_placed_items := wm_placed_items self ++ [placed_item] |}.

(** The test both loops of the manager apply to a placed item. *)
Definition same_origin (pos : Point3D) (placed_item : PlacedItem) : bool :=
  Float.eqb (px (position placed_item)) (px pos)
  && Float.eqb (py (position placed_item)) (py pos).

Definition stack_count (self : WeightManager) (pos : Point3D) : Z :=
  fold_left (fun stack_height placed_item =>
               if same_origin pos placed_item then stack_height + 1
               else stack_height)
            (wm_placed_items self) 0.

Definition check_stack_height (self : WeightManager) (pos : Point3D) : bool :=
  if Float.eqb (pz pos) 0 then true
  else stack_count self pos <? max_stack_height self.

Definition stack_weight (self : WeightManager) (it : Item) (pos : Point3D) : Q :=
  fold_left (fun total_weight placed_item =>
               if same_origin pos placed_item
               then (total_weight + item_weight (item placed_item))%Q
               else total_weight)
            (wm_placed_items self) (item_weight it).

Definition check_weight_limits (self : WeightManager) (it : Item) (pos : Point3D)
  : bool :=
  Float.leb (stack_weight self it pos) (max_weight_per_stack self).

Definition validate_placement (self : WeightManager) (it : Item)
  (pos : Point3D) (rot : Rotation) : bool :=
  if negb (check_stack_height self pos) then false
  else if negb (check_weight_limits self it pos) then false
  else true.

(** ** Heap of item lists and outcomes *)

Abbreviation loc := nat (only parsing).

(** A list object per location, in allocation order. *)
Abbreviation Heap := (list (list Item)) (only parsing).

Definition alloc (h : Heap) (xs : list Item) : Heap * loc := (h ++ [xs], length h).

Inductive exn : Set :=
| ValueError        (* [list.remove(x)]: x not in list *)
| InvalidReference. (* a location outside the heap; Python has no such reference *)

Inductive outcome (A : Type) : Type :=
| Done (a : A)
| Raise (e : exn)
| OutOfFuel.
Arguments Done {A} a.
Arguments Raise {A} e.
Arguments OutOfFuel {A}.

#[global] Instance outcome_ret : MRet outcome := fun _ a => Done a.
#[global] Instance outcome_bind : MBind outcome := fun _ _ f m =>
  match m with
  | Done a => f a
  | Raise e => Raise e
  | OutOfFuel => OutOfFuel
  end.

Definition read (h : Heap) (l : loc) : outcome (list Item) :=
  match h !! l with
  | Some xs => Done xs
  | None => Raise InvalidReference
  end.

(** [items.remove(x)]: deletes the first element equal to [x], and raises
    when there is none. *)
Fixpoint list_remove (x : Item) (items : list Item) : option (list Item) :=
  match items with
  | [] => None
  | y :: rest =>
      if Item_eqb y x then Some rest
      else option_map (cons y) (list_remove x rest)
  end.

(** ** Packing orchestrator *)

Record PlacementResult : Set := mkPlacementResult {
  success : bool;
  reason : string;
  placed_item : option PlacedItem
}.

Record BinPackerV3 : Type := mkBinPackerV3 {
  truck_dimensions : Q * Q * Q;
  placed_items : list PlacedItem;
  unplaced_items : loc;
  point_manager : PointManager;
  collision_detector : CollisionDetector;
  support_validator : SupportValidator;
  weight_manager : WeightManager
}.

Definition with_unplaced_items (self : BinPackerV3) (l : loc) : BinPackerV3 :=
  {| truck_dimensions := truck_dimensions self;
     placed_items := placed_items self;
     unplaced_items := l;
     point_manager := point_manager self;
     collision_detector := collision_detector self;
     support_validator := support_validator self;
     weight_manager := weight_manager self |}.

Definition with_point_manager (self : BinPackerV3) (pm : PointManager) : BinPackerV3 :=
  {| truck_dimensions := truck_dimensions self;
     placed_items := placed_items self;
     unplaced_items := unplaced_items self;
     point_manager := pm;
     collision_detector := collision_detector self;
     support_validator := support_validator self;
     weight_manager := weight_manager self |}.

Definition with_collision_detector (self : BinPackerV3) (cd : CollisionDetector)
  : BinPackerV3 :=
  {| truck_dimensions := truck_dimensions self;
     placed_items := placed_items self;
     unplaced_items := unplaced_items self;
     point_manager := point_manager self;
     collision_detector := cd;
     support_validator := support_validator self;
     weight_manager := weight_manager self |}.

(** [BinPackerV3.__init__]: the backlog starts as a fresh empty list. *)
Definition BinPackerV3_init (h : Heap) (truck_length truck_width truck_height : Q)
  : Heap * BinPackerV3 :=
  let '(h, unplaced) := alloc h [] in
  (h,
   {| truck_dimensions := (truck_length, truck_width, truck_height);
      placed_items := [];
      unplaced_items := unplaced;
      point_manager := add_point PointManager_init (mkPoint3D 0 0 0) 0;
      collision_detector := CollisionDetector_init;
      support_validator := SupportValidator_init;
      weight_manager := WeightManager_init |}).

Definition ItemKey : Type := (Z * Q * Q * string)%type.

Definition stack_rank (s : Stackability) : Z :=
  match s with
  | UNSTACKABLE => 0
  | STACKABLE => 1
  | SEMI_STACKABLE => 2
  end.

Definition priority_key (x : Item) : ItemKey :=
  (stack_rank (stackability x), - Item_volume x, - item_weight x, destination x)%Q.

Definition ItemKey_ltb (k1 k2 : ItemKey) : bool :=
  let '(r1, v1, w1, d1) := k1 in
  let '(r2, v2, w2, d2) := k2 in
  if negb (r1 =? r2) then r1 <? r2
  else if negb (Float.eqb v1 v2) then Float.ltb v1 v2
  else if negb (Float.eqb w1 w2) then Float.ltb w1 w2
  else String.ltb d1 d2.

Definition sort_items_by_priority (items : list Item) : list Item :=
  sort_by_key priority_key ItemKey_ltb items.

Definition check_geometric_constraints (self : BinPackerV3) (it : Item)
  (point : Point3D) (rot : Rotation) : bool :=
  let '(truck_l, truck_w, truck_h) := truck_dimensions self in
  let '(item_l, item_w, item_h) := rot in
  if Float.gtb (px point + item_l)%Q truck_l
     || Float.gtb (py point + item_w)%Q truck_w
     || Float.gtb (pz point + item_h)%Q truck_h
     || Float.ltb (px point) 0 || Float.ltb (py point) 0 || Float.ltb (pz point) 0
  then false
  else true.

Definition rejected (why : string) : PlacementResult :=
  {| success := false; reason := why; placed_item := None |}.

(** [_attempt_placement]; the collision check may write its cache. *)
Definition attempt_placement (self : BinPackerV3) (it : Item) (point : Point3D)
  (rot : Rotation) : PlacementResult * BinPackerV3 :=
  if Stackability_eqb (stackability it) UNSTACKABLE && negb (Float.eqb (pz point) 0)
  then (rejected "unstackable_must_be_floor", self)
  else if negb (check_geometric_constraints self it point rot)
  then (rejected "geometric_violation", self)
  else
    let '(hit, cd) := check_collision (collision_detector self) it point rot in
    let self := with_collision_detector self cd in
    if hit then (rejected "collision", self)
    else if negb (validate_support (support_validator self) it point rot)
    then (rejected "insufficient_support", self)
    else if negb (validate_placement (weight_manager self) it point rot)
    then (rejected "weight_violation", self)
    else ({| success := true; reason := "";
             placed_item := Some (mkPlacedItem it point rot) |}, self).

(** The inner loop of [_try_place_item_at_point] over the rotations. *)
Fixpoint try_rotations (self : BinPackerV3) (it : Item) (point : Point3D)
  (rotations : list Rotation) : option PlacedItem * BinPackerV3 :=
  match rotations with
  | [] => (None, self)
  | rot :: rest =>
      let '(placement_result, self) := attempt_placement self it point rot in
      if success placement_result then (placed_item placement_result, self)
      else try_rotations self it point rest
  end.

(** The outer loop of [_try_place_item_at_point] over the backlog. *)
Fixpoint try_items (self : BinPackerV3) (items : list Item) (point : Point3D)
  : option PlacedItem * BinPackerV3 :=
  match items with
  | [] => (None, self)
  | it :: rest =>
      match try_rotations self it point (get_rotations it) with
      | (Some placed, self) => (Some placed, self)
      | (None, self) => try_items self rest point
      end
  end.

Definition try_place_item_at_point (h : Heap) (self : BinPackerV3) (point : Point3D)
  : outcome (option PlacedItem * BinPackerV3) :=
  items ← read h (unplaced_items self);
  mret (try_items self items point).

(** [for i, new_point in enumerate(new_points): add_point(new_point, i + 1)] *)
Fixpoint add_points_from (self : PointManager) (i : Z) (new_points : list Point3D)
  : PointManager :=
  match new_points with
  | [] => self
  | new_point :: rest => add_points_from (add_point self new_point (i + 1)) (i + 1) rest
  end.

(** The updates [_handle_successful_placement] makes to the packer: the
    placement is appended, the point marked used, the three checkers fed, and
    the successor points added with priorities 1, 2, ... *)
Definition commit_placement (self : BinPackerV3) (placed : PlacedItem) (point : Point3D)
  : BinPackerV3 :=
  let pm := mark_point_used (point_manager self) point in
  let new_points := generate_new_points pm placed in
  {| truck_dimensions := truck_dimensions self;
     placed_items := placed_items self ++ [placed];
     unplaced_items := unplaced_items self;
     point_manager := add_points_from pm 0 new_points;
     collision_detector := cd_add_placed_item (collision_detector self) placed;
     support_validator := sv_add_placed_item (support_validator self) placed;
     weight_manager := wm_add_placed_item (weight_manager self) placed |}.

Definition handle_successful_placement (h : Heap) (self : BinPackerV3)
  (placed : PlacedItem) (point : Point3D) : outcome (Heap * BinPackerV3) :=
  backlog ← read h (unplaced_items self);
  match list_remove (item placed) backlog with
  | None => Raise ValueError
  | Some backlog' =>
      mret (<[unplaced_items self := backlog']> h, commit_placement self placed point)
  end.

Definition handle_failed_placement (self : BinPackerV3) (point : Point3D)
  : BinPackerV3 :=
  with_point_manager self (mark_point_blocked (point_manager self) point).

(** One turn of the [while] loop of [pack_items]; [None] when the loop is
    left. *)
Definition loop_body (h : Heap) (self : BinPackerV3)
  : outcome (option (Heap * BinPackerV3)) :=
  backlog ← read h (unplaced_items self);
  match available_points (point_manager self), backlog with
  | [], _ | _, [] => mret None
  | _, _ =>
      let '(current_point, pm) := get_next_point (point_manager self) in
      let self := with_point_manager self pm in
      match current_point with
      | None => mret None
      | Some current_point =>
          '(placed, self) ← try_place_item_at_point h self current_point;
          match placed with
          | Some placed =>
              st ← handle_successful_placement h self placed current_point;
              mret (Some st)
          | None => mret (Some (h, handle_failed_placement self current_point))
          end
      end
  end.

(** The [while] loop, with a bound on the number of turns. *)
Fixpoint pack_loop (fuel : nat) (h : Heap) (self : BinPackerV3)
  : outcome (Heap * BinPackerV3) :=
  match fuel with
  | O => OutOfFuel
  | S fuel =>
      next ← loop_body h self;
      match next with
      | None => mret (h, self)
      | Some (h, self) => pack_loop fuel h self
      end
  end.

(** *** The report *)

Record PlacedEntry : Set := mkPlacedEntry {
  pe_id : string;
  pe_stackability : string;
  pe_position : Q * Q * Q;
  pe_rotation : Rotation;
  pe_dimensions : Q * Q * Q;
  pe_weight : Q
}.

Record UnplacedEntry : Set := mkUnplacedEntry {
  ue_id : string;
  ue_volume : Q;
  ue_weight : Q;
  ue_stackability : string
}.

Record Statistics : Set := mkStatistics {
  items_placed : nat;
  items_unplaced : nat;
  total_items : nat
}.

Record Report : Set := mkReport {
  report_success : bool;
  report_placed_items : list PlacedEntry;
  report_unplaced_items : list UnplacedEntry;
  efficiency : Q;
  total_weight : Q;
  report_truck_dimensions : Q * Q * Q;
  statistics : Statistics
}.

(** [sum(...)] adds from the left, starting at 0. *)
Definition sum (xs : list Q) : Q := fold_left Qplus xs 0%Q.

Definition placed_entry (p : PlacedItem) : PlacedEntry :=
  {| pe_id := item_id (item p);
     pe_stackability := Stackability_value (stackability (item p));
     pe_position := (px (position p), py (position p), pz (position p));
     pe_rotation := rotation p;
     pe_dimensions := (rot_l (rotation p), rot_w (rotation p), rot_h (rotation p));
     pe_weight := item_weight (item p) |}.

Definition unplaced_entry (it : Item) : UnplacedEntry :=
  {| ue_id := item_id it;
     ue_volume := Item_volume it;
     ue_weight := item_weight it;
     ue_stackability := Stackability_value (stackability it) |}.

Definition generate_packing_result (h : Heap) (self : BinPackerV3) : outcome Report :=
  backlog ← read h (unplaced_items self);
  let '(truck_l, truck_w, truck_h) := truck_dimensions self in
  let total_volume := (truck_l * truck_w * truck_h)%Q in
  let used_volume := sum (map PlacedItem_volume (placed_items self)) in
  let eff :=
    if Float.gtb total_volume 0 then (used_volume / total_volume * 100)%Q else 0%Q in
  mret {| report_success := true;
          report_placed_items := map placed_entry (placed_items self);
          report_unplaced_items := map unplaced_entry backlog;
          efficiency := Float.round eff 2;
          total_weight := sum (map (fun p => item_weight (item p)) (placed_items self));
          report_truck_dimensions := truck_dimensions self;
          statistics :=
            {| items_placed := length (placed_items self);
               items_unplaced := length backlog;
               total_items := length (placed_items self) + length backlog |} |}.

(** The prologue of [pack_items]: [sorted] builds a new list, [copy] another
    one, which becomes the backlog. *)
Definition begin_packing (h : Heap) (self : BinPackerV3) (items : loc)
  : outcome (Heap * BinPackerV3) :=
  input ← read h items;
  let '(h, sorted_items) := alloc h (sort_items_by_priority input) in
  sorted ← read h sorted_items;
  let '(h, backlog) := alloc h sorted in
  mret (h, with_unplaced_items self backlog).

Definition pack_items (fuel : nat) (h : Heap) (self : BinPackerV3) (items : loc)
  : outcome (Heap * BinPackerV3 * Report) :=
  '(h, self) ← begin_packing h self items;
  '(h, self) ← pack_loop fuel h self;
  report ← generate_packing_result h self;
  mret (h, self, report).

(** A packer made for one run: [BinPackerV3(l, w, h).pack_items(items)]. *)
Definition pack_fresh (fuel : nat) (h : Heap) (truck_length truck_width truck_height : Q)
  (items : loc) : outcome (Heap * BinPackerV3 * Report) :=
  let '(h, packer) := BinPackerV3_init h truck_length truck_width truck_height in
  pack_items fuel h packer items.

(** *** Scenarios of the test suite *)

Definition box (id : string) (l w hh wt : Q) : Item :=
  {| item_id := id; item_length := l; item_width := w; item_height := hh;
     item_weight := wt; can_rotate := true; destination := "";
     is_palletized := false; stackability := STACKABLE |}.

Definition report_of {A B} (o : outcome (A * B * Report)) : option Report :=
  match o with
  | Done (_, _, r) => Some r
  | _ => None
  end.

(** The two boxes of [test_simple_packing], for a truck of 10 x 2.5 x 2.5. *)
Definition demo_items : list Item :=
  [box "box1" 1 (8 # 10) (6 # 10) 50; box "box2" (5 # 10) (5 # 10) (5 # 10) 25].

Definition demo_run : outcome (Heap * BinPackerV3 * Report) :=
  pack_fresh 8 [demo_items] 10 (25 # 10) (25 # 10) 0.

(** ** Words of the specification

    Notions the specification uses to state what the components compute,
    written from its text and independent of the loops of the code. *)

(** A column: the placed items whose origin has exactly the (x, y) of the
    candidate position. *)
Definition in_column (pos : Point3D) (p : PlacedItem) : Prop :=
  (px (position p) == px pos)%Q /\ (py (position p) == py pos)%Q.

#[global] Instance in_column_dec pos p : Decision (in_column pos p).
Proof. unfold in_column. apply and_dec; apply Qeq_dec. Defined.

Definition column (placed : list PlacedItem) (pos : Point3D) : list PlacedItem :=
  filter (in_column pos) placed.

(** The weight a column carries with a candidate of weight [weight] on it,
    added up in the order the manager adds it: from the weight of the
    candidate, the weights of the items of the column, in the order of their
    placement. *)
Definition column_load (placed : list PlacedItem) (pos : Point3D) (weight : Q) : Q :=
  fold_left Qplus (map (fun p => item_weight (item p)) (column placed pos)) weight.

(** Equality of heights: the exact [==] of floats, and equality under the
    3-decimal rounding that [Point3D.__eq__] applies to coordinates. *)
Definition exact_eqb (a b : Q) : bool := Float.eqb a b.
Definition tolerant_eqb (a b : Q) : bool :=
  Float.eqb (Float.round a 3) (Float.round b 3).

Definition top_height (p : PlacedItem) : Q := (pz (position p) + rot_h (rotation p))%Q.

(** The coverage percentage of the specification: the intersection areas of
    the candidate's footprint with the top faces of the placed items ending
    at its base height (under the given equality of heights), summed and
    divided by the area of the footprint. *)
Definition coverage (same_height : Q -> Q -> bool) (placed : list PlacedItem)
  (pos : Point3D) (rot : Rotation) : Q :=
  (sum (map (fun p => calculate_intersection_area (footprint pos rot) (bounds p))
            (filter (fun p => same_height (top_height p) (pz pos) = true) placed))
   / (rot_l rot * rot_w rot) * 100)%Q.

(** Acceptance as the specification words it. *)
Definition fully_supported (same_height : Q -> Q -> bool) (placed : list PlacedItem)
  (pos : Point3D) (rot : Rotation) : Prop :=
  (pz pos == 0)%Q \/ (100 <= coverage same_height placed pos rot)%Q.

#[global] Instance fully_supported_dec same_height placed pos rot :
  Decision (fully_supported same_height placed pos rot).
Proof.
  unfold fully_supported. apply or_dec.
  - apply Qeq_dec.
  - destruct (Qlt_le_dec (coverage same_height placed pos rot) 100) as [H|H].
    + right. intros H'. exact (Qlt_not_le _ _ H H').
    + left. exact H.
Defined.

(** The scan order of the frontier: lexicographic on (x, z, y, priority). *)
Definition scan_lt (k1 k2 : ScanKey) : Prop :=
  let '(x1, z1, y1, p1) := k1 in
  let '(x2, z2, y2, p2) := k2 in
  (x1 < x2)%Q
  \/ ((x1 == x2)%Q
      /\ ((z1 < z2)%Q
          \/ ((z1 == z2)%Q
              /\ ((y1 < y2)%Q \/ ((y1 == y2)%Q /\ p1 < p2))))).

Definition scan_le (k1 k2 : ScanKey) : Prop :=
  let '(x1, z1, y1, p1) := k1 in
  let '(x2, z2, y2, p2) := k2 in
  (x1 < x2)%Q
  \/ ((x1 == x2)%Q
      /\ ((z1 < z2)%Q
          \/ ((z1 == z2)%Q
              /\ ((y1 < y2)%Q \/ ((y1 == y2)%Q /\ p1 <= p2))))).

(** The scan key as the specification words it: every axis rounded to the
    3-decimal tolerance of point equality. *)
Definition scan_key_tolerance (self : PointManager) (p : Point3D) : ScanKey :=
  (Float.round (px p) 3,
   Float.round (pz p) 3,
   Float.round (py p) 3,
   default 999 (point_priorities self !! Point3D_hash p)).

(** [p] is the first element of [l] with the lowest key: the elements in
    front of it are strictly later in the scan order, the ones behind it are
    not earlier. *)
Definition first_lowest (key : Point3D -> ScanKey) (l : list Point3D) (p : Point3D)
  : Prop :=
  exists front back,
    l = front ++ p :: back
    /\ Forall (fun q => scan_lt (key p) (key q)) front
    /\ Forall (fun q => scan_le (key p) (key q)) back.

(** Membership under the tolerance of point equality. *)
Definition same_point (p q : Point3D) : Prop :=
  (Float.round (px p) 3 == Float.round (px q) 3)%Q
  /\ (Float.round (py p) 3 == Float.round (py q) 3)%Q
  /\ (Float.round (pz p) 3 == Float.round (pz q) 3)%Q.

Definition known (p : Point3D) (points : list Point3D) : Prop :=
  Exists (same_point p) points.

(** No two points of the list are the same point under the tolerance. *)
Fixpoint separated (points : list Point3D) : Prop :=
  match points with
  | [] => True
  | p :: rest => ~ known p rest /\ separated rest
  end.

(** The frontier keeps its three populations apart: the open points are
    pairwise different, and none of them is consumed or blocked. *)
Definition frontier_ok (pm : PointManager) : Prop :=
  separated (available_points pm)
  /\ forall p, p ∈ available_points pm ->
               ~ known p (used_points pm) /\ ~ known p (blocked_points pm).

(** The priority order of the backlog: unstackable items first, stackable
    ones second, semi-stackable ones last; then larger volume first, then
    larger weight first, then the destination label in lexicographic
    order. *)
Definition priority_lt (a b : Item) : Prop :=
  stack_rank (stackability a) < stack_rank (stackability b)
  \/ (stack_rank (stackability a) = stack_rank (stackability b)
      /\ ((Item_volume b < Item_volume a)%Q
          \/ ((Item_volume a == Item_volume b)%Q
              /\ ((item_weight b < item_weight a)%Q
                  \/ ((item_weight a == item_weight b)%Q
                      /\ String.ltb (destination a) (destination b) = true))))).

Definition priority_le (a b : Item) : Prop :=
  stack_rank (stackability a) < stack_rank (stackability b)
  \/ (stack_rank (stackability a) = stack_rank (stackability b)
      /\ ((Item_volume b < Item_volume a)%Q
          \/ ((Item_volume a == Item_volume b)%Q
              /\ ((item_weight b < item_weight a)%Q
                  \/ ((item_weight a == item_weight b)%Q
                      /\ String.leb (destination a) (destination b) = true))))).

(** Every item of the backlog comes before, or ties with, all the items
    behind it. *)
Definition priority_ordered (backlog : list Item) : Prop :=
  StronglySorted priority_le backlog.

(** *** States of a packer

    The states a packer goes through: created by [BinPackerV3.__init__] in
    some heap, it enters [pack_items] any number of times, and goes through
    the turns of its loop. *)
Inductive packer_state : Heap -> BinPackerV3 -> Prop :=
| state_created h truck_length truck_width truck_height :
    packer_state (fst (BinPackerV3_init h truck_length truck_width truck_height))
                 (snd (BinPackerV3_init h truck_length truck_width truck_height))
| state_entered h self items h' self' :
    packer_state h self ->
    begin_packing h self items = Done (h', self') ->
    packer_state h' self'
| state_turn h self h' self' :
    packer_state h self ->
    loop_body h self = Done (Some (h', self')) ->
    packer_state h' self'.

(** Two boxes overlap when their extents overlap on each of the three axes;
    extents that only touch do not overlap. *)
Definition overlap (b1 b2 : Bounds) : Prop :=
  let '(min1, max1) := b1 in
  let '(min2, max2) := b2 in
  (px min2 < px max1 /\ px min1 < px max2)%Q
  /\ (py min2 < py max1 /\ py min1 < py max2)%Q
  /\ (pz min2 < pz max1 /\ pz min1 < pz max2)%Q.

(** No two placements, at distinct ranks of the list, overlap. *)
Definition collision_free (placed : list PlacedItem) : Prop :=
  forall i j p q,
    i <> j -> placed !! i = Some p -> placed !! j = Some q ->
    ~ overlap (bounds p) (bounds q).

(** A placement lies within the container. *)
Definition within_truck (dims : Q * Q * Q) (p : PlacedItem) : Prop :=
  let '(truck_length, truck_width, truck_height) := dims in
  let '(min_corner, max_corner) := bounds p in
  (0 <= px min_corner /\ 0 <= py min_corner /\ 0 <= pz min_corner)%Q
  /\ (px max_corner <= truck_length /\ py max_corner <= truck_width
      /\ pz max_corner <= truck_height)%Q.

(** *** The five checks of a placement attempt, in the order of the
    specification: (a) an unstackable item must be on the floor, (b) the
    oriented box lies within the container, (c) it collides with no placed
    item, (d) it is fully supported, (e) the weight/stack manager approves.
    The first check that fails gives the reason of the rejection. *)
Definition floor_rule (it : Item) (point : Point3D) : bool :=
  negb (Stackability_eqb (stackability it) UNSTACKABLE && negb (Float.eqb (pz point) 0)).

Definition verdict (self : BinPackerV3) (it : Item) (point : Point3D) (rot : Rotation)
  : PlacementResult :=
  if negb (floor_rule it point) then rejected "unstackable_must_be_floor"
  else if negb (check_geometric_constraints self it point rot)
  then rejected "geometric_violation"
  else if collides (placed_items self) it point rot then rejected "collision"
  else if negb (validate_support (support_validator self) it point rot)
  then rejected "insufficient_support"
  else if negb (validate_placement (weight_manager self) it point rot)
  then rejected "weight_violation"
  else {| success := true; reason := "";
          placed_item := Some (mkPlacedItem it point rot) |}.

Definition passes (self : BinPackerV3) (point : Point3D) (attempt : Item * Rotation)
  : bool :=
  floor_rule (fst attempt) point
  && check_geometric_constraints self (fst attempt) point (snd attempt)
  && negb (collides (placed_items self) (fst attempt) point (snd attempt))
  && validate_support (support_validator self) (fst attempt) point (snd attempt)
  && validate_placement (weight_manager self) (fst attempt) point (snd attempt).

(** The attempts at a point: every item of the backlog in its order, each
    with its two orientations, the original one first. *)
Definition attempts (backlog : list Item) : list (Item * Rotation) :=
  it ← backlog; rot ← get_rotations it; [(it, rot)].

(** The first attempt that passes the five checks. *)
Definition first_passing (self : BinPackerV3) (backlog : list Item) (point : Point3D)
  : option PlacedItem :=
  (fun attempt => mkPlacedItem (fst attempt) point (snd attempt))
    <$> find (passes self point) (attempts backlog).

(** The same packer with another content of the collision cache. *)
Definition recache (self : BinPackerV3) (cache : gmap CacheKey bool) : BinPackerV3 :=
  with_collision_detector self
    {| cd_placed_items := cd_placed_items (collision_detector self);
       collision_cache := cache |}.

(** Every cached answer is the answer of the scan over the placed items. *)
Definition cache_sound (placed : list PlacedItem) (cache : gmap CacheKey bool) : Prop :=
  forall it pos rot b,
    cache !! cache_key it pos rot = Some b -> collides placed it pos rot = b.

(** The three checkers hold the placements of the packer, and the collision
    cache agrees with them. *)
Record consistent (self : BinPackerV3) : Prop := mkConsistent {
  cd_synced : cd_placed_items (collision_detector self) = placed_items self;
  sv_synced : sv_placed_items (support_validator self) = placed_items self;
  wm_synced : wm_placed_items (weight_manager self) = placed_items self;
  cache_ok : cache_sound (placed_items self) (collision_cache (collision_detector self))
}.

(** The quantity every turn of the loop decreases. *)
Definition budget (backlog : list Item) (self : BinPackerV3) : nat :=
  3 * length backlog + length (available_points (point_manager self)).

(** *** Further notions *)

(** [PlacedItem.get_corner_points]: the eight corners, bottom face first. *)
Definition get_corner_points (self : PlacedItem) : list Point3D :=
  let '(l, w, h) := rotation self in
  let x := px (position self) in
  let y := py (position self) in
  let z := pz (position self) in
  [ mkPoint3D x y z;
    mkPoint3D (x + l)%Q y z;
    mkPoint3D x (y + w)%Q z;
    mkPoint3D (x + l)%Q (y + w)%Q z;
    mkPoint3D x y (z + h)%Q;
    mkPoint3D (x + l)%Q y (z + h)%Q;
    mkPoint3D x (y + w)%Q (z + h)%Q;
    mkPoint3D (x + l)%Q (y + w)%Q (z + h)%Q ].

(** A point lies within the container. *)
Definition point_within (dims : Q * Q * Q) (p : Point3D) : Prop :=
  let '(truck_length, truck_width, truck_height) := dims in
  (0 <= px p <= truck_length /\ 0 <= py p <= truck_width
   /\ 0 <= pz p <= truck_height)%Q.

(** What held of a placement when it was committed, [before] being the
    placements made before it: it uses one of the two orientations of its
    item, an unstackable item is on the floor, it collides with none of the
    earlier placements, it is fully supported by them, and the weight/stack
    manager approved it against them with the limits [depth] and [load]. *)
Record admitted (depth : Z) (load : Q) (before : list PlacedItem) (p : PlacedItem)
  : Prop := mkAdmitted {
  admitted_rotation : rotation p ∈ get_rotations (item p);
  admitted_floor : stackability (item p) = UNSTACKABLE -> (pz (position p) == 0)%Q;
  admitted_apart : Forall (fun q => ~ overlap (bounds p) (bounds q)) before;
  admitted_support : fully_supported exact_eqb before (position p) (rotation p);
  admitted_depth :
    (pz (position p) == 0)%Q \/ Z.of_nat (length (column before (position p))) < depth;
  admitted_load :
    (column_load before (position p) (item_weight (item p)) <= load)%Q
}.

(** Every placement was admitted against the placements in front of it. *)
Definition history_ok (depth : Z) (load : Q) (placed : list PlacedItem) : Prop :=
  forall before p behind, placed = before ++ p :: behind -> admitted depth load before p.

(** The open, consumed and blocked points, all together, are pairwise
    different under the tolerance: no point is twice in one list or in two
    lists. *)
Definition frontier_partition (pm : PointManager) : Prop :=
  separated (available_points pm ++ used_points pm ++ blocked_points pm).

(** Two items are tied in the priority order: neither comes strictly before
    the other. *)
Definition priority_tied (a b : Item) : bool :=
  negb (ItemKey_ltb (priority_key a) (priority_key b))
  && negb (ItemKey_ltb (priority_key b) (priority_key a)).

(** An attempt (an item in one of its orientations) that the empty container
    takes at its origin: the box is within the container and the weight
    within the limit of a column. *)
Definition fits_empty_truck (dims : Q * Q * Q) (attempt : Item * Rotation) : bool :=
  let '(truck_length, truck_width, truck_height) := dims in
  let '(l, w, hh) := snd attempt in
  Float.leb l truck_length && Float.leb w truck_width && Float.leb hh truck_height
  && Float.leb (item_weight (fst attempt)) 1000.

(** *** Concrete inputs *)

(** A stackable box of size 1 x 1 x 0.5004 on the floor at the origin, and a
    candidate of footprint 1 x 1 at height 0.5. *)
Definition ledge : PlacedItem :=
  mkPlacedItem (box "ledge" 1 1 (5004 # 10000) 10) (mkPoint3D 0 0 0) (1, 1, 5004 # 10000)%Q.

(** Two open points that differ in y by one unit and in x by less than the
    3-decimal tolerance. *)
Definition near_wall : PointManager :=
  {| available_points := [mkPoint3D (4 # 10000) 1 0; mkPoint3D (1 # 10000) 2 0];
     used_points := []; blocked_points := [];
     point_priorities := ∅ |}.

(** A frontier whose only point, the origin, is blocked. *)
Definition dead_end : PointManager :=
  {| available_points := []; used_points := [];
     blocked_points := [mkPoint3D 0 0 0];
     point_priorities := ∅ |}.

(** An unstackable crate and two stackable boxes, all 1 x 1 x 1, for a truck
    of 2 x 1 x 2: the crate goes to the origin, the boxes on top of each
    other beside it. *)
Definition crate : Item :=
  {| item_id := "crate"; item_length := 1; item_width := 1; item_height := 1;
     item_weight := 100; can_rotate := true; destination := "";
     is_palletized := false; stackability := UNSTACKABLE |}.

Definition stack_items : list Item := [box "low" 1 1 1 50; crate; box "high" 1 1 1 40].

Definition stack_run : outcome (Heap * BinPackerV3 * Report) :=
  pack_fresh 11 [stack_items] 2 1 2 0.

Definition stack_placed : list PlacedItem :=
  [ mkPlacedItem crate (mkPoint3D 0 0 0) (1, 1, 1)%Q;
    mkPlacedItem (box "low" 1 1 1 50) (mkPoint3D 1 0 0) (1, 1, 1)%Q;
    mkPlacedItem (box "high" 1 1 1 40) (mkPoint3D 1 0 1) (1, 1, 1)%Q ].

(** * Properties *)

(** ** Comparisons of floats *)

Lemma eqb_true (a b : Q) : Float.eqb a b = true <-> (a == b)%Q.
Proof. apply Qeq_bool_iff. Qed.

Lemma eqb_false (a b : Q) : Float.eqb a b = false <-> ~ (a == b)%Q.
Proof.
  rewrite <- eqb_true. destruct (Float.eqb a b); split; congruence.
Qed.

Lemma leb_true (a b : Q) : Float.leb a b = true <-> (a <= b)%Q.
Proof. apply Qle_bool_iff. Qed.

Lemma leb_false (a b : Q) : Float.leb a b = false <-> (b < a)%Q.
Proof.
  split.
  - intros H. apply Qnot_le_lt. intros Hle. apply leb_true in Hle. congruence.
  - intros H. destruct (Float.leb a b) eqn:E; [|reflexivity].
    apply leb_true in E. exfalso. apply (Qlt_not_le _ _ H E).
Qed.

Lemma geb_true (a b : Q) : Float.geb a b = true <-> (b <= a)%Q.
Proof. apply Qle_bool_iff. Qed.

Lemma geb_false (a b : Q) : Float.geb a b = false <-> (a < b)%Q.
Proof. apply leb_false. Qed.

Lemma ltb_true (a b : Q) : Float.ltb a b = true <-> (a < b)%Q.
Proof.
  unfold Float.ltb. rewrite negb_true_iff. apply leb_false.
Qed.

Lemma ltb_false (a b : Q) : Float.ltb a b = false <-> (b <= a)%Q.
Proof.
  unfold Float.ltb. rewrite negb_false_iff. apply leb_true.
Qed.

Lemma gtb_true (a b : Q) : Float.gtb a b = true <-> (b < a)%Q.
Proof.
  unfold Float.gtb. rewrite negb_true_iff. apply leb_false.
Qed.

Lemma gtb_false (a b : Q) : Float.gtb a b = false <-> (a <= b)%Q.
Proof.
  unfold Float.gtb. rewrite negb_false_iff. apply leb_true.
Qed.

(** Turns the float comparisons of the context and the goal into
    propositions over [Q]. *)
Ltac float_prop :=
  repeat match goal with
  | H : Float.eqb _ _ = true |- _ => apply eqb_true in H
  | H : Float.eqb _ _ = false |- _ => apply eqb_false in H
  | H : Float.leb _ _ = true |- _ => apply leb_true in H
  | H : Float.leb _ _ = false |- _ => apply leb_false in H
  | H : Float.geb _ _ = true |- _ => apply geb_true in H
  | H : Float.geb _ _ = false |- _ => apply geb_false in H
  | H : Float.ltb _ _ = true |- _ => apply ltb_true in H
  | H : Float.ltb _ _ = false |- _ => apply ltb_false in H
  | H : Float.gtb _ _ = true |- _ => apply gtb_true in H
  | H : Float.gtb _ _ = false |- _ => apply gtb_false in H
  | |- Float.eqb _ _ = true => apply eqb_true
  | |- Float.eqb _ _ = false => apply eqb_false
  | |- Float.leb _ _ = true => apply leb_true
  | |- Float.leb _ _ = false => apply leb_false
  | |- Float.geb _ _ = true => apply geb_true
  | |- Float.geb _ _ = false => apply geb_false
  | |- Float.ltb _ _ = true => apply ltb_true
  | |- Float.ltb _ _ = false => apply ltb_false
  | |- Float.gtb _ _ = true => apply gtb_true
  | |- Float.gtb _ _ = false => apply gtb_false
  end.

(** ** Weight and stack manager *)

Lemma same_origin_in_column pos p : same_origin pos p = true <-> in_column pos p.
Proof.
  unfold same_origin, in_column. rewrite andb_true_iff, !eqb_true. tauto.
Qed.

Lemma stack_count_fold placed pos (n : Z) :
  fold_left (fun stack_height placed_item =>
               if same_origin pos placed_item then stack_height + 1 else stack_height)
            placed n
  = n + Z.of_nat (length (column placed pos)).
Proof.
  revert n. induction placed as [|p placed IH]; intros n; simpl.
  - lia.
  - rewrite IH. unfold column. rewrite filter_cons.
    destruct (decide (in_column pos p)) as [Hin|Hout].
    + apply same_origin_in_column in Hin. rewrite Hin. simpl length. lia.
    + destruct (same_origin pos p) eqn:E; [|reflexivity].
      apply same_origin_in_column in E. contradiction.
Qed.

Lemma sum_from (xs : list Q) (a : Q) : (fold_left Qplus xs a == a + sum xs)%Q.
Proof.
  unfold sum. revert a. induction xs as [|x xs IH]; intros a; simpl.
  - lra.
  - rewrite IH, (IH (0 + x)%Q). lra.
Qed.

Lemma stack_weight_load placed pos (w : Q) :
  fold_left (fun total_weight placed_item =>
               if same_origin pos placed_item
               then (total_weight + item_weight (item placed_item))%Q
               else total_weight)
            placed w
  = column_load placed pos w.
Proof.
  unfold column_load, column. revert w.
  induction placed as [|p placed IH]; intros w; [reflexivity|].
  cbn [fold_left]. rewrite filter_cons.
  destruct (decide (in_column pos p)) as [Hin|Hout].
  - apply same_origin_in_column in Hin. rewrite Hin. cbn [map fold_left]. apply IH.
  - destruct (same_origin pos p) eqn:E; [|apply IH].
    apply same_origin_in_column in E. contradiction.
Qed.

(** C9.  The weight/stack manager approves a candidate exactly when
    (a) its position is on the floor or its column (the placed items with
    exactly its (x, y) origin) holds strictly fewer items than the maximum
    stack height, and (b) the weight of the candidate and of the items of
    that column, added in that order, does not exceed the maximum weight per
    stack; the defaults are 3 and 1000; and a placed item with another
    origin, whatever its footprint, has no influence on the verdict. *)
Theorem weight_stack_checks :
  (max_stack_height WeightManager_init = 3
   /\ max_weight_per_stack WeightManager_init = 1000%Q)
  /\ (forall (wm : WeightManager) (it : Item) (pos : Point3D) (rot : Rotation),
        validate_placement wm it pos rot = true
        <-> (((pz pos == 0)%Q
              \/ Z.of_nat (length (column (wm_placed_items wm) pos)) < max_stack_height wm)
             /\ (column_load (wm_placed_items wm) pos (item_weight it)
                 <= max_weight_per_stack wm)%Q))
  /\ (forall (wm : WeightManager) (other : PlacedItem) (it : Item) (pos : Point3D)
        (rot : Rotation),
        ~ in_column pos other ->
        validate_placement (wm_add_placed_item wm other) it pos rot
        = validate_placement wm it pos rot).
Proof.
  split; [split; reflexivity|]. split.
  - intros wm it pos rot.
    unfold validate_placement, check_stack_height, check_weight_limits,
      stack_count, stack_weight.
    rewrite stack_count_fold, stack_weight_load.
    set (w := column_load _ _ _).
    destruct (Float.eqb (pz pos) 0) eqn:Ez; simpl.
    + float_prop.
      destruct (Float.leb w (max_weight_per_stack wm)) eqn:El; simpl; float_prop.
      * split; [intros _|reflexivity]. split; [left; exact Ez|exact El].
      * split; [discriminate|]. intros [_ H]. lra.
    + float_prop.
      destruct (Z.ltb_spec (0 + Z.of_nat (length (column (wm_placed_items wm) pos)))
                  (max_stack_height wm)) as [Hlt|Hge]; simpl.
      * destruct (Float.leb w (max_weight_per_stack wm)) eqn:El; simpl; float_prop.
        -- split; [intros _|reflexivity]. split; [right; lia|exact El].
        -- split; [discriminate|]. intros [_ H]. lra.
      * split; [discriminate|]. intros [[H|H] _]; [contradiction|lia].
  - intros wm other it pos rot Hout.
    unfold validate_placement, check_stack_height, check_weight_limits,
      stack_count, stack_weight, wm_add_placed_item; simpl.
    rewrite !fold_left_app; simpl.
    destruct (same_origin pos other) eqn:E; [|reflexivity].
    apply same_origin_in_column in E. contradiction.
Qed.

Lemma weight_stack_checks_witness :
  validate_placement (wm_add_placed_item WeightManager_init ledge)
    (box "b" 1 1 1 10) (mkPoint3D 5 5 0) (1, 1, 1)%Q
  = validate_placement WeightManager_init (box "b" 1 1 1 10) (mkPoint3D 5 5 0) (1, 1, 1)%Q.
Proof.
  apply (proj2 (proj2 weight_stack_checks)).
  intros [H _]. vm_compute in H. discriminate.
Defined.


(** ** Support validator *)

Lemma max_zero_nonneg (v : Q) : (0 <= Float.max 0 v)%Q.
Proof.
  unfold Float.max. destruct (Float.ltb 0 v) eqn:E; float_prop; lra.
Qed.

Lemma intersection_area_nonneg (a b : Bounds) : (0 <= calculate_intersection_area a b)%Q.
Proof.
  destruct a as [amin amax], b as [bmin bmax]. unfold calculate_intersection_area.
  apply Qmult_le_0_compat; apply max_zero_nonneg.
Qed.

Lemma sum_nonneg (xs : list Q) : Forall (fun x => (0 <= x)%Q) xs -> (0 <= sum xs)%Q.
Proof.
  induction 1 as [|x xs Hx _ IH]; unfold sum; simpl.
  - lra.
  - rewrite sum_from. lra.
Qed.

Lemma supported_area_sum (pos : Point3D) (rot : Rotation) (supporters : list PlacedItem) :
  supported_area pos rot (map bounds supporters)
  = sum (map (fun p => calculate_intersection_area (footprint pos rot) (bounds p))
             supporters).
Proof.
  unfold supported_area, sum. generalize 0%Q.
  induction supporters as [|p l IH]; intros a; simpl; [reflexivity|apply IH].
Qed.


Lemma quotient_nonpos (s a : Q) : (0 <= s)%Q -> (a <= 0)%Q -> (s / a <= 0)%Q.
Proof.
  intros Hs Ha. destruct (Qeq_dec a 0) as [E|N].
  - unfold Qdiv. rewrite E. unfold Qinv; simpl. lra.
  - assert (Hpos : (0 < - a)%Q) by lra.
    assert (Hq : (0 <= s / - a)%Q).
    { apply Qle_shift_div_l; lra. }
    assert (Heq : (s / a == - (s / - a))%Q) by (field; lra).
    rewrite Heq. lra.
Qed.

Lemma coverage_nonpos (same_height : Q -> Q -> bool) (placed : list PlacedItem)
  (pos : Point3D) (rot : Rotation) :
  (rot_l rot * rot_w rot <= 0)%Q -> (coverage same_height placed pos rot <= 0)%Q.
Proof.
  intros Ha. unfold coverage.
  set (total := sum _).
  assert (Htotal : (0 <= total)%Q).
  { apply sum_nonneg, Forall_forall. intros x Hx.
    apply list_elem_of_fmap in Hx as [p [-> _]].
    apply intersection_area_nonneg. }
  assert (H := quotient_nonpos total _ Htotal Ha). lra.
Qed.

Lemma validate_support_fully_supported (sv : SupportValidator) (it : Item)
  (pos : Point3D) (rot : Rotation) :
  validate_support sv it pos rot = true
  <-> fully_supported exact_eqb (sv_placed_items sv) pos rot.
Proof.
  unfold validate_support, fully_supported.
  destruct (Float.eqb (pz pos) 0) eqn:Ez; float_prop.
  { split; [intros _; left; exact Ez|reflexivity]. }
  unfold get_support_surface, coverage.
  set (supporters := filter (fun p => supports_at (pz pos) p = true) (sv_placed_items sv)).
  change (filter (fun p => exact_eqb (top_height p) (pz pos) = true) (sv_placed_items sv))
    with supporters.
  set (total := sum (map (fun p => calculate_intersection_area (footprint pos rot) (bounds p))
                         supporters)).
  assert (Htotal : (0 <= total)%Q).
  { apply sum_nonneg, Forall_forall. intros x Hx.
    apply list_elem_of_fmap in Hx as [p [-> _]].
    apply intersection_area_nonneg. }
  set (area := (rot_l rot * rot_w rot)%Q).
  assert (Hcode :
    Float.geb (calculate_support_percentage pos rot (map bounds supporters)) 100 = true
    <-> (100 <= total / area * 100)%Q).
  { unfold calculate_support_percentage. rewrite supported_area_sum.
    fold total. fold area.
    destruct (Float.gtb area 0) eqn:Ea; float_prop.
    - rewrite geb_true. reflexivity.
    - rewrite geb_true. assert (H := quotient_nonpos total area Htotal Ea).
      split; intros H'; lra. }
  destruct supporters as [|p supporters'] eqn:Es.
  - subst total. unfold sum; simpl. split; [discriminate|].
    intros [H|H]; [contradiction|]. exfalso.
    assert (H0 : (0 / area == 0)%Q) by (unfold Qdiv; lra). rewrite H0 in H. lra.
  - simpl map at 1.
    change (bounds p :: map bounds supporters') with (map bounds (p :: supporters')).
    rewrite Hcode. split; [intros H; right; exact H|].
    intros [H|H]; [contradiction|exact H].
Qed.

(** C2, as the code has it.  The support validator accepts a candidate on
    the floor; otherwise it accepts exactly when the intersection areas of
    the candidate's footprint with the top faces of the placed items whose
    top height is exactly equal ([==], no rounding) to the candidate's base
    height, summed and divided by the footprint area, reach 100 percent.  A
    candidate above the floor whose footprint area is not positive is
    rejected. *)
Theorem validate_support_exact_height :
  forall (sv : SupportValidator) (it : Item) (pos : Point3D) (rot : Rotation),
    (validate_support sv it pos rot = true
     <-> fully_supported exact_eqb (sv_placed_items sv) pos rot)
    /\ (~ (pz pos == 0)%Q -> (rot_l rot * rot_w rot <= 0)%Q ->
        validate_support sv it pos rot = false).
Proof.
  intros sv it pos rot. split; [apply validate_support_fully_supported|].
  intros Hz Ha. destruct (validate_support sv it pos rot) eqn:E; [|reflexivity].
  apply validate_support_fully_supported in E as [E|E]; [contradiction|].
  assert (H := coverage_nonpos exact_eqb (sv_placed_items sv) pos rot Ha). lra.
Qed.

Lemma validate_support_exact_height_witness :
  validate_support {| sv_placed_items := [ledge] |} (box "flat" 0 1 1 10)
    (mkPoint3D 0 0 (5004 # 10000)) (0, 1, 1)%Q = false.
Proof.
  apply (proj2 (validate_support_exact_height {| sv_placed_items := [ledge] |}
                  (box "flat" 0 1 1 10) (mkPoint3D 0 0 (5004 # 10000)) (0, 1, 1)%Q)).
  - intros H. vm_compute in H. discriminate.
  - vm_compute. discriminate.
Defined.

(** C2, as stated, fails.  The top of the ledge, 0.5004, and the base height
    0.5 are equal under the 3-decimal rounding, and the ledge covers the whole
    footprint, so the coverage the specification describes is 100 percent;
    the code matches heights with [==], finds no support surface and rejects. *)
Lemma validate_support_not_tolerant :
  let sv := {| sv_placed_items := [ledge] |} in
  let pos := mkPoint3D 0 0 (5 # 10) in
  let rot : Rotation := (1, 1, 1)%Q in
  fully_supported tolerant_eqb (sv_placed_items sv) pos rot
  /\ validate_support sv (box "top" 1 1 1 10) pos rot = false.
Proof.
  split; [|vm_compute; reflexivity].
  right. vm_compute. discriminate.
Qed.

(** ** Stable sort *)

Section StableSortFacts.
Context {A K : Type} (key : A -> K) (ltb : K -> K -> bool).
Hypothesis ltb_trans :
  forall a b c, ltb a b = true -> ltb b c = true -> ltb a c = true.
Hypothesis ltb_neg_trans :
  forall a b c, ltb a b = false -> ltb b c = false -> ltb a c = false.

Lemma sort_insert_Permutation (a : A) (l : list A) :
  sort_insert key ltb a l ≡ₚ a :: l.
Proof.
  induction l as [|b l IH]; simpl; [reflexivity|].
  destruct (ltb (key b) (key a)); [|reflexivity].
  rewrite IH. apply Permutation_swap.
Qed.

Lemma sort_by_key_Permutation (l : list A) : sort_by_key key ltb l ≡ₚ l.
Proof.
  induction l as [|a l IH]; simpl; [reflexivity|].
  rewrite sort_insert_Permutation, IH. reflexivity.
Qed.

Lemma sort_by_key_length (l : list A) : length (sort_by_key key ltb l) = length l.
Proof. apply Permutation_length, sort_by_key_Permutation. Qed.

Lemma head_sort_insert (a : A) (l : list A) :
  head (sort_insert key ltb a l)
  = match head l with
    | Some b => if ltb (key b) (key a) then Some b else Some a
    | None => Some a
    end.
Proof.
  destruct l as [|b l]; simpl; [reflexivity|].
  destruct (ltb (key b) (key a)); reflexivity.
Qed.

(** The head of the sorted list is the first element with the lowest key. *)
Lemma head_sort_by_key (l : list A) (p : A) :
  head (sort_by_key key ltb l) = Some p ->
  exists front back,
    l = front ++ p :: back
    /\ Forall (fun q => ltb (key p) (key q) = true) front
    /\ Forall (fun q => ltb (key q) (key p) = false) back.
Proof.
  revert p. induction l as [|a l IH]; intros p; simpl; [discriminate|].
  rewrite head_sort_insert.
  destruct (head (sort_by_key key ltb l)) as [b|] eqn:Hb.
  - destruct (IH b eq_refl) as (front & back & -> & Hfront & Hback).
    destruct (ltb (key b) (key a)) eqn:Hba; intros [= <-].
    + exists (a :: front), back. split; [reflexivity|].
      split; [constructor; assumption|assumption].
    + exists [], (front ++ b :: back). split; [reflexivity|].
      split; [constructor|].
      apply Forall_app. split; [|constructor].
      * eapply Forall_impl; [exact Hfront|]. intros q Hq. simpl in Hq.
        destruct (ltb (key q) (key a)) eqn:Hqa; [|reflexivity].
        rewrite (ltb_trans _ _ _ Hq Hqa) in Hba. discriminate.
      * exact Hba.
      * eapply Forall_impl; [exact Hback|]. intros q Hq. simpl in Hq.
        exact (ltb_neg_trans _ _ _ Hq Hba).
  - intros [= <-]. destruct l as [|c l].
    + exists [], []. repeat split; constructor.
    + exfalso. assert (Hperm := sort_by_key_Permutation (c :: l)).
      destruct (sort_by_key key ltb (c :: l)); [|discriminate].
      apply Permutation_nil_l in Hperm. discriminate.
Qed.
End StableSortFacts.

(** ** Point frontier manager *)

(** Picks the branch of a lexicographic comparison that the context proves. *)
Ltac lex_auto :=
  first
    [ left; lra
    | right; split; [lra|]; first
        [ left; lra
        | right; split; [lra|]; first
            [ left; lra | right; split; [lra|lia] ] ] ].

Lemma ScanKey_ltb_true (k1 k2 : ScanKey) : ScanKey_ltb k1 k2 = true <-> scan_lt k1 k2.
Proof.
  destruct k1 as [[[x1 z1] y1] p1], k2 as [[[x2 z2] y2] p2].
  unfold ScanKey_ltb, scan_lt.
  destruct (Float.eqb x1 x2) eqn:Ex; simpl;
    [destruct (Float.eqb z1 z2) eqn:Ez; simpl;
       [destruct (Float.eqb y1 y2) eqn:Ey; simpl|]|];
    float_prop; rewrite ?ltb_true, ?Z.ltb_lt;
    intuition (try lra; try lia).
Qed.

Lemma ScanKey_ltb_false (k1 k2 : ScanKey) : ScanKey_ltb k1 k2 = false <-> scan_le k2 k1.
Proof.
  destruct k1 as [[[x1 z1] y1] p1], k2 as [[[x2 z2] y2] p2].
  unfold ScanKey_ltb, scan_le.
  destruct (Float.eqb x1 x2) eqn:Ex; simpl;
    [destruct (Float.eqb z1 z2) eqn:Ez; simpl;
       [destruct (Float.eqb y1 y2) eqn:Ey; simpl|]|];
    float_prop; rewrite ?ltb_false, ?Z.ltb_ge;
    (split; [intros H; lex_auto|intuition (try lra; try lia)]).
Qed.

Lemma scan_lt_trans (a b c : ScanKey) : scan_lt a b -> scan_lt b c -> scan_lt a c.
Proof.
  destruct a as [[[x1 z1] y1] p1], b as [[[x2 z2] y2] p2], c as [[[x3 z3] y3] p3].
  unfold scan_lt.
  intros [H1|[E1 [H1|[E1' [H1|[E1'' H1]]]]]] [H2|[E2 [H2|[E2' [H2|[E2'' H2]]]]]];
    lex_auto.
Qed.

Lemma scan_le_trans (a b c : ScanKey) : scan_le a b -> scan_le b c -> scan_le a c.
Proof.
  destruct a as [[[x1 z1] y1] p1], b as [[[x2 z2] y2] p2], c as [[[x3 z3] y3] p3].
  unfold scan_le.
  intros [H1|[E1 [H1|[E1' [H1|[E1'' H1]]]]]] [H2|[E2 [H2|[E2' [H2|[E2'' H2]]]]]];
    lex_auto.
Qed.

Lemma ScanKey_ltb_trans (a b c : ScanKey) :
  ScanKey_ltb a b = true -> ScanKey_ltb b c = true -> ScanKey_ltb a c = true.
Proof. rewrite !ScanKey_ltb_true. apply scan_lt_trans. Qed.

Lemma ScanKey_ltb_neg_trans (a b c : ScanKey) :
  ScanKey_ltb a b = false -> ScanKey_ltb b c = false -> ScanKey_ltb a c = false.
Proof.
  rewrite !ScanKey_ltb_false. intros H1 H2. exact (scan_le_trans _ _ _ H2 H1).
Qed.

Lemma get_next_point_available (pm : PointManager) :
  available_points (snd (get_next_point pm))
  = sort_by_key (scan_key pm) ScanKey_ltb (available_points pm).
Proof.
  unfold get_next_point. destruct (available_points pm) eqn:E; simpl; [|reflexivity].
  rewrite E. reflexivity.
Qed.

Lemma get_next_point_head (pm : PointManager) :
  fst (get_next_point pm) = head (sort_by_key (scan_key pm) ScanKey_ltb (available_points pm)).
Proof.
  unfold get_next_point. destruct (available_points pm) eqn:E; reflexivity.
Qed.

Lemma get_next_point_None (pm : PointManager) :
  fst (get_next_point pm) = None <-> available_points pm = [].
Proof.
  rewrite get_next_point_head. split.
  - intros H. destruct (available_points pm) as [|q l] eqn:E; [reflexivity|].
    exfalso. assert (Hperm := sort_by_key_Permutation (scan_key pm) ScanKey_ltb (q :: l)).
    destruct (sort_by_key (scan_key pm) ScanKey_ltb (q :: l)); [|discriminate].
    apply Permutation_nil_l in Hperm. discriminate.
  - intros ->. reflexivity.
Qed.

Lemma get_next_point_Some (pm : PointManager) (p : Point3D) :
  fst (get_next_point pm) = Some p -> first_lowest (scan_key pm) (available_points pm) p.
Proof.
  intros Hp. rewrite get_next_point_head in Hp.
  destruct (head_sort_by_key (scan_key pm) ScanKey_ltb
              ScanKey_ltb_trans ScanKey_ltb_neg_trans _ _ Hp)
    as (front & back & E & Hfront & Hback).
  exists front, back. split; [exact E|]. split.
  - eapply Forall_impl; [exact Hfront|]. intros q Hq. simpl in Hq.
    apply ScanKey_ltb_true. exact Hq.
  - eapply Forall_impl; [exact Hback|]. intros q Hq. simpl in Hq.
    apply ScanKey_ltb_false. exact Hq.
Qed.

(** C6, as the code has it.  [get_next_point] returns none exactly when no
    point is open; otherwise it returns the first open point with the lowest
    scan key, the key being the coordinates rounded to 6 decimals in the
    order x, z, y, then the priority recorded for the point, 999 when none
    is recorded, compared lexicographically. *)
Theorem get_next_point_first_lowest :
  forall (pm : PointManager),
    (fst (get_next_point pm) = None <-> available_points pm = [])
    /\ (forall p, fst (get_next_point pm) = Some p ->
                  first_lowest (scan_key pm) (available_points pm) p)
    /\ (forall p, scan_key pm p
                  = (Float.round (px p) 6, Float.round (pz p) 6, Float.round (py p) 6,
                     default 999 (point_priorities pm !! Point3D_hash p))).
Proof.
  intros pm. split; [apply get_next_point_None|].
  split; [apply get_next_point_Some|reflexivity].
Qed.

Lemma get_next_point_first_lowest_witness :
  first_lowest (scan_key near_wall) (available_points near_wall)
    (mkPoint3D (1 # 10000) 2 0).
Proof.
  apply (proj1 (proj2 (get_next_point_first_lowest near_wall))).
  vm_compute. reflexivity.
Defined.


(** C6, as stated, fails.  With the axes rounded to the 3-decimal tolerance
    the point (0.0004, 1, 0) has the lowest scan key, strictly before
    (0.0001, 2, 0); [get_next_point] rounds to 6 decimals and returns the
    latter. *)
Lemma get_next_point_not_tolerance :
  fst (get_next_point near_wall) = Some (mkPoint3D (1 # 10000) 2 0)
  /\ first_lowest (scan_key_tolerance near_wall) (available_points near_wall)
       (mkPoint3D (4 # 10000) 1 0)
  /\ ~ scan_le (scan_key_tolerance near_wall (mkPoint3D (1 # 10000) 2 0))
         (scan_key_tolerance near_wall (mkPoint3D (4 # 10000) 1 0)).
Proof.
  split; [vm_compute; reflexivity|]. split.
  - exists [], [mkPoint3D (1 # 10000) 2 0]. split; [reflexivity|].
    split; [constructor|]. constructor; [|constructor].
    apply ScanKey_ltb_false. vm_compute. reflexivity.
  - intros H. apply ScanKey_ltb_false in H. vm_compute in H. discriminate.
Qed.

Lemma Point3D_eqb_same_point (p q : Point3D) : Point3D_eqb p q = true <-> same_point p q.
Proof.
  unfold Point3D_eqb, same_point. rewrite !andb_true_iff, !eqb_true. tauto.
Qed.

Lemma same_point_refl (p : Point3D) : same_point p p.
Proof. unfold same_point. repeat split; reflexivity. Qed.

Lemma same_point_sym (p q : Point3D) : same_point p q -> same_point q p.
Proof. unfold same_point. intros (H1 & H2 & H3). repeat split; symmetry; assumption. Qed.

Lemma same_point_trans (p q r : Point3D) : same_point p q -> same_point q r -> same_point p r.
Proof.
  unfold same_point. intros (H1 & H2 & H3) (H1' & H2' & H3').
  repeat split; etransitivity; eassumption.
Qed.

Lemma Point3D_eqb_sym_bool (p q : Point3D) : Point3D_eqb p q = Point3D_eqb q p.
Proof.
  apply eq_true_iff_eq. rewrite !Point3D_eqb_same_point.
  split; apply same_point_sym.
Qed.

Lemma point_in_known (p : Point3D) (points : list Point3D) :
  point_in p points = true <-> known p points.
Proof.
  unfold point_in, known. rewrite existsb_exists, Exists_exists. split.
  - intros (q & Hq & E). exists q. split; [apply list_elem_of_In; exact Hq|].
    apply Point3D_eqb_same_point. exact E.
  - intros (q & Hq & E). exists q. split; [apply list_elem_of_In; exact Hq|].
    apply Point3D_eqb_same_point. exact E.
Qed.

Lemma point_in_unknown (p : Point3D) (points : list Point3D) :
  point_in p points = false <-> ~ known p points.
Proof.
  rewrite <- point_in_known. destruct (point_in p points); split; congruence.
Qed.

Lemma generate_new_points_fresh (pm : PointManager) (placed : PlacedItem) (p : Point3D) :
  p ∈ generate_new_points pm placed ->
  p ∈ successor_candidates placed
  /\ ~ known p (available_points pm)
  /\ ~ known p (used_points pm)
  /\ ~ known p (blocked_points pm).
Proof.
  unfold generate_new_points. rewrite list_elem_of_filter.
  rewrite !andb_true_iff, !negb_true_iff, !point_in_unknown. tauto.
Qed.


(** ** Collision detector *)

Lemma aabb_collision_overlap (b1 b2 : Bounds) :
  aabb_collision b1 b2 = true <-> overlap b1 b2.
Proof.
  destruct b1 as [min1 max1], b2 as [min2 max2]. unfold aabb_collision, overlap.
  rewrite negb_true_iff, !orb_false_iff, !leb_false, !geb_false. tauto.
Qed.

Lemma aabb_collision_no_overlap (b1 b2 : Bounds) :
  aabb_collision b1 b2 = false <-> ~ overlap b1 b2.
Proof.
  rewrite <- aabb_collision_overlap. destruct (aabb_collision b1 b2); split; congruence.
Qed.

Lemma overlap_sym (b1 b2 : Bounds) : overlap b1 b2 -> overlap b2 b1.
Proof.
  destruct b1 as [min1 max1], b2 as [min2 max2]. unfold overlap. tauto.
Qed.

(** Boxes that touch on a face of some axis do not overlap. *)
Lemma touching_no_overlap (min1 max1 min2 max2 : Point3D) :
  (px max1 == px min2 \/ py max1 == py min2 \/ pz max1 == pz min2)%Q ->
  ~ overlap (min1, max1) (min2, max2).
Proof.
  unfold overlap. intros H (Hx & Hy & Hz). destruct H as [H|[H|H]]; lra.
Qed.

Lemma collides_overlap (placed : list PlacedItem) it pos rot :
  collides placed it pos rot = false
  <-> Forall (fun q => ~ overlap (bounds (mkPlacedItem it pos rot)) (bounds q)) placed.
Proof.
  unfold collides. induction placed as [|q placed IH]; cbn [existsb].
  - split; [constructor|reflexivity].
  - rewrite orb_false_iff, IH, aabb_collision_no_overlap. split.
    + intros [H1 H2]. constructor; assumption.
    + intros H. inversion H; subst. split; assumption.
Qed.

Lemma Qred_eq (a b : Q) : Qred a = Qred b -> (a == b)%Q.
Proof. intros H. rewrite <- (Qred_correct a), <- (Qred_correct b), H. reflexivity. Qed.

(** The scan depends on the candidate only through the parts of its key. *)
Lemma collides_cache_key (placed : list PlacedItem) it pos rot it' pos' rot' :
  cache_key it pos rot = cache_key it' pos' rot' ->
  collides placed it pos rot = collides placed it' pos' rot'.
Proof.
  unfold cache_key. intros [= _ Hx Hy Hz Hl Hw Hh].
  apply Qred_eq in Hx, Hy, Hz, Hl, Hw, Hh.
  unfold collides. induction placed as [|q placed IH]; cbn [existsb]; [reflexivity|].
  rewrite IH. f_equal. apply eq_true_iff_eq. rewrite !aabb_collision_overlap.
  destruct (bounds q) as [qmin qmax]. unfold bounds, overlap; simpl.
  rewrite Hx, Hy, Hz, Hl, Hw, Hh. reflexivity.
Qed.

Lemma check_collision_sound (cd : CollisionDetector) it pos rot :
  cache_sound (cd_placed_items cd) (collision_cache cd) ->
  fst (check_collision cd it pos rot) = collides (cd_placed_items cd) it pos rot
  /\ cd_placed_items (snd (check_collision cd it pos rot)) = cd_placed_items cd
  /\ cache_sound (cd_placed_items cd) (collision_cache (snd (check_collision cd it pos rot))).
Proof.
  intros Hsound. unfold check_collision.
  destruct (collision_cache cd !! cache_key it pos rot) as [cached|] eqn:E; simpl.
  - split; [symmetry; apply Hsound; exact E|]. split; [reflexivity|exact Hsound].
  - split; [reflexivity|]. split; [reflexivity|].
    intros it' pos' rot' b. rewrite lookup_insert. case_decide as Hk.
    + intros [= <-]. apply collides_cache_key. symmetry. exact Hk.
    + apply Hsound.
Qed.

(** ** Placement attempts *)

Lemma recache_id (self : BinPackerV3) :
  recache self (collision_cache (collision_detector self)) = self.
Proof. destruct self as [? ? ? ? [? ?] ? ?]. reflexivity. Qed.

Lemma recache_consistent (self : BinPackerV3) cache :
  consistent self -> cache_sound (placed_items self) cache ->
  consistent (recache self cache).
Proof.
  intros [H1 H2 H3 H4] Hc. constructor; simpl; assumption.
Qed.

Lemma verdict_passes (self : BinPackerV3) it point rot :
  success (verdict self it point rot) = passes self point (it, rot)
  /\ placed_item (verdict self it point rot)
     = if passes self point (it, rot) then Some (mkPlacedItem it point rot) else None.
Proof.
  unfold verdict, passes; simpl.
  destruct (floor_rule it point); simpl; [|split; reflexivity].
  destruct (check_geometric_constraints self it point rot); simpl; [|split; reflexivity].
  destruct (collides (placed_items self) it point rot); simpl; [split; reflexivity|].
  destruct (validate_support (support_validator self) it point rot); simpl;
    [|split; reflexivity].
  destruct (validate_placement (weight_manager self) it point rot); simpl;
    split; reflexivity.
Qed.

(** An attempt answers with the verdict of the five checks and changes at
    most the collision cache, which stays sound. *)
Lemma attempt_placement_verdict (self : BinPackerV3) it point rot :
  consistent self ->
  exists cache,
    snd (attempt_placement self it point rot) = recache self cache
    /\ cache_sound (placed_items self) cache
    /\ fst (attempt_placement self it point rot) = verdict self it point rot.
Proof.
  intros Hc. unfold attempt_placement, verdict, floor_rule.
  destruct (Stackability_eqb (stackability it) UNSTACKABLE && negb (Float.eqb (pz point) 0));
    simpl.
  { exists (collision_cache (collision_detector self)).
    rewrite recache_id. split; [reflexivity|]. split; [apply Hc|reflexivity]. }
  destruct (check_geometric_constraints self it point rot); simpl.
  2:{ exists (collision_cache (collision_detector self)).
      rewrite recache_id. split; [reflexivity|]. split; [apply Hc|reflexivity]. }
  assert (Hsound : cache_sound (cd_placed_items (collision_detector self))
                     (collision_cache (collision_detector self))).
  { rewrite (cd_synced _ Hc). apply Hc. }
  destruct (check_collision_sound (collision_detector self) it point rot Hsound)
    as (Hhit & Hplaced & Hcache).
  destruct (check_collision (collision_detector self) it point rot) as [hit cd] eqn:E.
  simpl in Hhit, Hplaced, Hcache. rewrite (cd_synced _ Hc) in Hhit, Hcache.
  exists (collision_cache cd).
  assert (Hre : with_collision_detector self cd = recache self (collision_cache cd)).
  { unfold recache. rewrite <- Hplaced. destruct cd; reflexivity. }
  rewrite <- Hhit.
  destruct hit; simpl; [split; [exact Hre|split; [exact Hcache|reflexivity]]|].
  destruct (validate_support (support_validator self) it point rot); simpl;
    [|split; [exact Hre|split; [exact Hcache|reflexivity]]].
  destruct (validate_placement (weight_manager self) it point rot); simpl;
    split; try exact Hre; split; try exact Hcache; reflexivity.
Qed.

Lemma try_rotations_find (self : BinPackerV3) it point rotations :
  consistent self ->
  exists cache,
    snd (try_rotations self it point rotations) = recache self cache
    /\ cache_sound (placed_items self) cache
    /\ fst (try_rotations self it point rotations)
       = (fun attempt => mkPlacedItem (fst attempt) point (snd attempt))
           <$> find (passes self point) (map (pair it) rotations).
Proof.
  revert self. induction rotations as [|rot rest IH]; intros self Hc; simpl.
  - exists (collision_cache (collision_detector self)).
    rewrite recache_id. split; [reflexivity|]. split; [apply Hc|reflexivity].
  - destruct (attempt_placement_verdict self it point rot Hc) as (cache & Hs & Hsound & Hv).
    destruct (attempt_placement self it point rot) as [result self1].
    simpl in Hs, Hv. subst result self1.
    destruct (verdict_passes self it point rot) as [Hsucc Hplaced].
    rewrite Hsucc, Hplaced.
    destruct (passes self point (it, rot)) eqn:Hp; simpl.
    + exists cache. split; [reflexivity|]. split; [exact Hsound|reflexivity].
    + destruct (IH (recache self cache) (recache_consistent _ _ Hc Hsound))
        as (cache' & Hs' & Hsound' & Hf).
      exists cache'. split; [exact Hs'|]. split; [exact Hsound'|exact Hf].
Qed.

Lemma find_app {A : Type} (f : A -> bool) (l1 l2 : list A) :
  find f (l1 ++ l2) = match find f l1 with Some x => Some x | None => find f l2 end.
Proof.
  induction l1 as [|a l1 IH]; simpl; [reflexivity|].
  destruct (f a); [reflexivity|exact IH].
Qed.

Lemma attempts_cons (it : Item) (backlog : list Item) :
  attempts (it :: backlog) = map (pair it) (get_rotations it) ++ attempts backlog.
Proof. reflexivity. Qed.

(** The search at a point returns the first attempt, in the order of the
    backlog and of the orientations, that passes the five checks. *)
Lemma try_items_first_passing (self : BinPackerV3) backlog point :
  consistent self ->
  exists cache,
    snd (try_items self backlog point) = recache self cache
    /\ cache_sound (placed_items self) cache
    /\ fst (try_items self backlog point) = first_passing self backlog point.
Proof.
  unfold first_passing.
  revert self. induction backlog as [|it rest IH]; intros self Hc.
  - exists (collision_cache (collision_detector self)).
    rewrite recache_id. split; [reflexivity|]. split; [apply Hc|reflexivity].
  - rewrite attempts_cons, find_app. cbn [try_items].
    destruct (try_rotations_find self it point (get_rotations it) Hc)
      as (cache & Hs & Hsound & Hf).
    destruct (try_rotations self it point (get_rotations it)) as [found self1].
    cbn [fst snd] in Hs, Hf. subst self1 found.
    destruct (find (passes self point) (map (pair it) (get_rotations it))) as [a|];
      cbn [fmap option_fmap option_map fst snd].
    + exists cache. split; [reflexivity|]. split; [exact Hsound|reflexivity].
    + destruct (IH (recache self cache) (recache_consistent _ _ Hc Hsound))
        as (cache' & Hs' & Hsound' & Hf').
      exists cache'. split; [exact Hs'|]. split; [exact Hsound'|exact Hf'].
Qed.

(** ** One turn of the packing loop *)

Lemma Item_eqb_refl (it : Item) : Item_eqb it it = true.
Proof.
  unfold Item_eqb, Float.eqb.
  rewrite !String.eqb_refl, !Bool.eqb_reflx.
  rewrite !(proj2 (Qeq_bool_iff _ _) (Qeq_refl _)).
  destruct (stackability it); reflexivity.
Qed.

Lemma list_remove_elem (it : Item) (backlog : list Item) :
  it ∈ backlog ->
  exists backlog', list_remove it backlog = Some backlog'
                   /\ S (length backlog') = length backlog.
Proof.
  induction backlog as [|y rest IH]; intros Hin.
  - inversion Hin.
  - simpl. destruct (Item_eqb y it) eqn:E.
    + exists rest. split; reflexivity.
    + apply elem_of_cons in Hin as [->|Hin]; [rewrite Item_eqb_refl in E; discriminate|].
      destruct (IH Hin) as (rest' & -> & Hlen). exists (y :: rest'). simpl.
      split; [reflexivity|]. rewrite Hlen. reflexivity.
Qed.

Lemma find_some_elem {A : Type} (f : A -> bool) (l : list A) (a : A) :
  find f l = Some a -> a ∈ l /\ f a = true.
Proof.
  intros H. apply find_some in H as [H1 H2]. split; [|exact H2].
  apply list_elem_of_In. exact H1.
Qed.

Lemma attempts_elem (backlog : list Item) (a : Item * Rotation) :
  a ∈ attempts backlog <-> fst a ∈ backlog /\ snd a ∈ get_rotations (fst a).
Proof.
  unfold attempts. rewrite list_elem_of_bind. split.
  - intros (it & Ha & Hit). apply list_elem_of_bind in Ha as (rot & Ha & Hrot).
    apply list_elem_of_singleton in Ha. subst a. simpl. split; assumption.
  - intros [Hit Hrot]. exists (fst a). split; [|exact Hit].
    apply list_elem_of_bind. exists (snd a). split; [|exact Hrot].
    apply list_elem_of_singleton. destruct a; reflexivity.
Qed.

(** What the first passing attempt is: an item of the backlog in one of its
    two orientations, at the point, passing the five checks. *)
Lemma first_passing_Some (self : BinPackerV3) backlog point placed :
  first_passing self backlog point = Some placed ->
  item placed ∈ backlog
  /\ rotation placed ∈ get_rotations (item placed)
  /\ position placed = point
  /\ passes self point (item placed, rotation placed) = true.
Proof.
  unfold first_passing.
  destruct (find (passes self point) (attempts backlog)) as [a|] eqn:E; [|discriminate].
  intros [= <-]. apply find_some_elem in E as [Hin Hp].
  apply attempts_elem in Hin as [H1 H2]. simpl.
  destruct a as [it rot]. repeat split; assumption.
Qed.

(** A turn of the loop, when the backlog and the frontier are not empty:
    the next point is taken, and either the first passing attempt is
    committed or the point is blocked. *)
Lemma loop_body_turn (h : Heap) (self : BinPackerV3) (backlog : list Item) :
  consistent self ->
  h !! unplaced_items self = Some backlog ->
  backlog <> [] ->
  available_points (point_manager self) <> [] ->
  exists point cache,
    fst (get_next_point (point_manager self)) = Some point
    /\ cache_sound (placed_items self) cache
    /\ let self1 :=
         recache (with_point_manager self (snd (get_next_point (point_manager self))))
                 cache in
       loop_body h self
       = match first_passing self backlog point with
         | Some placed =>
             match list_remove (item placed) backlog with
             | Some backlog' =>
                 Done (Some (<[unplaced_items self := backlog']> h,
                             commit_placement self1 placed point))
             | None => Raise ValueError
             end
         | None => Done (Some (h, handle_failed_placement self1 point))
         end.
Proof.
  intros Hc Hb Hne Hav.
  destruct (fst (get_next_point (point_manager self))) as [point|] eqn:Hpt.
  2:{ apply get_next_point_None in Hpt. contradiction. }
  set (pm1 := snd (get_next_point (point_manager self))).
  assert (Hc1 : consistent (with_point_manager self pm1)).
  { destruct Hc. constructor; assumption. }
  destruct (try_items_first_passing (with_point_manager self pm1) backlog point Hc1)
    as (cache & Hs & Hsound & Hf).
  exists point, cache. split; [reflexivity|]. split; [exact Hsound|].
  unfold loop_body, read. rewrite Hb. cbn [mbind outcome_bind].
  destruct (available_points (point_manager self)) as [|a0 av] eqn:Eav; [contradiction|].
  destruct backlog as [|b0 bl] eqn:Ebl; [contradiction|]. rewrite <- Ebl in *.
  destruct (get_next_point (point_manager self)) as [cp pm] eqn:Egn.
  simpl in Hpt. subst cp. subst pm1. cbn [snd] in *.
  unfold try_place_item_at_point, read. cbn [unplaced_items with_point_manager].
  rewrite Hb. cbn [mbind outcome_bind mret outcome_ret].
  destruct (try_items (with_point_manager self pm) backlog point) as [found self2].
  cbn [fst snd] in Hs, Hf. subst self2 found.
  change (first_passing (with_point_manager self pm) backlog point)
    with (first_passing self backlog point).
  destruct (first_passing self backlog point) as [placed|]; [|reflexivity].
  unfold handle_successful_placement, read. cbn [unplaced_items recache with_collision_detector with_point_manager].
  rewrite Hb. cbn [mbind outcome_bind mret outcome_ret].
  destruct (list_remove (item placed) backlog); reflexivity.
Qed.

Lemma loop_body_exit (h : Heap) (self : BinPackerV3) (backlog : list Item) :
  h !! unplaced_items self = Some backlog ->
  backlog = [] \/ available_points (point_manager self) = [] ->
  loop_body h self = Done None.
Proof.
  intros Hb Hempty. unfold loop_body, read. rewrite Hb. cbn [mbind outcome_bind].
  destruct Hempty as [-> | ->]; [|reflexivity].
  destruct (available_points (point_manager self)); reflexivity.
Qed.

Lemma loop_body_inv (h : Heap) (self : BinPackerV3) (h' : Heap) (self' : BinPackerV3) :
  consistent self ->
  loop_body h self = Done (Some (h', self')) ->
  exists backlog point cache,
    h !! unplaced_items self = Some backlog
    /\ fst (get_next_point (point_manager self)) = Some point
    /\ cache_sound (placed_items self) cache
    /\ let self1 :=
         recache (with_point_manager self (snd (get_next_point (point_manager self))))
                 cache in
       (exists placed backlog',
           first_passing self backlog point = Some placed
           /\ list_remove (item placed) backlog = Some backlog'
           /\ h' = <[unplaced_items self := backlog']> h
           /\ self' = commit_placement self1 placed point)
       \/ (first_passing self backlog point = None
           /\ h' = h
           /\ self' = handle_failed_placement self1 point).
Proof.
  intros Hc Hturn.
  destruct (h !! unplaced_items self) as [backlog|] eqn:Hb.
  2:{ unfold loop_body, read in Hturn. rewrite Hb in Hturn. discriminate. }
  destruct (decide (backlog = [])) as [->|Hne].
  { rewrite (loop_body_exit h self [] Hb) in Hturn by (left; reflexivity). discriminate. }
  destruct (decide (available_points (point_manager self) = [])) as [Hav|Hav].
  { rewrite (loop_body_exit h self backlog Hb) in Hturn by (right; exact Hav).
    discriminate. }
  destruct (loop_body_turn h self backlog Hc Hb Hne Hav) as (point & cache & Hpt & Hs & E).
  exists backlog, point, cache. split; [reflexivity|]. split; [exact Hpt|].
  split; [exact Hs|]. cbv zeta in E |- *. rewrite E in Hturn. clear E.
  destruct (first_passing self backlog point) as [placed|].
  - left. destruct (list_remove (item placed) backlog) as [backlog'|] eqn:Hrm;
      [|discriminate].
    injection Hturn as <- <-. exists placed, backlog'.
    split; [reflexivity|]. split; [exact Hrm|]. split; reflexivity.
  - right. injection Hturn as <- <-. repeat split; reflexivity.
Qed.

Lemma begin_packing_inv (h : Heap) (self : BinPackerV3) (items : loc) h' self' :
  begin_packing h self items = Done (h', self') ->
  exists input,
    h !! items = Some input
    /\ h' = (h ++ [sort_items_by_priority input]) ++ [sort_items_by_priority input]
    /\ self' = with_unplaced_items self (S (length h)).
Proof.
  unfold begin_packing, read, alloc.
  destruct (h !! items) as [input|]; [|discriminate]. cbn [mbind outcome_bind].
  rewrite lookup_app_r by reflexivity. rewrite Nat.sub_diag. cbn [lookup list_lookup].
  cbn [mbind outcome_bind mret outcome_ret]. intros [= <- <-].
  exists input. split; [reflexivity|]. split; [reflexivity|].
  rewrite length_app. simpl. rewrite Nat.add_1_r. reflexivity.
Qed.

(** ** Invariants of a packer *)

Lemma consistent_commit (self : BinPackerV3) placed point :
  consistent self -> consistent (commit_placement self placed point).
Proof.
  intros [H1 H2 H3 H4]. constructor; simpl.
  - rewrite H1. reflexivity.
  - rewrite H2. reflexivity.
  - rewrite H3. reflexivity.
  - intros it pos rot b Hb. rewrite lookup_empty in Hb. discriminate.
Qed.

Lemma consistent_failed (self : BinPackerV3) point :
  consistent self -> consistent (handle_failed_placement self point).
Proof. intros [H1 H2 H3 H4]. constructor; assumption. Qed.

Lemma consistent_with_point_manager (self : BinPackerV3) pm :
  consistent self -> consistent (with_point_manager self pm).
Proof. intros [H1 H2 H3 H4]. constructor; assumption. Qed.

Lemma packer_state_consistent (h : Heap) (self : BinPackerV3) :
  packer_state h self -> consistent self.
Proof.
  induction 1 as [h l w hh|h self items h' self' _ IH Hb|h self h' self' _ IH Hturn].
  - constructor; simpl; try reflexivity.
    intros it pos rot b Hb. rewrite lookup_empty in Hb. discriminate.
  - apply begin_packing_inv in Hb as (input & _ & _ & ->).
    destruct IH. constructor; assumption.
  - destruct (loop_body_inv _ _ _ _ IH Hturn)
      as (backlog & point & cache & _ & _ & Hs & Hcase).
    cbv zeta in Hcase.
    assert (Hc1 : consistent
                    (recache (with_point_manager self
                                (snd (get_next_point (point_manager self)))) cache)).
    { apply recache_consistent; [apply consistent_with_point_manager; exact IH|exact Hs]. }
    destruct Hcase as [(placed & backlog' & _ & _ & _ & ->)|(_ & _ & ->)].
    + apply consistent_commit. exact Hc1.
    + apply consistent_failed. exact Hc1.
Qed.

Lemma pack_loop_inv (fuel : nat) (h : Heap) (self : BinPackerV3) h' self' :
  pack_loop (S fuel) h self = Done (h', self') ->
  (loop_body h self = Done None /\ h' = h /\ self' = self)
  \/ (exists h1 self1, loop_body h self = Done (Some (h1, self1))
                       /\ pack_loop fuel h1 self1 = Done (h', self')).
Proof.
  cbn [pack_loop]. destruct (loop_body h self) as [[[h1 self1]|]| |];
    cbn [mbind outcome_bind mret outcome_ret]; try discriminate.
  - intros H. right. exists h1, self1. split; [reflexivity|exact H].
  - intros [= <- <-]. left. repeat split; reflexivity.
Qed.

Lemma pack_loop_state (fuel : nat) (h : Heap) (self : BinPackerV3) h' self' :
  packer_state h self ->
  pack_loop fuel h self = Done (h', self') ->
  packer_state h' self'.
Proof.
  revert h self. induction fuel as [|fuel IH]; intros h self Hst Hrun; [discriminate|].
  apply pack_loop_inv in Hrun as [(_ & -> & ->)|(h1 & self1 & Hturn & Hrun)].
  - exact Hst.
  - apply (IH h1 self1); [|exact Hrun]. exact (state_turn _ _ _ _ Hst Hturn).
Qed.

Lemma pack_items_inv (fuel : nat) (h : Heap) (self : BinPackerV3) (items : loc)
  h' self' report :
  pack_items fuel h self items = Done (h', self', report) ->
  exists h1 self1,
    begin_packing h self items = Done (h1, self1)
    /\ pack_loop fuel h1 self1 = Done (h', self')
    /\ generate_packing_result h' self' = Done report.
Proof.
  unfold pack_items.
  destruct (begin_packing h self items) as [[h1 self1]| |];
    cbn [mbind outcome_bind]; try discriminate.
  destruct (pack_loop fuel h1 self1) as [[h2 self2]| |] eqn:Hl;
    cbn [mbind outcome_bind]; try discriminate.
  destruct (generate_packing_result h2 self2) as [r| |] eqn:Hr;
    cbn [mbind outcome_bind mret outcome_ret]; try discriminate.
  intros [= <- <- <-]. exists h1, self1.
  split; [reflexivity|]. split; [exact Hl|exact Hr].
Qed.

Lemma pack_items_state (fuel : nat) (h : Heap) (self : BinPackerV3) (items : loc)
  h' self' report :
  packer_state h self ->
  pack_items fuel h self items = Done (h', self', report) ->
  packer_state h' self'.
Proof.
  intros Hst Hrun. apply pack_items_inv in Hrun as (h1 & self1 & Hb & Hl & _).
  eapply pack_loop_state; [|exact Hl]. exact (state_entered _ _ _ _ _ Hst Hb).
Qed.

Lemma pack_fresh_state (fuel : nat) (h : Heap) (l w hh : Q) (items : loc)
  h' self' report :
  pack_fresh fuel h l w hh items = Done (h', self', report) ->
  packer_state h' self'.
Proof.
  unfold pack_fresh.
  assert (Hst := state_created h l w hh).
  destruct (BinPackerV3_init h l w hh) as [h0 self0]. simpl in Hst.
  apply pack_items_state. exact Hst.
Qed.

Lemma passes_inv (self : BinPackerV3) point it rot :
  passes self point (it, rot) = true ->
  floor_rule it point = true
  /\ check_geometric_constraints self it point rot = true
  /\ collides (placed_items self) it point rot = false
  /\ validate_support (support_validator self) it point rot = true
  /\ validate_placement (weight_manager self) it point rot = true.
Proof.
  unfold passes. cbn [fst snd]. rewrite !andb_true_iff, negb_true_iff. tauto.
Qed.

Lemma collision_free_snoc (placed : list PlacedItem) (p : PlacedItem) :
  collision_free placed ->
  Forall (fun q => ~ overlap (bounds p) (bounds q)) placed ->
  collision_free (placed ++ [p]).
Proof.
  intros Hfree Hp i j a b Hij Ha Hb.
  rewrite Forall_lookup in Hp.
  destruct (decide (i < length placed)%nat) as [Hi|Hi];
    destruct (decide (j < length placed)%nat) as [Hj|Hj].
  - rewrite lookup_app_l in Ha, Hb by assumption. exact (Hfree i j a b Hij Ha Hb).
  - rewrite lookup_app_l in Ha by assumption.
    rewrite lookup_app_r in Hb by lia.
    destruct (j - length placed)%nat; [|destruct n; discriminate].
    injection Hb as <-. intros Ho. apply overlap_sym in Ho. exact (Hp i a Ha Ho).
  - rewrite lookup_app_l in Hb by assumption.
    rewrite lookup_app_r in Ha by lia.
    destruct (i - length placed)%nat; [|destruct n; discriminate].
    injection Ha as <-. exact (Hp j b Hb).
  - exfalso. apply lookup_lt_Some in Ha, Hb. rewrite length_app in Ha, Hb.
    simpl in Ha, Hb. lia.
Qed.

Lemma check_geometric_within (self : BinPackerV3) it point rot :
  check_geometric_constraints self it point rot = true
  <-> within_truck (truck_dimensions self) (mkPlacedItem it point rot).
Proof.
  unfold check_geometric_constraints, within_truck, bounds.
  destruct (truck_dimensions self) as [[tl tw] th]. destruct rot as [[l w] hh].
  cbn [position rotation rot_l rot_w rot_h fst snd px py pz].
  match goal with |- (if ?c then false else true) = true <-> _ =>
    destruct c eqn:E end.
  - split; [discriminate|]. intros [(H1 & H2 & H3) (H4 & H5 & H6)].
    rewrite !orb_true_iff, !gtb_true, !ltb_true in E. lra.
  - split; [intros _|reflexivity].
    rewrite !orb_false_iff, !gtb_false, !ltb_false in E. tauto.
Qed.

(** What the packer keeps true of its placements. *)
Lemma packer_state_placements (h : Heap) (self : BinPackerV3) :
  packer_state h self ->
  collision_free (placed_items self)
  /\ Forall (within_truck (truck_dimensions self)) (placed_items self).
Proof.
  intros Hst. induction Hst as [h l w hh|h self items h' self' Hst IH Hb
                               |h self h' self' Hst IH Hturn].
  - simpl. split; [|constructor]. intros i j p q _ Hp. discriminate.
  - apply begin_packing_inv in Hb as (input & _ & _ & ->). exact IH.
  - apply packer_state_consistent in Hst.
    destruct (loop_body_inv _ _ _ _ Hst Hturn)
      as (backlog & point & cache & _ & _ & _ & Hcase).
    cbv zeta in Hcase. destruct IH as [Hfree Hin].
    destruct Hcase as [(placed & backlog' & Hfp & _ & _ & ->)|(_ & _ & ->)];
      [|split; assumption].
    apply first_passing_Some in Hfp as (_ & _ & Hpos & Hp).
    apply passes_inv in Hp as (_ & Hgeo & Hcol & _ & _).
    assert (Hplaced : mkPlacedItem (item placed) point (rotation placed) = placed)
      by (destruct placed; simpl in Hpos; subst; reflexivity).
    simpl. split.
    + apply collision_free_snoc; [exact Hfree|].
      apply collides_overlap in Hcol. rewrite Hplaced in Hcol. exact Hcol.
    + apply Forall_app. split; [exact Hin|]. constructor; [|constructor].
      apply check_geometric_within in Hgeo. rewrite Hplaced in Hgeo. exact Hgeo.
Qed.

(** C1.  In every state of a packer no two distinct placements overlap,
    where two boxes overlap when their extents overlap on all three axes;
    this is the test of the collision checker, and boxes whose faces touch
    (the maximum of one equal to the minimum of the other on an axis) do not
    collide, so flush placements pass the check. *)
Theorem collision_invariant :
  (forall (h : Heap) (self : BinPackerV3),
      packer_state h self -> collision_free (placed_items self))
  /\ (forall b1 b2 : Bounds, aabb_collision b1 b2 = true <-> overlap b1 b2)
  /\ (forall min1 max1 min2 max2 : Point3D,
        (px max1 == px min2 \/ py max1 == py min2 \/ pz max1 == pz min2)%Q ->
        aabb_collision (min1, max1) (min2, max2) = false).
Proof.
  split; [|split].
  - intros h self Hst. apply (packer_state_placements h self Hst).
  - apply aabb_collision_overlap.
  - intros min1 max1 min2 max2 H. apply aabb_collision_no_overlap.
    apply touching_no_overlap. exact H.
Qed.

Lemma collision_invariant_witness :
  exists h self report,
    demo_run = Done (h, self, report)
    /\ length (placed_items self) = 2%nat
    /\ collision_free (placed_items self).
Proof.
  destruct demo_run as [[[h self] report]| |] eqn:E;
    [|vm_compute in E; discriminate..].
  exists h, self, report. split; [reflexivity|].
  assert (Hst := pack_fresh_state _ _ _ _ _ _ _ _ _ E).
  split; [|exact (proj1 collision_invariant h self Hst)].
  vm_compute in E. injection E as <- <- <-. reflexivity.
Defined.


(** C8.  In every state of a packer every placement lies within the
    container: its minimum corner is at least 0 and its maximum corner
    (origin plus orientation) at most the container dimensions, on every
    axis. *)
Theorem bounds_invariant :
  forall (h : Heap) (self : BinPackerV3),
    packer_state h self ->
    Forall (within_truck (truck_dimensions self)) (placed_items self).
Proof.
  intros h self Hst. apply (packer_state_placements h self Hst).
Qed.

Lemma bounds_invariant_witness :
  exists h self report,
    demo_run = Done (h, self, report)
    /\ length (placed_items self) = 2%nat
    /\ Forall (within_truck (truck_dimensions self)) (placed_items self).
Proof.
  destruct demo_run as [[[h self] report]| |] eqn:E;
    [|vm_compute in E; discriminate..].
  exists h, self, report. split; [reflexivity|].
  assert (Hst := pack_fresh_state _ _ _ _ _ _ _ _ _ E).
  split; [|exact (bounds_invariant h self Hst)].
  vm_compute in E. injection E as <- <- <-. reflexivity.
Defined.


(** ** Termination *)

Lemma Point3D_eqb_refl (p : Point3D) : Point3D_eqb p p = true.
Proof. apply Point3D_eqb_same_point, same_point_refl. Qed.

Lemma point_in_elem (p : Point3D) (points : list Point3D) :
  p ∈ points -> point_in p points = true.
Proof.
  intros H. apply point_in_known, Exists_exists. exists p.
  split; [exact H|apply same_point_refl].
Qed.

Lemma point_remove_length (p : Point3D) (points : list Point3D) :
  point_in p points = true ->
  S (length (point_remove p points)) = length points.
Proof.
  induction points as [|q rest IH]; simpl; [discriminate|].
  rewrite (Point3D_eqb_sym_bool p q).
  destruct (Point3D_eqb q p); simpl; [reflexivity|].
  intros H. rewrite IH by exact H. reflexivity.
Qed.

Lemma add_point_length (pm : PointManager) (p : Point3D) (priority : Z) :
  (length (available_points (add_point pm p priority))
   <= S (length (available_points pm)))%nat.
Proof.
  unfold add_point.
  destruct (negb (point_in p (available_points pm)) && negb (point_in p (used_points pm)));
    simpl; [rewrite length_app; simpl; lia|lia].
Qed.

Lemma add_points_from_length (pm : PointManager) (i : Z) (new_points : list Point3D) :
  (length (available_points (add_points_from pm i new_points))
   <= length (available_points pm) + length new_points)%nat.
Proof.
  revert pm i. induction new_points as [|p rest IH]; intros pm i; simpl; [lia|].
  specialize (IH (add_point pm p (i + 1)) (i + 1)).
  assert (H := add_point_length pm p (i + 1)). lia.
Qed.

Lemma generate_new_points_length (pm : PointManager) (placed : PlacedItem) :
  (length (generate_new_points pm placed) <= 3)%nat.
Proof.
  unfold generate_new_points.
  etransitivity; [apply length_filter|].
  unfold successor_candidates. destruct (rotation placed) as [[l w] hh].
  destruct (Stackability_eqb (stackability (item placed)) STACKABLE); simpl; lia.
Qed.

Lemma get_next_point_elem (pm : PointManager) (p : Point3D) :
  fst (get_next_point pm) = Some p ->
  p ∈ available_points (snd (get_next_point pm)).
Proof.
  rewrite get_next_point_head, get_next_point_available.
  destruct (sort_by_key (scan_key pm) ScanKey_ltb (available_points pm));
    simpl; [discriminate|].
  intros [= ->]. apply list_elem_of_here.
Qed.

Lemma get_next_point_length (pm : PointManager) :
  length (available_points (snd (get_next_point pm))) = length (available_points pm).
Proof. rewrite get_next_point_available. apply sort_by_key_length. Qed.

(** A turn never raises, and when the loop goes on it leaves the backlog at
    its location with a strictly smaller budget. *)
Lemma loop_body_progress (h : Heap) (self : BinPackerV3) (backlog : list Item) :
  consistent self ->
  h !! unplaced_items self = Some backlog ->
  loop_body h self = Done None
  \/ exists h' self' backlog',
       loop_body h self = Done (Some (h', self'))
       /\ h' !! unplaced_items self' = Some backlog'
       /\ (budget backlog' self' < budget backlog self)%nat.
Proof.
  intros Hc Hb.
  destruct (decide (backlog = [])) as [->|Hne].
  { left. apply (loop_body_exit h self [] Hb). left. reflexivity. }
  destruct (decide (available_points (point_manager self) = [])) as [Hav|Hav].
  { left. apply (loop_body_exit h self backlog Hb). right. exact Hav. }
  right.
  destruct (loop_body_turn h self backlog Hc Hb Hne Hav) as (point & cache & Hpt & _ & E).
  cbv zeta in E. rewrite E. clear E.
  assert (Hin := get_next_point_elem _ _ Hpt). apply point_in_elem in Hin.
  assert (Hlen := get_next_point_length (point_manager self)).
  assert (Hrm := point_remove_length _ _ Hin).
  destruct (first_passing self backlog point) as [placed|] eqn:Hfp.
  - apply first_passing_Some in Hfp as (Helem & _).
    destruct (list_remove_elem _ _ Helem) as (backlog' & -> & Hlen').
    eexists _, _, backlog'. split; [reflexivity|]. split.
    + cbn [commit_placement unplaced_items recache with_collision_detector
             with_point_manager].
      apply list_lookup_insert_eq. apply lookup_lt_Some in Hb. exact Hb.
    + unfold budget.
      cbn [commit_placement point_manager recache with_collision_detector
             with_point_manager].
      set (pm := mark_point_used _ point).
      assert (H1 := add_points_from_length pm 0 (generate_new_points pm placed)).
      assert (H2 := generate_new_points_length pm placed).
      assert (H3 : S (length (available_points pm))
                   = length (available_points (point_manager self))).
      { subst pm. unfold mark_point_used. cbn [available_points]. rewrite Hin. lia. }
      lia.
  - eexists _, _, backlog. split; [reflexivity|]. split; [exact Hb|].
    unfold budget, handle_failed_placement, mark_point_blocked.
    cbn [point_manager recache with_collision_detector with_point_manager
           available_points].
    rewrite Hin. lia.
Qed.

Lemma pack_loop_terminates (fuel : nat) (h : Heap) (self : BinPackerV3)
  (backlog : list Item) :
  packer_state h self ->
  h !! unplaced_items self = Some backlog ->
  (budget backlog self < fuel)%nat ->
  exists h' self' backlog',
    pack_loop fuel h self = Done (h', self')
    /\ h' !! unplaced_items self' = Some backlog'.
Proof.
  revert h self backlog.
  induction fuel as [|fuel IH]; intros h self backlog Hst Hb Hfuel; [lia|].
  cbn [pack_loop].
  destruct (loop_body_progress h self backlog (packer_state_consistent _ _ Hst) Hb)
    as [Hexit|(h1 & self1 & backlog1 & Hturn & Hb1 & Hless)].
  - rewrite Hexit. exists h, self, backlog. split; [reflexivity|exact Hb].
  - rewrite Hturn. cbn [mbind outcome_bind].
    apply (IH h1 self1 backlog1); [|exact Hb1|lia].
    exact (state_turn _ _ _ _ Hst Hturn).
Qed.

Lemma begin_packing_Done (h : Heap) (self : BinPackerV3) (items : loc)
  (input : list Item) :
  h !! items = Some input ->
  begin_packing h self items
  = Done ((h ++ [sort_items_by_priority input]) ++ [sort_items_by_priority input],
          with_unplaced_items self (S (length h))).
Proof.
  intros Hin. unfold begin_packing, read, alloc. rewrite Hin.
  cbn [mbind outcome_bind].
  rewrite lookup_app_r by reflexivity. rewrite Nat.sub_diag. cbn [lookup list_lookup].
  cbn [mbind outcome_bind mret outcome_ret].
  rewrite length_app. simpl. rewrite Nat.add_1_r. reflexivity.
Qed.

Lemma begin_packing_backlog (h : Heap) (self : BinPackerV3) (input : list Item) :
  ((h ++ [sort_items_by_priority input]) ++ [sort_items_by_priority input])
    !! unplaced_items (with_unplaced_items self (S (length h)))
  = Some (sort_items_by_priority input).
Proof.
  cbn [unplaced_items with_unplaced_items].
  rewrite lookup_app_r by (rewrite length_app; simpl; lia).
  rewrite length_app. simpl.
  replace (S (length h) - (length h + 1))%nat with 0%nat by lia. reflexivity.
Qed.

Lemma generate_packing_result_Done (h : Heap) (self : BinPackerV3)
  (backlog : list Item) :
  h !! unplaced_items self = Some backlog ->
  exists report, generate_packing_result h self = Done report
                 /\ report_success report = true.
Proof.
  intros Hb. unfold generate_packing_result, read. rewrite Hb.
  cbn [mbind outcome_bind]. destruct (truck_dimensions self) as [[tl tw] th].
  eexists. split; reflexivity.
Qed.

Lemma pack_items_Done (h : Heap) (self : BinPackerV3) (items : loc)
  (input : list Item) (fuel : nat) :
  packer_state h self ->
  h !! items = Some input ->
  (3 * length input + length (available_points (point_manager self)) < fuel)%nat ->
  exists h' self' report,
    pack_items fuel h self items = Done (h', self', report)
    /\ report_success report = true.
Proof.
  intros Hst Hin Hfuel.
  assert (Hb := begin_packing_Done h self items input Hin).
  assert (Hst1 := state_entered _ _ _ _ _ Hst Hb).
  assert (Hbl := begin_packing_backlog h self input).
  destruct (pack_loop_terminates fuel _ _ _ Hst1 Hbl) as (h' & self' & backlog' & Hl & Hb').
  { unfold budget, sort_items_by_priority. rewrite sort_by_key_length.
    cbn [point_manager with_unplaced_items]. exact Hfuel. }
  destruct (generate_packing_result_Done h' self' backlog' Hb') as (report & Hr & Hs).
  exists h', self', report. split; [|exact Hs].
  unfold pack_items. rewrite Hb. cbn [mbind outcome_bind].
  rewrite Hl. cbn [mbind outcome_bind]. rewrite Hr. reflexivity.
Qed.

Lemma pack_fresh_Done (h : Heap) (l w hh : Q) (items : loc) (input : list Item)
  (fuel : nat) :
  h !! items = Some input ->
  (3 * length input + 1 < fuel)%nat ->
  exists h' self' report,
    pack_fresh fuel h l w hh items = Done (h', self', report)
    /\ report_success report = true.
Proof.
  intros Hin Hfuel. unfold pack_fresh.
  assert (Hst := state_created h l w hh).
  unfold BinPackerV3_init, alloc in *. cbn [fst snd] in Hst.
  apply (pack_items_Done _ _ items input); [exact Hst| |simpl; lia].
  apply lookup_app_l_Some. exact Hin.
Qed.

(** C5.  [pack_items] terminates with a report and raises nothing.  For
    every container and every item list, a packer just created returns its
    report within [3 * n + 2] turns of the loop, [n] the number of items; on
    a packer in any of its states, three times the number of items plus the
    number of open points bounds the number of turns.  The report says
    success. *)
Theorem pack_items_terminates :
  (forall (h : Heap) (truck_length truck_width truck_height : Q) (items : loc)
          (input : list Item),
      h !! items = Some input ->
      exists h' self' report,
        pack_fresh (3 * length input + 2) h truck_length truck_width truck_height items
        = Done (h', self', report)
        /\ report_success report = true)
  /\ (forall (h : Heap) (self : BinPackerV3) (items : loc) (input : list Item)
             (fuel : nat),
        packer_state h self ->
        h !! items = Some input ->
        (3 * length input + length (available_points (point_manager self)) < fuel)%nat ->
        exists h' self' report,
          pack_items fuel h self items = Done (h', self', report)
          /\ report_success report = true).
Proof.
  split.
  - intros h l w hh items input Hin.
    apply (pack_fresh_Done h l w hh items input); [exact Hin|lia].
  - intros h self items input fuel. apply pack_items_Done.
Qed.

Lemma pack_items_terminates_witness :
  exists h self report,
    pack_fresh (3 * length demo_items + 2) [demo_items] 10 (25 # 10) (25 # 10) 0
    = Done (h, self, report)
    /\ report_success report = true.
Proof.
  apply (proj1 pack_items_terminates [demo_items] 10%Q (25 # 10) (25 # 10) 0%nat
           demo_items).
  reflexivity.
Defined.


(** ** The input list is left alone *)

(** A turn writes the heap at the backlog of the packer and nowhere else,
    and the packer keeps its backlog location. *)
Lemma loop_body_frame (h : Heap) (self : BinPackerV3) h' self' :
  consistent self ->
  loop_body h self = Done (Some (h', self')) ->
  unplaced_items self' = unplaced_items self
  /\ forall l, l <> unplaced_items self -> h' !! l = h !! l.
Proof.
  intros Hc Hturn.
  destruct (loop_body_inv _ _ _ _ Hc Hturn)
    as (backlog & point & cache & _ & _ & _ & Hcase).
  cbv zeta in Hcase.
  destruct Hcase as [(placed & backlog' & _ & _ & -> & ->)|(_ & -> & ->)].
  - split; [reflexivity|]. intros l Hl. apply list_lookup_insert_ne. congruence.
  - split; [reflexivity|]. intros l _. reflexivity.
Qed.

Lemma pack_loop_frame (fuel : nat) (h : Heap) (self : BinPackerV3) h' self' :
  packer_state h self ->
  pack_loop fuel h self = Done (h', self') ->
  unplaced_items self' = unplaced_items self
  /\ forall l, l <> unplaced_items self -> h' !! l = h !! l.
Proof.
  revert h self. induction fuel as [|fuel IH]; intros h self Hst Hrun; [discriminate|].
  apply pack_loop_inv in Hrun as [(_ & -> & ->)|(h1 & self1 & Hturn & Hrun)].
  - split; [reflexivity|]. intros l _. reflexivity.
  - destruct (loop_body_frame _ _ _ _ (packer_state_consistent _ _ Hst) Hturn)
      as [Hloc Hframe].
    destruct (IH h1 self1 (state_turn _ _ _ _ Hst Hturn) Hrun) as [Hloc' Hframe'].
    split; [congruence|]. intros l Hl.
    rewrite Hframe' by congruence. apply Hframe. exact Hl.
Qed.

(** C10.  [pack_items] does not mutate its input: after the call every
    list the heap held before it, the caller's item list among them, has the
    same elements in the same order; the packer's backlog is a list of its
    own, allocated by the call, whose initial content is the input sorted by
    priority (a permutation of the input). *)
Theorem pack_items_frame :
  forall (fuel : nat) (h : Heap) (self : BinPackerV3) (items : loc)
         (input : list Item) h' self' report,
    packer_state h self ->
    h !! items = Some input ->
    pack_items fuel h self items = Done (h', self', report) ->
    h' !! items = Some input
    /\ (forall l xs, h !! l = Some xs -> h' !! l = Some xs)
    /\ (length h <= unplaced_items self')%nat
    /\ exists h1 self1,
         begin_packing h self items = Done (h1, self1)
         /\ unplaced_items self1 = unplaced_items self'
         /\ h1 !! unplaced_items self1 = Some (sort_items_by_priority input)
         /\ sort_items_by_priority input ≡ₚ input.
Proof.
  intros fuel h self items input h' self' report Hst Hin Hrun.
  apply pack_items_inv in Hrun as (h1 & self1 & Hb & Hl & _).
  assert (Hst1 := state_entered _ _ _ _ _ Hst Hb).
  rewrite (begin_packing_Done h self items input Hin) in Hb.
  injection Hb as <- <-.
  destruct (pack_loop_frame _ _ _ _ _ Hst1 Hl) as [Hloc Hframe].
  cbn [unplaced_items with_unplaced_items] in Hloc, Hframe.
  assert (Hold : forall l xs, h !! l = Some xs -> h' !! l = Some xs).
  { intros l xs Hlx. assert (Hlt := lookup_lt_Some _ _ _ Hlx).
    rewrite Hframe by lia. rewrite <- app_assoc.
    apply lookup_app_l_Some. exact Hlx. }
  split; [apply Hold; exact Hin|]. split; [exact Hold|]. split; [lia|].
  eexists _, _. split; [apply begin_packing_Done; exact Hin|].
  split; [symmetry; exact Hloc|]. split; [apply begin_packing_backlog|].
  apply sort_by_key_Permutation.
Qed.

Lemma pack_items_frame_witness :
  exists h self report,
    demo_run = Done (h, self, report)
    /\ h !! 0%nat = Some demo_items
    /\ (report_unplaced_items report = [] /\ 0 < unplaced_items self)%nat.
Proof.
  destruct demo_run as [[[h self] report]| |] eqn:E;
    [|vm_compute in E; discriminate..].
  exists h, self, report. split; [reflexivity|].
  unfold demo_run, pack_fresh, BinPackerV3_init, alloc in E.
  assert (Hst := state_created [demo_items] 10 (25 # 10) (25 # 10)).
  unfold BinPackerV3_init, alloc in Hst. cbn [fst snd] in Hst.
  split.
  - exact (proj1 (pack_items_frame 8 _ _ 0%nat demo_items _ _ _ Hst eq_refl E)).
  - vm_compute in E. injection E as <- <- <-. split; [reflexivity|]. simpl. lia.
Defined.

(** ** The report depends on the container and the items only *)

(** Destructs the conditions of the conditionals in the goal, one after the
    other. *)
Ltac case_if :=
  repeat match goal with
  | |- context [if ?c then _ else _] => destruct c eqn:?
  end.

Lemma attempt_placement_loc (self : BinPackerV3) (l : loc) it point rot :
  attempt_placement (with_unplaced_items self l) it point rot
  = (fst (attempt_placement self it point rot),
     with_unplaced_items (snd (attempt_placement self it point rot)) l).
Proof.
  unfold attempt_placement.
  change (check_geometric_constraints (with_unplaced_items self l) it point rot)
    with (check_geometric_constraints self it point rot).
  cbn [with_unplaced_items collision_detector support_validator weight_manager].
  destruct (check_collision (collision_detector self) it point rot) as [hit cd].
  cbn [with_collision_detector with_unplaced_items support_validator weight_manager
         truck_dimensions placed_items unplaced_items point_manager
         collision_detector fst snd].
  case_if; reflexivity.
Qed.

Lemma try_rotations_loc (self : BinPackerV3) (l : loc) it point rotations :
  try_rotations (with_unplaced_items self l) it point rotations
  = (fst (try_rotations self it point rotations),
     with_unplaced_items (snd (try_rotations self it point rotations)) l).
Proof.
  revert self. induction rotations as [|rot rest IH]; intros self; [reflexivity|].
  cbn [try_rotations]. rewrite attempt_placement_loc.
  destruct (attempt_placement self it point rot) as [result self1]. cbn [fst snd].
  destruct (success result); [reflexivity|apply IH].
Qed.

Lemma try_items_loc (self : BinPackerV3) (l : loc) backlog point :
  try_items (with_unplaced_items self l) backlog point
  = (fst (try_items self backlog point),
     with_unplaced_items (snd (try_items self backlog point)) l).
Proof.
  revert self. induction backlog as [|it rest IH]; intros self; [reflexivity|].
  cbn [try_items]. rewrite try_rotations_loc.
  destruct (try_rotations self it point (get_rotations it)) as [[placed|] self1];
    cbn [fst snd]; [reflexivity|apply IH].
Qed.

Lemma with_unplaced_items_id (self : BinPackerV3) :
  with_unplaced_items self (unplaced_items self) = self.
Proof. destruct self; reflexivity. Qed.

Lemma try_items_unplaced (self : BinPackerV3) backlog point :
  unplaced_items (snd (try_items self backlog point)) = unplaced_items self.
Proof.
  assert (H := try_items_loc self (unplaced_items self) backlog point).
  rewrite with_unplaced_items_id in H.
  destruct (try_items self backlog point) as [found self1].
  cbn [fst snd] in *. injection H as H. rewrite H at 1. reflexivity.
Qed.

(** A turn on the same backlog at another location of another heap does the
    same to the packer and to the backlog. *)
Lemma loop_body_loc (h1 h2 : Heap) (self : BinPackerV3) (l2 : loc) (backlog : list Item) :
  h1 !! unplaced_items self = Some backlog ->
  h2 !! l2 = Some backlog ->
  match loop_body h1 self with
  | Done None => loop_body h2 (with_unplaced_items self l2) = Done None
  | Done (Some (h1', self')) =>
      exists h2' backlog',
        loop_body h2 (with_unplaced_items self l2)
        = Done (Some (h2', with_unplaced_items self' l2))
        /\ h1' !! unplaced_items self' = Some backlog'
        /\ h2' !! l2 = Some backlog'
  | Raise e => loop_body h2 (with_unplaced_items self l2) = Raise e
  | OutOfFuel => False
  end.
Proof.
  intros H1 H2. unfold loop_body, read.
  cbn [unplaced_items with_unplaced_items point_manager]. rewrite H1, H2.
  cbn [mbind outcome_bind mret outcome_ret].
  destruct (available_points (point_manager self)) as [|a0 av]; [reflexivity|].
  destruct backlog as [|b0 bl] eqn:Eb; [reflexivity|]. rewrite <- Eb in *. clear Eb.
  destruct (get_next_point (point_manager self)) as [[point|] pm]; [|reflexivity].
  unfold try_place_item_at_point, read.
  cbn [unplaced_items with_unplaced_items with_point_manager].
  rewrite H1, H2. cbn [mbind outcome_bind mret outcome_ret].
  change (with_point_manager (with_unplaced_items self l2) pm)
    with (with_unplaced_items (with_point_manager self pm) l2).
  rewrite try_items_loc.
  assert (Hloc := try_items_unplaced (with_point_manager self pm) backlog point).
  cbn [unplaced_items with_point_manager] in Hloc.
  destruct (try_items (with_point_manager self pm) backlog point) as [[placed|] self1];
    cbn [fst snd] in *.
  - unfold handle_successful_placement, read.
    cbn [unplaced_items with_unplaced_items]. rewrite Hloc, H1, H2.
    cbn [mbind outcome_bind mret outcome_ret].
    destruct (list_remove (item placed) backlog) as [backlog'|]; [|reflexivity].
    cbn [mbind outcome_bind mret outcome_ret].
    eexists _, backlog'. split; [reflexivity|].
    cbn [commit_placement unplaced_items]. rewrite Hloc.
    split; apply list_lookup_insert_eq; eapply lookup_lt_Some; eassumption.
  - eexists _, backlog. split; [reflexivity|].
    cbn [handle_failed_placement unplaced_items with_point_manager]. rewrite Hloc.
    split; assumption.
Qed.

Lemma pack_loop_loc (fuel : nat) (h1 h2 : Heap) (self : BinPackerV3) (l2 : loc)
  (backlog : list Item) h1' self' :
  h1 !! unplaced_items self = Some backlog ->
  h2 !! l2 = Some backlog ->
  pack_loop fuel h1 self = Done (h1', self') ->
  exists h2' backlog',
    pack_loop fuel h2 (with_unplaced_items self l2)
    = Done (h2', with_unplaced_items self' l2)
    /\ h1' !! unplaced_items self' = Some backlog'
    /\ h2' !! l2 = Some backlog'.
Proof.
  revert h1 h2 self backlog.
  induction fuel as [|fuel IH]; intros h1 h2 self backlog H1 H2 Hrun; [discriminate|].
  assert (Hturn := loop_body_loc h1 h2 self l2 backlog H1 H2).
  cbn [pack_loop] in *.
  destruct (loop_body h1 self) as [[[h1a self1]|]| |];
    cbn [mbind outcome_bind mret outcome_ret] in Hrun; try discriminate.
  - destruct Hturn as (h2a & backlog1 & -> & H1a & H2a).
    cbn [mbind outcome_bind]. exact (IH _ _ _ _ H1a H2a Hrun).
  - injection Hrun as <- <-. rewrite Hturn. exists h2, backlog.
    split; [reflexivity|]. split; assumption.
Qed.

Lemma pack_loop_more_fuel (fuel fuel' : nat) (h : Heap) (self : BinPackerV3) st :
  pack_loop fuel h self = Done st ->
  (fuel <= fuel')%nat ->
  pack_loop fuel' h self = Done st.
Proof.
  revert fuel' h self. induction fuel as [|fuel IH]; intros fuel' h self Hrun Hle;
    [discriminate|].
  destruct fuel' as [|fuel']; [lia|]. cbn [pack_loop] in *.
  destruct (loop_body h self) as [[[h1 self1]|]| |];
    cbn [mbind outcome_bind mret outcome_ret] in *; try discriminate.
  - apply IH; [exact Hrun|lia].
  - exact Hrun.
Qed.

Lemma generate_packing_result_loc (h1 h2 : Heap) (self : BinPackerV3) (l2 : loc)
  (backlog : list Item) :
  h1 !! unplaced_items self = Some backlog ->
  h2 !! l2 = Some backlog ->
  generate_packing_result h2 (with_unplaced_items self l2)
  = generate_packing_result h1 self.
Proof.
  intros H1 H2. unfold generate_packing_result, read.
  cbn [unplaced_items with_unplaced_items truck_dimensions placed_items].
  rewrite H1, H2. reflexivity.
Qed.

Lemma pack_items_more_fuel (fuel fuel' : nat) (h : Heap) (self : BinPackerV3)
  (items : loc) st :
  pack_items fuel h self items = Done st ->
  (fuel <= fuel')%nat ->
  pack_items fuel' h self items = Done st.
Proof.
  unfold pack_items. intros Hrun Hle.
  destruct (begin_packing h self items) as [[h1 self1]| |];
    cbn [mbind outcome_bind] in *; try discriminate.
  destruct (pack_loop fuel h1 self1) as [[h2 self2]| |] eqn:Hl;
    cbn [mbind outcome_bind] in *; try discriminate.
  rewrite (pack_loop_more_fuel _ _ _ _ _ Hl Hle). exact Hrun.
Qed.

(** A run on a packer just created answers with the same report whatever
    the heap and the location of the item list. *)
Lemma pack_fresh_loc (fuel : nat) (h1 h2 : Heap) (l w hh : Q) (items1 items2 : loc)
  (input : list Item) h1' self1' report :
  h1 !! items1 = Some input ->
  h2 !! items2 = Some input ->
  pack_fresh fuel h1 l w hh items1 = Done (h1', self1', report) ->
  exists h2' self2', pack_fresh fuel h2 l w hh items2 = Done (h2', self2', report).
Proof.
  intros H1 H2. unfold pack_fresh, BinPackerV3_init, alloc, pack_items.
  rewrite (begin_packing_Done (h1 ++ [[]]) _ items1 input)
    by (apply lookup_app_l_Some; exact H1).
  rewrite (begin_packing_Done (h2 ++ [[]]) _ items2 input)
    by (apply lookup_app_l_Some; exact H2).
  cbn [mbind outcome_bind].
  set (self0 := {| truck_dimensions := (l, w, hh); placed_items := [];
                   unplaced_items := length h1;
                   point_manager := add_point PointManager_init (mkPoint3D 0 0 0) 0;
                   collision_detector := CollisionDetector_init;
                   support_validator := SupportValidator_init;
                   weight_manager := WeightManager_init |}).
  set (heap1 := (_ ++ _) ++ _). set (heap2 := (_ ++ _) ++ _).
  set (start1 := with_unplaced_items self0 (S (length (h1 ++ [[]])))).
  change (with_unplaced_items _ (S (length (h2 ++ [[]]))))
    with (with_unplaced_items start1 (S (length (h2 ++ [[]])))).
  assert (Hb1 : heap1 !! unplaced_items start1 = Some (sort_items_by_priority input)).
  { apply (begin_packing_backlog (h1 ++ [[]]) self0 input). }
  assert (Hb2 : heap2 !! S (length (h2 ++ [[]])) = Some (sort_items_by_priority input)).
  { apply (begin_packing_backlog (h2 ++ [[]]) self0 input). }
  destruct (pack_loop fuel heap1 start1) as [[h1a self1a]| |] eqn:Hl;
    cbn [mbind outcome_bind]; try discriminate.
  destruct (pack_loop_loc _ _ _ _ _ _ _ _ Hb1 Hb2 Hl) as (h2a & backlog' & -> & Ha1 & Ha2).
  cbn [mbind outcome_bind].
  rewrite (generate_packing_result_loc h1a h2a self1a _ backlog' Ha1 Ha2).
  destruct (generate_packing_result h1a self1a) as [r| |];
    cbn [mbind outcome_bind mret outcome_ret]; try discriminate.
  intros [= _ _ <-]. eexists _, _. reflexivity.
Qed.

(** C4.  The report of a run on a packer made for it is
    a function of the container and the item list alone: whatever the heap
    the run starts in, wherever the item list lives in it, and however many
    turns the loop is allowed beyond the [3 * n + 1] it can take, the report
    is the same.  (The packer object itself keeps its placements and its
    frontier after the call.) *)
Theorem pack_fresh_deterministic :
  forall (truck_length truck_width truck_height : Q) (input : list Item)
         (h1 h2 : Heap) (items1 items2 : loc) (fuel1 fuel2 : nat),
    h1 !! items1 = Some input ->
    h2 !! items2 = Some input ->
    (3 * length input + 1 < fuel1)%nat ->
    (3 * length input + 1 < fuel2)%nat ->
    exists report,
      report_of (pack_fresh fuel1 h1 truck_length truck_width truck_height items1)
      = Some report
      /\ report_of (pack_fresh fuel2 h2 truck_length truck_width truck_height items2)
         = Some report.
Proof.
  intros l w hh input h1 h2 items1 items2 fuel1 fuel2 H1 H2 Hf1 Hf2.
  destruct (pack_fresh_Done h1 l w hh items1 input fuel1 H1 Hf1)
    as (h1' & self1' & r1 & Hr1 & _).
  destruct (pack_fresh_Done h2 l w hh items2 input fuel2 H2 Hf2)
    as (h2' & self2' & r2 & Hr2 & _).
  exists r1. rewrite Hr1, Hr2. split; [reflexivity|]. cbn [report_of]. f_equal.
  assert (Hm1 : pack_fresh (Nat.max fuel1 fuel2) h1 l w hh items1 = Done (h1', self1', r1)).
  { unfold pack_fresh in *. destruct (BinPackerV3_init h1 l w hh) as [h0 self0].
    apply (pack_items_more_fuel fuel1); [exact Hr1|lia]. }
  assert (Hm2 : pack_fresh (Nat.max fuel1 fuel2) h2 l w hh items2 = Done (h2', self2', r2)).
  { unfold pack_fresh in *. destruct (BinPackerV3_init h2 l w hh) as [h0 self0].
    apply (pack_items_more_fuel fuel2); [exact Hr2|lia]. }
  destruct (pack_fresh_loc _ h1 h2 l w hh items1 items2 input _ _ _ H1 H2 Hm1)
    as (h2a & self2a & Hm2').
  rewrite Hm2 in Hm2'. injection Hm2' as _ _ ->. reflexivity.
Qed.

Lemma pack_fresh_deterministic_witness :
  exists report,
    report_of (pack_fresh 8 [demo_items] 10 (25 # 10) (25 # 10) 0) = Some report
    /\ report_of (pack_fresh 20 [[]; []; demo_items] 10 (25 # 10) (25 # 10) 2)
       = Some report.
Proof.
  apply (pack_fresh_deterministic 10 (25 # 10) (25 # 10) demo_items
           [demo_items] [[]; []; demo_items] 0%nat 2%nat 8 20);
    [reflexivity|reflexivity|simpl; lia|simpl; lia].
Defined.

(** ** The frontier during a run *)

Lemma known_elem (p : Point3D) (points : list Point3D) :
  known p points <-> exists q, q ∈ points /\ same_point p q.
Proof. unfold known. apply Exists_exists. Qed.

Lemma known_app (p : Point3D) (l1 l2 : list Point3D) :
  known p (l1 ++ l2) <-> known p l1 \/ known p l2.
Proof. unfold known. apply Exists_app. Qed.

Lemma known_singleton (p q : Point3D) : known p [q] <-> same_point p q.
Proof.
  rewrite known_elem. split.
  - intros (r & Hr & Hs). apply list_elem_of_singleton in Hr. subst. exact Hs.
  - intros Hs. exists q. split; [apply list_elem_of_here|exact Hs].
Qed.

Lemma known_same (p q : Point3D) (points : list Point3D) :
  same_point p q -> known q points -> known p points.
Proof.
  rewrite !known_elem. intros Hpq (r & Hr & Hqr). exists r.
  split; [exact Hr|]. exact (same_point_trans _ _ _ Hpq Hqr).
Qed.

Lemma known_Permutation (p : Point3D) (l1 l2 : list Point3D) :
  l1 ≡ₚ l2 -> known p l1 -> known p l2.
Proof.
  rewrite !known_elem. intros Hperm (q & Hq & Hs). exists q.
  split; [|exact Hs]. rewrite <- Hperm. exact Hq.
Qed.

Lemma separated_Permutation (l1 l2 : list Point3D) :
  l1 ≡ₚ l2 -> separated l1 -> separated l2.
Proof.
  induction 1 as [|p l1 l2 Hperm IH|p q l|l1 l2 l3 _ IH1 _ IH2]; simpl.
  - trivial.
  - intros [Hp Hs]. split; [|apply IH; exact Hs].
    intros Hk. apply Hp. eapply known_Permutation; [symmetry; exact Hperm|exact Hk].
  - intros (Hq & Hp & Hs). split; [|split; [|exact Hs]].
    + intros Hk. apply (known_app p [q] l) in Hk as [Hk|Hk]; [|contradiction].
      apply known_singleton in Hk. apply Hq.
      apply (known_app q [p] l). left. apply known_singleton, same_point_sym, Hk.
    + intros Hk. apply Hq. apply (known_app q [p] l). right. exact Hk.
  - intros H. apply IH2, IH1, H.
Qed.

Lemma separated_snoc (l : list Point3D) (p : Point3D) :
  separated l -> ~ known p l -> separated (l ++ [p]).
Proof.
  induction l as [|q l IH]; simpl.
  - intros _ _. split; [|trivial]. intros H. inversion H.
  - intros [Hq Hs] Hp. split.
    + intros Hk. apply known_app in Hk as [Hk|Hk]; [contradiction|].
      apply known_singleton in Hk. apply Hp. apply (known_app p [q] l). left.
      apply known_singleton, same_point_sym, Hk.
    + apply IH; [exact Hs|]. intros Hk. apply Hp. apply (known_app p [q] l).
      right. exact Hk.
Qed.

Lemma point_remove_elem (p q : Point3D) (points : list Point3D) :
  q ∈ point_remove p points -> q ∈ points.
Proof.
  induction points as [|r rest IH]; simpl; [trivial|].
  destruct (Point3D_eqb r p).
  - intros H. apply list_elem_of_further. exact H.
  - intros H. apply elem_of_cons in H as [->|H];
      [apply list_elem_of_here|apply list_elem_of_further, IH, H].
Qed.

Lemma point_remove_known (p q : Point3D) (points : list Point3D) :
  known q (point_remove p points) -> known q points.
Proof.
  rewrite !known_elem. intros (r & Hr & Hs). exists r.
  split; [exact (point_remove_elem _ _ _ Hr)|exact Hs].
Qed.

(** Among separated points, removing a point leaves none equal to it. *)
Lemma point_remove_separated (p : Point3D) (points : list Point3D) :
  separated points ->
  separated (point_remove p points) /\ ~ known p (point_remove p points).
Proof.
  induction points as [|q rest IH]; simpl.
  - intros _. split; [trivial|]. intros H. inversion H.
  - intros [Hq Hs]. destruct (Point3D_eqb q p) eqn:E.
    + split; [exact Hs|]. apply Point3D_eqb_same_point in E.
      intros Hk. apply Hq. exact (known_same _ _ _ E Hk).
    + destruct (IH Hs) as [IH1 IH2]. simpl. split.
      * split; [|exact IH1]. intros Hk. apply Hq. exact (point_remove_known _ _ _ Hk).
      * intros Hk. apply (known_app p [q] _) in Hk as [Hk|Hk]; [|contradiction].
        apply known_singleton, same_point_sym, Point3D_eqb_same_point in Hk.
        congruence.
Qed.

Lemma frontier_ok_sorted (pm : PointManager) :
  frontier_ok pm -> frontier_ok (snd (get_next_point pm)).
Proof.
  intros [Hs Hd]. unfold frontier_ok.
  rewrite get_next_point_available.
  assert (Hperm := sort_by_key_Permutation (scan_key pm) ScanKey_ltb (available_points pm)).
  assert (Hu : used_points (snd (get_next_point pm)) = used_points pm
               /\ blocked_points (snd (get_next_point pm)) = blocked_points pm).
  { unfold get_next_point. destruct (available_points pm); split; reflexivity. }
  destruct Hu as [-> ->]. split.
  - eapply separated_Permutation; [symmetry; exact Hperm|exact Hs].
  - intros p Hp. apply Hd. rewrite <- Hperm. exact Hp.
Qed.

Lemma frontier_ok_used (pm : PointManager) (p : Point3D) :
  frontier_ok pm -> frontier_ok (mark_point_used pm p).
Proof.
  intros [Hs Hd]. unfold frontier_ok, mark_point_used. cbn [available_points used_points blocked_points].
  destruct (point_in p (available_points pm)) eqn:Hin.
  - destruct (point_remove_separated p _ Hs) as [Hs' Hp]. split; [exact Hs'|].
    intros q Hq. destruct (Hd q (point_remove_elem _ _ _ Hq)) as [Hu Hb].
    split; [|exact Hb]. intros Hk. apply known_app in Hk as [Hk|Hk]; [contradiction|].
    apply known_singleton in Hk. apply Hp. apply known_elem. exists q.
    split; [exact Hq|apply same_point_sym, Hk].
  - split; [exact Hs|]. intros q Hq. destruct (Hd q Hq) as [Hu Hb].
    split; [|exact Hb]. intros Hk. apply known_app in Hk as [Hk|Hk]; [contradiction|].
    apply known_singleton in Hk. apply point_in_unknown in Hin. apply Hin.
    apply known_elem. exists q. split; [exact Hq|apply same_point_sym, Hk].
Qed.

Lemma frontier_ok_blocked (pm : PointManager) (p : Point3D) :
  frontier_ok pm -> frontier_ok (mark_point_blocked pm p).
Proof.
  intros [Hs Hd]. unfold frontier_ok, mark_point_blocked. cbn [available_points used_points blocked_points].
  destruct (point_in p (available_points pm)) eqn:Hin.
  - destruct (point_remove_separated p _ Hs) as [Hs' Hp]. split; [exact Hs'|].
    intros q Hq. destruct (Hd q (point_remove_elem _ _ _ Hq)) as [Hu Hb].
    split; [exact Hu|]. intros Hk. apply known_app in Hk as [Hk|Hk]; [contradiction|].
    apply known_singleton in Hk. apply Hp. apply known_elem. exists q.
    split; [exact Hq|apply same_point_sym, Hk].
  - split; [exact Hs|]. intros q Hq. destruct (Hd q Hq) as [Hu Hb].
    split; [exact Hu|]. intros Hk. apply known_app in Hk as [Hk|Hk]; [contradiction|].
    apply known_singleton in Hk. apply point_in_unknown in Hin. apply Hin.
    apply known_elem. exists q. split; [exact Hq|apply same_point_sym, Hk].
Qed.

Lemma frontier_ok_add (pm : PointManager) (p : Point3D) (priority : Z) :
  frontier_ok pm -> ~ known p (blocked_points pm) ->
  frontier_ok (add_point pm p priority).
Proof.
  intros [Hs Hd] Hb. unfold add_point.
  destruct (point_in p (available_points pm)) eqn:Ha; simpl; [split; assumption|].
  destruct (point_in p (used_points pm)) eqn:Hu; simpl; [split; assumption|].
  apply point_in_unknown in Ha, Hu.
  split; cbn [available_points used_points blocked_points].
  - apply separated_snoc; assumption.
  - intros q Hq. apply elem_of_app in Hq as [Hq|Hq]; [apply Hd, Hq|].
    apply list_elem_of_singleton in Hq. subst q. split; assumption.
Qed.

Lemma add_point_blocked (pm : PointManager) (p : Point3D) (priority : Z) :
  blocked_points (add_point pm p priority) = blocked_points pm
  /\ used_points (add_point pm p priority) = used_points pm.
Proof. unfold add_point. case_if; split; reflexivity. Qed.

Lemma frontier_ok_add_points (pm : PointManager) (i : Z) (new_points : list Point3D) :
  frontier_ok pm ->
  Forall (fun p => ~ known p (blocked_points pm)) new_points ->
  frontier_ok (add_points_from pm i new_points).
Proof.
  revert pm i. induction new_points as [|p rest IH]; intros pm i Hok Hall; simpl;
    [exact Hok|].
  inversion Hall as [|? ? Hp Hrest]; subst.
  apply IH; [apply frontier_ok_add; assumption|].
  rewrite (proj1 (add_point_blocked pm p (i + 1))). exact Hrest.
Qed.

Lemma packer_state_frontier (h : Heap) (self : BinPackerV3) :
  packer_state h self -> frontier_ok (point_manager self).
Proof.
  intros Hst. induction Hst as [h l w hh|h self items h' self' Hst IH Hb
                               |h self h' self' Hst IH Hturn].
  - cbn [BinPackerV3_init alloc snd point_manager].
    apply frontier_ok_add; [|intros H; inversion H].
    split; [exact I|]. intros p Hp. inversion Hp.
  - apply begin_packing_inv in Hb as (input & _ & _ & ->). exact IH.
  - apply packer_state_consistent in Hst.
    destruct (loop_body_inv _ _ _ _ Hst Hturn)
      as (backlog & point & cache & _ & _ & _ & Hcase).
    cbv zeta in Hcase. apply frontier_ok_sorted in IH.
    destruct Hcase as [(placed & backlog' & _ & _ & _ & ->)|(_ & _ & ->)].
    + cbn [commit_placement point_manager recache with_collision_detector
             with_point_manager].
      apply frontier_ok_add_points; [apply frontier_ok_used; exact IH|].
      apply Forall_forall. intros p Hp.
      apply generate_new_points_fresh in Hp. tauto.
    + cbn [handle_failed_placement point_manager recache with_collision_detector
             with_point_manager].
      apply frontier_ok_blocked. exact IH.
Qed.

Lemma Point3D_hash_same_point (p q : Point3D) :
  Point3D_hash p = Point3D_hash q -> same_point p q.
Proof.
  unfold Point3D_hash, same_point, Float.round. intros [= Hx Hy Hz].
  rewrite Hx, Hy, Hz. repeat split; reflexivity.
Qed.





(** ** The order of the backlog *)

Lemma string_ltb_lt (a b : string) : String.ltb a b = true <-> String_as_OT.lt a b.
Proof.
  rewrite <- String_as_OT.cmp_lt. unfold String.ltb, String_as_OT.cmp.
  destruct (String.compare a b); split; congruence.
Qed.

Lemma string_ltb_false (a b : string) :
  String.ltb a b = false <-> a = b \/ String_as_OT.lt b a.
Proof.
  rewrite <- String_as_OT.cmp_lt, <- String_as_OT.cmp_eq.
  rewrite (String_as_OT.cmp_antisym b a).
  unfold String.ltb, String_as_OT.cmp.
  destruct (String.compare a b); simpl.
  - split; [intros _; left; reflexivity|reflexivity].
  - split; [discriminate|]. intros [H|H]; discriminate.
  - split; [intros _; right; reflexivity|reflexivity].
Qed.

Lemma string_leb_ltb (a b : string) : String.leb a b = true <-> String.ltb b a = false.
Proof.
  unfold String.leb, String.ltb. rewrite (String.compare_antisym b a).
  destruct (String.compare a b); simpl; split; congruence.
Qed.

Lemma string_ltb_trans (a b c : string) :
  String.ltb a b = true -> String.ltb b c = true -> String.ltb a c = true.
Proof. rewrite !string_ltb_lt. apply String_as_OT.lt_trans. Qed.

Lemma string_ltb_irrefl (a : string) : String.ltb a a = false.
Proof. apply string_ltb_false. left. reflexivity. Qed.

Lemma string_ltb_neg_trans (a b c : string) :
  String.ltb a b = false -> String.ltb b c = false -> String.ltb a c = false.
Proof.
  rewrite !string_ltb_false. intros [->|H1] [->|H2]; auto.
  right. exact (String_as_OT.lt_trans _ _ _ H2 H1).
Qed.

Lemma ItemKey_ltb_irrefl (k : ItemKey) : ItemKey_ltb k k = false.
Proof.
  destruct k as [[[r v] w] d]. unfold ItemKey_ltb, Float.eqb.
  rewrite Z.eqb_refl. rewrite !(proj2 (Qeq_bool_iff _ _) (Qeq_refl _)). simpl.
  apply string_ltb_irrefl.
Qed.

(** The comparison of two keys, unfolded into the first component that
    differs. *)
Lemma ItemKey_ltb_cases (k1 k2 : ItemKey) (b : bool) :
  ItemKey_ltb k1 k2 = b <->
  let '(r1, v1, w1, d1) := k1 in
  let '(r2, v2, w2, d2) := k2 in
  (r1 <> r2 /\ (r1 <? r2) = b)
  \/ (r1 = r2
      /\ ((~ (v1 == v2)%Q /\ Float.ltb v1 v2 = b)
          \/ ((v1 == v2)%Q
              /\ ((~ (w1 == w2)%Q /\ Float.ltb w1 w2 = b)
                  \/ ((w1 == w2)%Q /\ String.ltb d1 d2 = b))))).
Proof.
  destruct k1 as [[[r1 v1] w1] d1], k2 as [[[r2 v2] w2] d2]. unfold ItemKey_ltb.
  destruct (Z.eqb_spec r1 r2) as [Hr|Hr]; simpl.
  2:{ split; [intros H; left; split; assumption|]. intros [[_ H]|[H _]]; [exact H|].
      contradiction. }
  destruct (Float.eqb v1 v2) eqn:Ev; simpl; float_prop.
  2:{ split; [intros H; right; split; [exact Hr|]; left; split; assumption|].
      intros [[H _]|[_ [[_ H]|[H _]]]]; [contradiction|exact H|contradiction]. }
  destruct (Float.eqb w1 w2) eqn:Ew; simpl; float_prop.
  2:{ split; [intros H; right; split; [exact Hr|]; right; split; [exact Ev|];
              left; split; assumption|].
      intros [[H _]|[_ [[H _]|[_ [[_ H]|[H _]]]]]];
        [contradiction|contradiction|exact H|contradiction]. }
  split; [intros H; right; split; [exact Hr|]; right; split; [exact Ev|];
          right; split; assumption|].
  intros [[H _]|[_ [[H _]|[_ [[H _]|[_ H]]]]]];
    [contradiction|contradiction|contradiction|exact H].
Qed.

Ltac key_cases H :=
  apply ItemKey_ltb_cases in H; cbv beta iota zeta in H;
  destruct H as [[? ?]|[? [[? ?]|[? [[? ?]|[? ?]]]]]].

Lemma ItemKey_ltb_trans (a b c : ItemKey) :
  ItemKey_ltb a b = true -> ItemKey_ltb b c = true -> ItemKey_ltb a c = true.
Proof.
  destruct a as [[[r1 v1] w1] d1], b as [[[r2 v2] w2] d2], c as [[[r3 v3] w3] d3].
  intros H1 H2. apply ItemKey_ltb_cases. cbv beta iota zeta.
  key_cases H1; key_cases H2; rewrite ?Z.ltb_lt in *; float_prop;
    first
      [ left; split; [lia|apply Z.ltb_lt; lia]
      | right; split; [lia|]; first
          [ left; split; [lra|apply ltb_true; lra]
          | right; split; [lra|]; first
              [ left; split; [lra|apply ltb_true; lra]
              | right; split; [lra|eapply string_ltb_trans; eassumption] ] ] ].
Qed.

Lemma ItemKey_ltb_neg_trans (a b c : ItemKey) :
  ItemKey_ltb a b = false -> ItemKey_ltb b c = false -> ItemKey_ltb a c = false.
Proof.
  destruct a as [[[r1 v1] w1] d1], b as [[[r2 v2] w2] d2], c as [[[r3 v3] w3] d3].
  intros H1 H2. apply ItemKey_ltb_cases. cbv beta iota zeta.
  key_cases H1; key_cases H2; rewrite ?Z.ltb_ge in *; float_prop;
    first
      [ left; split; [lia|apply Z.ltb_ge; lia]
      | right; split; [lia|]; first
          [ left; split; [lra|apply ltb_false; lra]
          | right; split; [lra|]; first
              [ left; split; [lra|apply ltb_false; lra]
              | right; split; [lra|eapply string_ltb_neg_trans; eassumption] ] ] ].
Qed.

Lemma ItemKey_ltb_priority_le (a b : Item) :
  ItemKey_ltb (priority_key b) (priority_key a) = false <-> priority_le a b.
Proof.
  rewrite ItemKey_ltb_cases. unfold priority_key, priority_le. cbv beta iota zeta.
  rewrite Z.ltb_ge, !ltb_false, string_leb_ltb. split.
  - intros [[N L]|[E [[N L]|[E' [[N L]|[E'' L]]]]]].
    + left. lia.
    + right. split; [lia|]. left. lra.
    + right. split; [lia|]. right. split; [lra|]. left. lra.
    + right. split; [lia|]. right. split; [lra|]. right. split; [lra|exact L].
  - intros [L|[E [L|[E' [L|[E'' L]]]]]].
    + left. split; lia.
    + right. split; [lia|]. left. split; lra.
    + right. split; [lia|]. right. split; [lra|]. left. split; lra.
    + right. split; [lia|]. right. split; [lra|]. right. split; [lra|exact L].
Qed.

Section SortedFacts.
Context {A K : Type} (key : A -> K) (ltb : K -> K -> bool).
Hypothesis ltb_irrefl : forall a, ltb a a = false.
Hypothesis ltb_trans :
  forall a b c, ltb a b = true -> ltb b c = true -> ltb a c = true.
Hypothesis ltb_neg_trans :
  forall a b c, ltb a b = false -> ltb b c = false -> ltb a c = false.

(** [a] is not behind [b]: [b] does not come strictly first. *)
Let not_behind (a b : A) : Prop := ltb (key b) (key a) = false.

Lemma sort_insert_sorted (a : A) (l : list A) :
  StronglySorted not_behind l -> StronglySorted not_behind (sort_insert key ltb a l).
Proof.
  induction 1 as [|b l Hs IH Hb]; simpl.
  - constructor; constructor.
  - destruct (ltb (key b) (key a)) eqn:Hba.
    + constructor; [exact IH|].
      apply Forall_forall. intros c Hc.
      rewrite (sort_insert_Permutation key ltb a l) in Hc.
      apply elem_of_cons in Hc as [->|Hc].
      * unfold not_behind. destruct (ltb (key a) (key b)) eqn:Hab; [|reflexivity].
        assert (Haa := ltb_trans _ _ _ Hab Hba).
        rewrite ltb_irrefl in Haa. discriminate.
      * rewrite Forall_forall in Hb. apply Hb. exact Hc.
    + constructor; [constructor; assumption|].
      constructor; [exact Hba|].
      eapply Forall_impl; [exact Hb|]. intros c Hc. unfold not_behind in *.
      exact (ltb_neg_trans _ _ _ Hc Hba).
Qed.

Lemma sort_by_key_sorted (l : list A) : StronglySorted not_behind (sort_by_key key ltb l).
Proof.
  induction l as [|a l IH]; simpl; [constructor|].
  apply sort_insert_sorted. exact IH.
Qed.
End SortedFacts.

Lemma StronglySorted_weaken {A : Type} (R S : A -> A -> Prop) (l : list A) :
  (forall a b, R a b -> S a b) -> StronglySorted R l -> StronglySorted S l.
Proof.
  intros HRS. induction 1 as [|a l _ IH Ha]; constructor; [exact IH|].
  eapply Forall_impl; [exact Ha|]. intros b. apply HRS.
Qed.

Lemma sort_items_by_priority_ordered (items : list Item) :
  priority_ordered (sort_items_by_priority items).
Proof.
  unfold priority_ordered, sort_items_by_priority.
  eapply StronglySorted_weaken;
    [|apply (sort_by_key_sorted priority_key ItemKey_ltb ItemKey_ltb_irrefl
               ItemKey_ltb_trans ItemKey_ltb_neg_trans)].
  intros a b H. apply ItemKey_ltb_priority_le. exact H.
Qed.

Lemma list_remove_sub (x : Item) (backlog backlog' : list Item) :
  list_remove x backlog = Some backlog' -> forall y, y ∈ backlog' -> y ∈ backlog.
Proof.
  revert backlog'. induction backlog as [|z rest IH]; intros backlog'; simpl;
    [discriminate|].
  destruct (Item_eqb z x).
  - intros [= <-] y Hy. apply list_elem_of_further. exact Hy.
  - destruct (list_remove x rest) as [rest'|]; [|discriminate].
    intros [= <-] y Hy. apply elem_of_cons in Hy as [->|Hy].
    + apply list_elem_of_here.
    + apply list_elem_of_further. exact (IH rest' eq_refl y Hy).
Qed.

Lemma list_remove_ordered (x : Item) (backlog backlog' : list Item) :
  list_remove x backlog = Some backlog' ->
  priority_ordered backlog -> priority_ordered backlog'.
Proof.
  unfold priority_ordered. intros Hrm Hs. revert backlog' Hrm.
  induction Hs as [|z rest Hs IH Hz]; intros backlog'; simpl; [discriminate|].
  destruct (Item_eqb z x).
  - intros [= <-]. exact Hs.
  - destruct (list_remove x rest) as [rest'|] eqn:E; [|discriminate].
    intros [= <-]. constructor; [apply IH; reflexivity|].
    apply Forall_forall. intros y Hy. rewrite Forall_forall in Hz.
    apply Hz. exact (list_remove_sub _ _ _ E y Hy).
Qed.


(** ** A turn of the loop, in full *)

Lemma blocked_not_open (pm : PointManager) (p : Point3D) :
  frontier_ok pm -> p ∈ blocked_points pm -> ~ known p (available_points pm).
Proof.
  intros [_ Hd] Hp Hk. apply known_elem in Hk as (q & Hq & Hs).
  destruct (Hd q Hq) as [_ Hb]. apply Hb. apply known_elem.
  exists p. split; [exact Hp|apply same_point_sym, Hs].
Qed.





(** ** What [add_point] checks *)

(** C7, as the code has it.  [add_point] appends the point to the open list
    and records its priority exactly when the point is, under the 3-decimal
    tolerance, neither open nor consumed, and leaves the manager as it is
    otherwise; the blocked list is not consulted by [add_point].  It is
    [generate_new_points] that discards the candidates already open, consumed
    or blocked, so the successors a run hands to [add_point] are never
    blocked points, and in every state of a packer no blocked point is
    open. *)
Theorem add_point_open_or_used :
  (forall (pm : PointManager) (point : Point3D) (priority : Z),
      (~ known point (available_points pm) /\ ~ known point (used_points pm) ->
       add_point pm point priority
       = {| available_points := available_points pm ++ [point];
            used_points := used_points pm;
            blocked_points := blocked_points pm;
            point_priorities :=
              <[Point3D_hash point := priority]> (point_priorities pm) |})
      /\ (known point (available_points pm) \/ known point (used_points pm) ->
          add_point pm point priority = pm)
      /\ (forall placed, point ∈ generate_new_points pm placed ->
                         ~ known point (blocked_points pm)))
  /\ (forall (h : Heap) (self : BinPackerV3) (p : Point3D),
        packer_state h self ->
        p ∈ blocked_points (point_manager self) ->
        ~ known p (available_points (point_manager self))).
Proof.
  split.
  - intros pm point priority. unfold add_point. split; [|split].
    + intros [Ha Hu]. apply point_in_unknown in Ha, Hu. rewrite Ha, Hu. reflexivity.
    + intros [H|H]; apply point_in_known in H; rewrite H; simpl;
        [reflexivity|rewrite andb_false_r; reflexivity].
    + intros placed H. apply generate_new_points_fresh in H. tauto.
  - intros h self p Hst. apply blocked_not_open.
    exact (packer_state_frontier h self Hst).
Qed.

Lemma add_point_open_or_used_witness :
  add_point PointManager_init (mkPoint3D 0 0 0) 0
  = {| available_points := [mkPoint3D 0 0 0];
       used_points := [];
       blocked_points := [];
       point_priorities := <[Point3D_hash (mkPoint3D 0 0 0) := 0]> ∅ |}.
Proof.
  apply (proj1 (proj1 add_point_open_or_used PointManager_init (mkPoint3D 0 0 0) 0)).
  split; intros H; inversion H.
Defined.

(** C7, as stated, fails.  The origin is blocked, yet [add_point] opens it
    again. *)
Lemma add_point_reopens_blocked :
  known (mkPoint3D 0 0 0) (blocked_points dead_end)
  /\ ~ known (mkPoint3D 0 0 0) (available_points dead_end)
  /\ ~ known (mkPoint3D 0 0 0) (used_points dead_end)
  /\ available_points (add_point dead_end (mkPoint3D 0 0 0) 1) = [mkPoint3D 0 0 0].
Proof.
  split; [apply point_in_known; vm_compute; reflexivity|].
  split; [intros H; inversion H|]. split; [intros H; inversion H|].
  vm_compute. reflexivity.
Qed.

(** ** The scenarios of the test suite *)

(** [test_empty_items_list]: nothing placed, nothing left, efficiency 0. *)
Example pack_empty_list :
  (fun r => (statistics r, Float.eqb (efficiency r) 0))
    <$> report_of (pack_fresh 2 [[]] 10 (25 # 10) (25 # 10) 0)
  = Some ({| items_placed := 0; items_unplaced := 0; total_items := 0 |}, true).
Proof. vm_compute. reflexivity. Qed.

(** [test_items_too_large_for_truck]: the item stays in the backlog. *)
Example pack_oversized_item :
  (fun r => (statistics r, ue_id <$> report_unplaced_items r))
    <$> report_of (pack_fresh 5 [[box "large_box" 2 2 2 100]] 1 1 1 0)
  = Some ({| items_placed := 0; items_unplaced := 1; total_items := 1 |},
          ["large_box"]).
Proof. vm_compute. reflexivity. Qed.

(** [test_simple_packing]: both boxes are placed, the larger one first, at
    the origin and in its original orientation. *)
Example pack_two_boxes :
  (fun r => (statistics r,
             (fun e => (pe_id e, pe_position e)) <$> report_placed_items r))
    <$> report_of demo_run
  = Some ({| items_placed := 2; items_unplaced := 0; total_items := 2 |},
          [("box1", (0, 0, 0)%Q); ("box2", (0, 8 # 10, 0)%Q)]).
Proof. vm_compute. reflexivity. Qed.

(** * Further properties of the packer *)

(** ** Proving an invariant of the packer *)

(** What is true of a packer just created, and is kept when the backlog is
    rebound, when the first passing attempt at the next point is committed,
    and when the next point is blocked, is true in every state. *)
Lemma packer_state_ind_turns (P : BinPackerV3 -> Prop) :
  (forall h l w hh, P (snd (BinPackerV3_init h l w hh))) ->
  (forall self l, P self -> P (with_unplaced_items self l)) ->
  (forall self backlog point cache placed,
      consistent self -> P self ->
      fst (get_next_point (point_manager self)) = Some point ->
      first_passing self backlog point = Some placed ->
      P (commit_placement
           (recache (with_point_manager self (snd (get_next_point (point_manager self))))
                    cache)
           placed point)) ->
  (forall self point cache,
      consistent self -> P self ->
      fst (get_next_point (point_manager self)) = Some point ->
      P (handle_failed_placement
           (recache (with_point_manager self (snd (get_next_point (point_manager self))))
                    cache)
           point)) ->
  forall h self, packer_state h self -> P self.
Proof.
  intros Hinit Hrebind Hcommit Hfail h self Hst.
  induction Hst as [h l w hh|h self items h' self' Hst IH Hb
                   |h self h' self' Hst IH Hturn].
  - apply Hinit.
  - apply begin_packing_inv in Hb as (input & _ & _ & ->). apply Hrebind, IH.
  - apply packer_state_consistent in Hst.
    destruct (loop_body_inv _ _ _ _ Hst Hturn)
      as (backlog & point & cache & _ & Hpt & _ & Hcase).
    cbv zeta in Hcase.
    destruct Hcase as [(placed & backlog' & Hfp & _ & _ & ->)|(_ & _ & ->)].
    + eapply Hcommit; eassumption.
    + apply Hfail; assumption.
Qed.

Lemma validate_placement_column (wm : WeightManager) (it : Item) (pos : Point3D)
  (rot : Rotation) :
  validate_placement wm it pos rot = true ->
  ((pz pos == 0)%Q
   \/ Z.of_nat (length (column (wm_placed_items wm) pos)) < max_stack_height wm)
  /\ (column_load (wm_placed_items wm) pos (item_weight it)
      <= max_weight_per_stack wm)%Q.
Proof.
  unfold validate_placement, check_stack_height, check_weight_limits,
    stack_count, stack_weight.
  rewrite stack_count_fold, stack_weight_load.
  set (w := column_load _ _ _).
  destruct (Float.eqb (pz pos) 0) eqn:Ez; simpl.
  - destruct (Float.leb w (max_weight_per_stack wm)) eqn:El; simpl; [|discriminate].
    intros _. float_prop. split; [left; exact Ez|exact El].
  - destruct (Z.ltb_spec (0 + Z.of_nat (length (column (wm_placed_items wm) pos)))
                (max_stack_height wm)) as [Hlt|Hge]; simpl; [|discriminate].
    destruct (Float.leb w (max_weight_per_stack wm)) eqn:El; simpl; [|discriminate].
    intros _. float_prop. split; [right; lia|exact El].
Qed.

Lemma floor_rule_unstackable (it : Item) (point : Point3D) :
  floor_rule it point = true ->
  stackability it = UNSTACKABLE -> (pz point == 0)%Q.
Proof.
  unfold floor_rule. intros H Hu. rewrite Hu in H. simpl in H.
  rewrite negb_true_iff, negb_false_iff in H. apply eqb_true. exact H.
Qed.

Lemma history_ok_snoc (depth : Z) (load : Q) (placed : list PlacedItem) (p : PlacedItem) :
  history_ok depth load placed ->
  admitted depth load placed p ->
  history_ok depth load (placed ++ [p]).
Proof.
  intros Hh Hp before q behind E.
  destruct behind as [|b behind _] using rev_ind.
  - apply app_inj_tail in E as [-> ->]. exact Hp.
  - rewrite app_comm_cons, app_assoc in E. apply app_inj_tail in E as [-> _].
    apply (Hh before q behind). reflexivity.
Qed.

(** The limits of the weight manager stay at their defaults, and every
    placement was admitted against the earlier ones. *)
Lemma packer_state_history (h : Heap) (self : BinPackerV3) :
  packer_state h self ->
  max_stack_height (weight_manager self) = 3
  /\ max_weight_per_stack (weight_manager self) = 1000%Q
  /\ history_ok 3 1000 (placed_items self).
Proof.
  revert h self. apply packer_state_ind_turns.
  - intros h l w hh. split; [reflexivity|]. split; [reflexivity|].
    intros before p behind E. destruct before; discriminate.
  - intros self l H. exact H.
  - intros self backlog point cache placed Hc (Hd & Hl & Hh) Hpt Hfp.
    cbn [commit_placement recache with_collision_detector with_point_manager
           weight_manager wm_add_placed_item max_stack_height max_weight_per_stack
           placed_items].
    split; [exact Hd|]. split; [exact Hl|].
    apply history_ok_snoc; [exact Hh|].
    apply first_passing_Some in Hfp as (_ & Hrot & Hpos & Hp).
    apply passes_inv in Hp as (Hfloor & _ & Hcol & Hsup & Hwt).
    assert (Hplaced : mkPlacedItem (item placed) point (rotation placed) = placed)
      by (destruct placed; simpl in Hpos; subst; reflexivity).
    apply validate_support_fully_supported in Hsup.
    apply validate_placement_column in Hwt.
    rewrite (sv_synced _ Hc) in Hsup. rewrite (wm_synced _ Hc), Hd, Hl in Hwt.
    apply collides_overlap in Hcol. rewrite Hplaced in Hcol.
    rewrite <- Hpos in Hsup, Hwt, Hfloor.
    constructor; try tauto.
    apply floor_rule_unstackable. exact Hfloor.
  - intros self point cache Hc H Hpt. exact H.
Qed.

(** The stacking run ends in a state with the three placements. *)
Lemma stack_state :
  exists h self report,
    stack_run = Done (h, self, report)
    /\ packer_state h self
    /\ placed_items self = stack_placed
    /\ truck_dimensions self = (2, 1, 2)%Q.
Proof.
  destruct stack_run as [[[h self] report]| |] eqn:E;
    [|vm_compute in E; discriminate..].
  exists h, self, report. split; [reflexivity|].
  split; [exact (pack_fresh_state _ _ _ _ _ _ _ _ _ E)|].
  vm_compute in E. injection E as <- <- <-. split; reflexivity.
Qed.

(** ** What every placement satisfies *)

Lemma history_ok_elem (depth : Z) (load : Q) (placed : list PlacedItem) (p : PlacedItem) :
  history_ok depth load placed -> p ∈ placed ->
  exists before behind, placed = before ++ p :: behind /\ admitted depth load before p.
Proof.
  intros Hh Hp. apply list_elem_of_split in Hp as (before & behind & ->).
  exists before, behind. split; [reflexivity|]. apply (Hh before p behind). reflexivity.
Qed.

(** X1.  In every state of a packer, a placed item whose stackability is
    unstackable sits on the floor: its origin has z = 0. *)
Theorem unstackable_on_floor :
  forall (h : Heap) (self : BinPackerV3) (p : PlacedItem),
    packer_state h self ->
    p ∈ placed_items self ->
    stackability (item p) = UNSTACKABLE ->
    (pz (position p) == 0)%Q.
Proof.
  intros h self p Hst Hp Hu.
  destruct (packer_state_history h self Hst) as (_ & _ & Hh).
  destruct (history_ok_elem _ _ _ _ Hh Hp) as (before & behind & _ & Ha).
  apply (admitted_floor _ _ _ _ Ha). exact Hu.
Qed.

Lemma unstackable_on_floor_witness :
  (pz (position (mkPlacedItem crate (mkPoint3D 0 0 0) (1, 1, 1)%Q)) == 0)%Q.
Proof.
  destruct stack_state as (h & self & report & _ & Hst & Hp & _).
  apply (unstackable_on_floor h self _ Hst); [|reflexivity].
  rewrite Hp. apply list_elem_of_here.
Defined.

(** X2.  In every state of a packer, every placement uses one of the two
    orientations of its item, length and width as given or swapped: its
    height is the height of the item, and its volume the volume of the
    item. *)
Theorem placement_orientation :
  forall (h : Heap) (self : BinPackerV3) (p : PlacedItem),
    packer_state h self ->
    p ∈ placed_items self ->
    (rotation p = (item_length (item p), item_width (item p), item_height (item p))
     \/ rotation p = (item_width (item p), item_length (item p), item_height (item p)))
    /\ rot_h (rotation p) = item_height (item p)
    /\ (PlacedItem_volume p == Item_volume (item p))%Q.
Proof.
  intros h self p Hst Hp.
  destruct (packer_state_history h self Hst) as (_ & _ & Hh).
  destruct (history_ok_elem _ _ _ _ Hh Hp) as (before & behind & _ & Ha).
  assert (Hrot := admitted_rotation _ _ _ _ Ha). unfold get_rotations in Hrot.
  apply elem_of_cons in Hrot as [Hrot|Hrot];
    [|apply list_elem_of_singleton in Hrot];
    unfold PlacedItem_volume, Item_volume; rewrite Hrot; cbn [rot_l rot_w rot_h fst snd].
  - split; [left; reflexivity|]. split; [reflexivity|]. reflexivity.
  - split; [right; reflexivity|]. split; [reflexivity|]. ring.
Qed.

Lemma placement_orientation_witness :
  rot_h (1, 1, 1)%Q = item_height (box "high" 1 1 1 40).
Proof.
  destruct stack_state as (h & self & report & _ & Hst & Hp & _).
  refine (proj1 (proj2 (placement_orientation h self
            (mkPlacedItem (box "high" 1 1 1 40) (mkPoint3D 1 0 1) (1, 1, 1)%Q) Hst _))).
  rewrite Hp. unfold stack_placed. set_solver.
Defined.

(** X3.  In every state of a packer, every placement is fully supported by
    the placements made before it: it is on the floor, or the top faces of
    the earlier placements ending exactly at its base height cover its
    footprint to 100 percent. *)
Theorem placements_supported :
  forall (h : Heap) (self : BinPackerV3) (before behind : list PlacedItem)
         (p : PlacedItem),
    packer_state h self ->
    placed_items self = before ++ p :: behind ->
    fully_supported exact_eqb before (position p) (rotation p).
Proof.
  intros h self before behind p Hst E.
  destruct (packer_state_history h self Hst) as (_ & _ & Hh).
  exact (admitted_support _ _ _ _ (Hh before p behind E)).
Qed.

Lemma placements_supported_witness :
  fully_supported exact_eqb
    [ mkPlacedItem crate (mkPoint3D 0 0 0) (1, 1, 1)%Q;
      mkPlacedItem (box "low" 1 1 1 50) (mkPoint3D 1 0 0) (1, 1, 1)%Q ]
    (mkPoint3D 1 0 1) (1, 1, 1)%Q.
Proof.
  destruct stack_state as (h & self & report & _ & Hst & Hp & _).
  apply (placements_supported h self _ []
           (mkPlacedItem (box "high" 1 1 1 40) (mkPoint3D 1 0 1) (1, 1, 1)%Q) Hst).
  rewrite Hp. reflexivity.
Defined.

(** ** Columns *)

Lemma history_ok_last (depth : Z) (load : Q) (placed : list PlacedItem) (p : PlacedItem) :
  history_ok depth load (placed ++ [p]) ->
  history_ok depth load placed /\ admitted depth load placed p.
Proof.
  intros Hh. split.
  - intros before q behind E. apply (Hh before q (behind ++ [p])).
    rewrite E, <- app_assoc. reflexivity.
  - apply (Hh placed p []). reflexivity.
Qed.

Lemma column_same_origin (placed : list PlacedItem) (pos pos' : Point3D) :
  (px pos == px pos')%Q -> (py pos == py pos')%Q ->
  column placed pos = column placed pos'.
Proof.
  intros Hx Hy. unfold column. apply list_filter_iff. intros q. unfold in_column.
  rewrite Hx, Hy. reflexivity.
Qed.

(** The last item of a column, and the part of the column placed before
    it. *)
Lemma column_last (placed : list PlacedItem) (pos : Point3D)
  (earlier : list PlacedItem) (last : PlacedItem) :
  column placed pos = earlier ++ [last] ->
  exists before behind,
    placed = before ++ last :: behind
    /\ column before pos = earlier
    /\ in_column pos last.
Proof.
  induction placed as [|q placed IH] using rev_ind; intros E.
  - destruct earlier; discriminate.
  - unfold column in E. rewrite filter_app, filter_cons, filter_nil in E.
    destruct (decide (in_column pos q)) as [Hin|Hout].
    + apply app_inj_tail in E as [E <-].
      exists placed, []. split; [reflexivity|]. split; [exact E|exact Hin].
    + rewrite app_nil_r in E. destruct (IH E) as (before & behind & -> & Hb & Hin).
      exists before, (behind ++ [q]).
      split; [rewrite <- app_assoc; reflexivity|]. split; [exact Hb|exact Hin].
Qed.

(** X4.  In every state of a packer, the column of every placement (the
    earlier placements with exactly its (x, y) origin) held fewer than 3
    items when it was placed above the floor, and the weight of the
    placement and of the items of that column, added in that order, was at
    most 1000; so at every origin the weight of the latest item of the
    column and of the items placed before it, added in the order of their
    placement, is at most 1000. *)
Theorem column_limits :
  forall (h : Heap) (self : BinPackerV3),
    packer_state h self ->
    (forall before p behind,
        placed_items self = before ++ p :: behind ->
        ((pz (position p) == 0)%Q
         \/ (length (column before (position p)) < 3)%nat)
        /\ (column_load before (position p) (item_weight (item p)) <= 1000)%Q)
    /\ (forall pos earlier last,
          column (placed_items self) pos = earlier ++ [last] ->
          (fold_left Qplus (map (fun p => item_weight (item p)) earlier)
                     (item_weight (item last))
           <= 1000)%Q).
Proof.
  intros h self Hst.
  destruct (packer_state_history h self Hst) as (_ & _ & Hh). split.
  - intros before p behind E. assert (Ha := Hh before p behind E). split.
    + destruct (admitted_depth _ _ _ _ Ha) as [H|H]; [left; exact H|right; lia].
    + apply (admitted_load _ _ _ _ Ha).
  - intros pos earlier last Hcol.
    destruct (column_last _ _ _ _ Hcol) as (before & behind & E & Hb & Hx & Hy).
    assert (Hl := admitted_load _ _ _ _ (Hh before last behind E)).
    unfold column_load in Hl.
    rewrite (column_same_origin before (position last) pos Hx Hy), Hb in Hl.
    exact Hl.
Qed.

Lemma column_limits_witness :
  (column_load [ mkPlacedItem crate (mkPoint3D 0 0 0) (1, 1, 1)%Q;
                 mkPlacedItem (box "low" 1 1 1 50) (mkPoint3D 1 0 0) (1, 1, 1)%Q ]
               (mkPoint3D 1 0 1) 40
   <= 1000)%Q.
Proof.
  destruct stack_state as (h & self & report & _ & Hst & Hp & _).
  exact (proj2 (proj1 (column_limits h self Hst)
                  [ mkPlacedItem crate (mkPoint3D 0 0 0) (1, 1, 1)%Q;
                    mkPlacedItem (box "low" 1 1 1 50) (mkPoint3D 1 0 0) (1, 1, 1)%Q ]
                  (mkPlacedItem (box "high" 1 1 1 40) (mkPoint3D 1 0 1) (1, 1, 1)%Q)
                  [] Hp)).
Defined.

(** ** Corners *)

Lemma within_truck_corners (dims : Q * Q * Q) (p : PlacedItem) :
  within_truck dims p ->
  (0 <= rot_l (rotation p) /\ 0 <= rot_w (rotation p) /\ 0 <= rot_h (rotation p))%Q ->
  Forall (point_within dims) (get_corner_points p).
Proof.
  unfold within_truck, bounds, get_corner_points, point_within.
  destruct dims as [[tl tw] th]. destruct p as [it [x y z] [[l w] hh]].
  cbn [position rotation rot_l rot_w rot_h fst snd px py pz].
  intros [(H1 & H2 & H3) (H4 & H5 & H6)] (Hl & Hw & Hh).
  repeat constructor; cbn [px py pz]; lra.
Qed.

(** X5.  In every state of a packer, the eight corners of a placement whose
    item has no negative dimension all lie within the container. *)
Theorem corners_within_truck :
  forall (h : Heap) (self : BinPackerV3) (p : PlacedItem),
    packer_state h self ->
    p ∈ placed_items self ->
    (0 <= item_length (item p) /\ 0 <= item_width (item p)
     /\ 0 <= item_height (item p))%Q ->
    length (get_corner_points p) = 8%nat
    /\ Forall (point_within (truck_dimensions self)) (get_corner_points p).
Proof.
  intros h self p Hst Hp (Hl & Hw & Hh).
  split; [unfold get_corner_points; destruct (rotation p) as [[? ?] ?]; reflexivity|].
  apply within_truck_corners.
  - destruct (packer_state_placements h self Hst) as [_ Hin].
    rewrite Forall_forall in Hin. apply Hin. exact Hp.
  - destruct (packer_state_history h self Hst) as (_ & _ & Hhist).
    destruct (history_ok_elem _ _ _ _ Hhist Hp) as (before & behind & _ & Ha).
    assert (Hrot := admitted_rotation _ _ _ _ Ha). unfold get_rotations in Hrot.
    apply elem_of_cons in Hrot as [Hrot|Hrot];
      [|apply list_elem_of_singleton in Hrot];
      rewrite Hrot; cbn [rot_l rot_w rot_h fst snd]; repeat split; assumption.
Qed.

Lemma corners_within_truck_witness :
  Forall (point_within (2, 1, 2)%Q)
    (get_corner_points (mkPlacedItem (box "high" 1 1 1 40) (mkPoint3D 1 0 1) (1, 1, 1)%Q)).
Proof.
  destruct stack_state as (h & self & report & _ & Hst & Hp & Hd).
  rewrite <- Hd.
  refine (proj2 (corners_within_truck h self _ Hst _ _)).
  - rewrite Hp. unfold stack_placed. set_solver.
  - simpl. repeat split; vm_compute; discriminate.
Defined.

(** ** The three populations of the frontier *)

Lemma separated_cons_Permutation (l : list Point3D) (p : Point3D) (l' : list Point3D) :
  l' ≡ₚ p :: l -> separated l -> ~ known p l -> separated l'.
Proof.
  intros Hperm Hs Hp. eapply separated_Permutation; [symmetry; exact Hperm|].
  split; assumption.
Qed.

(** Among separated points, [remove] takes out the very point asked for. *)
Lemma point_remove_Permutation (p : Point3D) (points : list Point3D) :
  separated points -> p ∈ points -> p :: point_remove p points ≡ₚ points.
Proof.
  induction points as [|q rest IH]; intros Hs Hp; [inversion Hp|].
  destruct Hs as [Hq Hs]. simpl. destruct (Point3D_eqb q p) eqn:E.
  - apply elem_of_cons in Hp as [->|Hp]; [reflexivity|].
    exfalso. apply Hq. apply known_elem. exists p. split; [exact Hp|].
    apply Point3D_eqb_same_point. exact E.
  - apply elem_of_cons in Hp as [->|Hp];
      [rewrite Point3D_eqb_refl in E; discriminate|].
    rewrite Permutation_swap. rewrite (IH Hs Hp). reflexivity.
Qed.

Lemma separated_app_l (l1 l2 : list Point3D) : separated (l1 ++ l2) -> separated l1.
Proof.
  induction l1 as [|p l1 IH]; simpl; [trivial|].
  intros [Hp Hs]. split; [|apply IH; exact Hs].
  intros Hk. apply Hp. apply known_app. left. exact Hk.
Qed.

Lemma frontier_partition_sorted (pm : PointManager) :
  frontier_partition pm -> frontier_partition (snd (get_next_point pm)).
Proof.
  unfold frontier_partition. rewrite get_next_point_available.
  assert (Hu : used_points (snd (get_next_point pm)) = used_points pm
               /\ blocked_points (snd (get_next_point pm)) = blocked_points pm).
  { unfold get_next_point. destruct (available_points pm); split; reflexivity. }
  destruct Hu as [-> ->]. apply separated_Permutation.
  rewrite (sort_by_key_Permutation (scan_key pm) ScanKey_ltb (available_points pm)).
  reflexivity.
Qed.

Lemma Permutation_move_used {A : Type} (p : A) (r a u b : list A) :
  p :: r ≡ₚ a -> a ++ u ++ b ≡ₚ r ++ (u ++ [p]) ++ b.
Proof.
  intros H. rewrite <- H. rewrite <- (app_assoc u [p] b). simpl.
  rewrite (app_assoc r u (p :: b)), <- Permutation_middle, <- app_assoc.
  reflexivity.
Qed.

Lemma Permutation_move_blocked {A : Type} (p : A) (r a u b : list A) :
  p :: r ≡ₚ a -> a ++ u ++ b ≡ₚ r ++ u ++ b ++ [p].
Proof.
  intros H. rewrite <- H. simpl.
  rewrite !app_assoc, <- Permutation_cons_append. reflexivity.
Qed.

Lemma frontier_partition_used (pm : PointManager) (p : Point3D) :
  frontier_partition pm -> p ∈ available_points pm ->
  frontier_partition (mark_point_used pm p).
Proof.
  unfold frontier_partition, mark_point_used. intros Hs Hp.
  cbn [available_points used_points blocked_points].
  rewrite (point_in_elem _ _ Hp).
  apply (separated_Permutation _ _) with (2 := Hs).
  apply Permutation_move_used.
  apply point_remove_Permutation; [exact (separated_app_l _ _ Hs)|exact Hp].
Qed.

Lemma frontier_partition_blocked (pm : PointManager) (p : Point3D) :
  frontier_partition pm -> p ∈ available_points pm ->
  frontier_partition (mark_point_blocked pm p).
Proof.
  unfold frontier_partition, mark_point_blocked. intros Hs Hp.
  cbn [available_points used_points blocked_points].
  rewrite (point_in_elem _ _ Hp).
  apply (separated_Permutation _ _) with (2 := Hs).
  apply Permutation_move_blocked.
  apply point_remove_Permutation; [exact (separated_app_l _ _ Hs)|exact Hp].
Qed.

Lemma frontier_partition_add (pm : PointManager) (p : Point3D) (priority : Z) :
  frontier_partition pm -> ~ known p (blocked_points pm) ->
  frontier_partition (add_point pm p priority).
Proof.
  unfold frontier_partition, add_point. intros Hs Hb.
  destruct (point_in p (available_points pm)) eqn:Ha; simpl; [exact Hs|].
  destruct (point_in p (used_points pm)) eqn:Hu; simpl; [exact Hs|].
  apply point_in_unknown in Ha, Hu.
  cbn [available_points used_points blocked_points].
  apply (separated_cons_Permutation
           (available_points pm ++ used_points pm ++ blocked_points pm) p);
    [|exact Hs|].
  - rewrite <- app_assoc. simpl. symmetry. apply Permutation_middle.
  - rewrite !known_app. tauto.
Qed.

Lemma frontier_partition_add_points (pm : PointManager) (i : Z)
  (new_points : list Point3D) :
  frontier_partition pm ->
  Forall (fun p => ~ known p (blocked_points pm)) new_points ->
  frontier_partition (add_points_from pm i new_points).
Proof.
  revert pm i. induction new_points as [|p rest IH]; intros pm i Hok Hall; simpl;
    [exact Hok|].
  inversion Hall as [|? ? Hp Hrest]; subst.
  apply IH; [apply frontier_partition_add; assumption|].
  rewrite (proj1 (add_point_blocked pm p (i + 1))). exact Hrest.
Qed.

Lemma add_points_from_used (pm : PointManager) (i : Z) (new_points : list Point3D) :
  used_points (add_points_from pm i new_points) = used_points pm
  /\ blocked_points (add_points_from pm i new_points) = blocked_points pm.
Proof.
  revert pm i. induction new_points as [|p rest IH]; intros pm i; simpl;
    [split; reflexivity|].
  destruct (IH (add_point pm p (i + 1)) (i + 1)) as [-> ->].
  destruct (add_point_blocked pm p (i + 1)) as [-> ->]. split; reflexivity.
Qed.

Lemma packer_state_partition (h : Heap) (self : BinPackerV3) :
  packer_state h self -> frontier_partition (point_manager self).
Proof.
  revert h self. apply packer_state_ind_turns.
  - intros h l w hh. cbn [BinPackerV3_init alloc snd point_manager].
    apply frontier_partition_add; [|intros H; inversion H]. exact I.
  - intros self l H. exact H.
  - intros self backlog point cache placed _ H Hpt _.
    cbn [commit_placement point_manager recache with_collision_detector
           with_point_manager].
    apply frontier_partition_add_points.
    + apply frontier_partition_used; [apply frontier_partition_sorted, H|].
      apply get_next_point_elem. exact Hpt.
    + apply Forall_forall. intros p Hp. apply generate_new_points_fresh in Hp. tauto.
  - intros self point cache _ H Hpt.
    cbn [handle_failed_placement point_manager recache with_collision_detector
           with_point_manager].
    apply frontier_partition_blocked; [apply frontier_partition_sorted, H|].
    apply get_next_point_elem. exact Hpt.
Qed.

(** X6.  In every state of a packer the open, consumed and blocked points
    are pairwise different under the 3-decimal tolerance: no point is listed
    twice, and none is in two of the three lists. *)
Theorem frontier_populations_apart :
  forall (h : Heap) (self : BinPackerV3),
    packer_state h self ->
    separated (available_points (point_manager self)
               ++ used_points (point_manager self)
               ++ blocked_points (point_manager self)).
Proof. exact packer_state_partition. Qed.

Lemma frontier_populations_apart_witness :
  exists self : BinPackerV3,
    length (blocked_points (point_manager self)) = 2%nat
    /\ separated (available_points (point_manager self)
                  ++ used_points (point_manager self)
                  ++ blocked_points (point_manager self)).
Proof.
  destruct stack_run as [[[h self] report]| |] eqn:E;
    [|vm_compute in E; discriminate..].
  exists self.
  assert (Hst := pack_fresh_state _ _ _ _ _ _ _ _ _ E).
  split; [|exact (frontier_populations_apart h self Hst)].
  vm_compute in E. injection E as <- <- <-. reflexivity.
Defined.

(** X7.  In every state of a packer the consumed points are, in order, the
    origins of the placements; hence no two placements have the same origin
    under the 3-decimal tolerance. *)
Theorem consumed_points_are_origins :
  forall (h : Heap) (self : BinPackerV3),
    packer_state h self ->
    used_points (point_manager self) = position <$> placed_items self
    /\ separated (position <$> placed_items self).
Proof.
  intros h self Hst.
  assert (Hused : used_points (point_manager self) = position <$> placed_items self).
  { revert h self Hst. apply packer_state_ind_turns.
    - intros h l w hh. reflexivity.
    - intros self l H. exact H.
    - intros self backlog point cache placed _ H Hpt Hfp.
      apply first_passing_Some in Hfp as (_ & _ & Hpos & _).
      cbn [commit_placement point_manager recache with_collision_detector
             with_point_manager placed_items].
      rewrite (proj1 (add_points_from_used _ _ _)).
      cbn [mark_point_used used_points]. rewrite fmap_app. cbn [fmap list_fmap].
      rewrite Hpos, <- H. f_equal.
      unfold get_next_point. destruct (available_points (point_manager self)); reflexivity.
    - intros self point cache _ H Hpt.
      cbn [handle_failed_placement point_manager recache with_collision_detector
             with_point_manager mark_point_blocked used_points placed_items].
      rewrite <- H.
      unfold get_next_point. destruct (available_points (point_manager self)); reflexivity. }
  split; [exact Hused|]. rewrite <- Hused.
  assert (Hp := packer_state_partition h self Hst).
  unfold frontier_partition in Hp.
  apply (separated_Permutation _ _ (Permutation_app_comm _ _)) in Hp.
  rewrite <- app_assoc in Hp. apply separated_app_l in Hp. exact Hp.
Qed.

Lemma consumed_points_are_origins_witness :
  separated (position <$> stack_placed).
Proof.
  destruct stack_state as (h & self & report & _ & Hst & Hp & _).
  rewrite <- Hp. exact (proj2 (consumed_points_are_origins h self Hst)).
Defined.

(** ** The collision cache *)

Lemma collides_exists (placed : list PlacedItem) it pos rot :
  collides placed it pos rot = true
  <-> exists q, q ∈ placed /\ overlap (bounds (mkPlacedItem it pos rot)) (bounds q).
Proof.
  unfold collides. rewrite existsb_exists. split.
  - intros (q & Hq & Ho). exists q. split; [apply list_elem_of_In; exact Hq|].
    apply aabb_collision_overlap. exact Ho.
  - intros (q & Hq & Ho). exists q. split; [apply list_elem_of_In; exact Hq|].
    apply aabb_collision_overlap. exact Ho.
Qed.

(** X8.  In every state of a packer the collision check, cached or not,
    answers true exactly when, for one of the placements, the extents of
    the candidate box and of the placement overlap strictly on each of the
    three axes (boxes that only touch do not collide; a candidate of zero
    thickness strictly inside a placement does), and it leaves the
    placements of the detector as they are. *)
Theorem check_collision_transparent :
  forall (h : Heap) (self : BinPackerV3) (it : Item) (pos : Point3D) (rot : Rotation),
    packer_state h self ->
    (fst (check_collision (collision_detector self) it pos rot) = true
     <-> exists q, q ∈ placed_items self
                   /\ overlap (bounds (mkPlacedItem it pos rot)) (bounds q))
    /\ cd_placed_items (snd (check_collision (collision_detector self) it pos rot))
       = placed_items self.
Proof.
  intros h self it pos rot Hst.
  assert (Hc := packer_state_consistent h self Hst).
  assert (Hsound : cache_sound (cd_placed_items (collision_detector self))
                     (collision_cache (collision_detector self))).
  { rewrite (cd_synced _ Hc). apply Hc. }
  destruct (check_collision_sound (collision_detector self) it pos rot Hsound)
    as (Hhit & Hplaced & _).
  rewrite Hhit, Hplaced, (cd_synced _ Hc). split; [apply collides_exists|reflexivity].
Qed.

Lemma check_collision_transparent_witness :
  exists self : BinPackerV3,
    placed_items self = stack_placed
    /\ fst (check_collision (collision_detector self) crate (mkPoint3D 1 0 0)
              (1, 1, 1)%Q) = true.
Proof.
  destruct stack_state as (h & self & report & _ & Hst & Hp & _).
  exists self. split; [exact Hp|].
  apply (proj1 (check_collision_transparent h self crate (mkPoint3D 1 0 0)
                  (1, 1, 1)%Q Hst)).
  exists (mkPlacedItem (box "low" 1 1 1 50) (mkPoint3D 1 0 0) (1, 1, 1)%Q).
  split; [rewrite Hp; unfold stack_placed; set_solver|].
  apply aabb_collision_overlap. vm_compute. reflexivity.
Defined.

(** ** Point equality and hashing *)

Lemma quantum_eq (x y : Q) (ndigits : nat) :
  (Float.round x ndigits == Float.round y ndigits)%Q ->
  Float.quantum x ndigits = Float.quantum y ndigits.
Proof.
  unfold Float.round. intros H.
  assert (Hpos : (0 < inject_Z (Float.pow10 ndigits))%Q).
  { unfold Float.pow10. change 0%Q with (inject_Z 0). rewrite <- Zlt_Qlt.
    apply Z.pow_pos_nonneg; lia. }
  assert (H' : (inject_Z (Float.quantum x ndigits)
                == inject_Z (Float.quantum y ndigits))%Q).
  { apply (Qmult_inj_r _ _ (/ inject_Z (Float.pow10 ndigits))); [|exact H].
    intros E. apply Qinv_lt_0_compat in Hpos. lra. }
  apply inject_Z_injective. exact H'.
Qed.

Lemma same_point_Point3D_hash (p q : Point3D) :
  same_point p q -> Point3D_hash p = Point3D_hash q.
Proof.
  unfold same_point, Point3D_hash. intros (Hx & Hy & Hz).
  rewrite (quantum_eq _ _ _ Hx), (quantum_eq _ _ _ Hy), (quantum_eq _ _ _ Hz).
  reflexivity.
Qed.

(** X9.  Equality of points is an equivalence relation, and it agrees with
    the hash: two points are equal exactly when the triples they hash are
    equal, so a dictionary keyed by points finds the entry of any equal
    point. *)
Theorem Point3D_eq_hash :
  (forall p, Point3D_eqb p p = true)
  /\ (forall p q, Point3D_eqb p q = Point3D_eqb q p)
  /\ (forall p q r, Point3D_eqb p q = true -> Point3D_eqb q r = true ->
                    Point3D_eqb p r = true)
  /\ (forall p q, Point3D_eqb p q = true <-> Point3D_hash p = Point3D_hash q).
Proof.
  split; [apply Point3D_eqb_refl|]. split; [apply Point3D_eqb_sym_bool|]. split.
  - intros p q r. rewrite !Point3D_eqb_same_point. apply same_point_trans.
  - intros p q. rewrite Point3D_eqb_same_point. split.
    + apply same_point_Point3D_hash.
    + apply Point3D_hash_same_point.
Qed.

Lemma Point3D_eq_hash_witness :
  Point3D_hash (mkPoint3D (10004 # 10000) 0 0) = Point3D_hash (mkPoint3D 1 0 0).
Proof.
  apply (proj1 (proj2 (proj2 (proj2 Point3D_eq_hash)) _ _)).
  vm_compute. reflexivity.
Defined.

(** ** Sorting the backlog *)

Section StableFacts.
Context {A K : Type} (key : A -> K) (ltb : K -> K -> bool).
Hypothesis ltb_trans :
  forall a b c, ltb a b = true -> ltb b c = true -> ltb a c = true.
Hypothesis ltb_neg_trans :
  forall a b c, ltb a b = false -> ltb b c = false -> ltb a c = false.

Let tied (c a : A) : bool := negb (ltb (key c) (key a)) && negb (ltb (key a) (key c)).

(** Inserting an element leaves the elements tied with [c] in their order,
    the new one in front when it is tied with [c]. *)
Lemma filter_sort_insert (c a : A) (l : list A) :
  filter (fun x => tied c x = true) (sort_insert key ltb a l)
  = filter (fun x => tied c x = true) (a :: l).
Proof.
  induction l as [|b l IH]; [reflexivity|]. cbn [sort_insert].
  destruct (ltb (key b) (key a)) eqn:Hba; [|reflexivity].
  rewrite filter_cons, IH, !filter_cons.
  destruct (decide (tied c b = true)) as [Hb|Hb];
    destruct (decide (tied c a = true)) as [Ha|Ha]; try reflexivity.
  exfalso. unfold tied in Ha, Hb.
  rewrite andb_true_iff, !negb_true_iff in Ha, Hb.
  destruct Ha as [Hca Hac], Hb as [Hcb Hbc].
  rewrite (ltb_neg_trans _ _ _ Hbc Hca) in Hba. discriminate.
Qed.

Lemma filter_sort_by_key (c : A) (l : list A) :
  filter (fun x => tied c x = true) (sort_by_key key ltb l)
  = filter (fun x => tied c x = true) l.
Proof.
  induction l as [|a l IH]; [reflexivity|]. cbn [sort_by_key foldr].
  change (foldr (sort_insert key ltb) [] l) with (sort_by_key key ltb l).
  rewrite filter_sort_insert, !filter_cons, IH. reflexivity.
Qed.

(** A list in which no element comes strictly before an earlier one is left
    as it is. *)
Lemma sort_by_key_sorted_id (l : list A) :
  StronglySorted (fun a b => ltb (key b) (key a) = false) l ->
  sort_by_key key ltb l = l.
Proof.
  induction 1 as [|a l Hs IH Ha]; [reflexivity|]. cbn [sort_by_key foldr].
  change (foldr (sort_insert key ltb) [] l) with (sort_by_key key ltb l).
  rewrite IH. destruct l as [|b l]; [reflexivity|]. cbn [sort_insert].
  inversion Ha as [|? ? Hb _]; subst. rewrite Hb. reflexivity.
Qed.
End StableFacts.

Lemma priority_ordered_keys (l : list Item) :
  priority_ordered l
  <-> StronglySorted (fun a b => ItemKey_ltb (priority_key b) (priority_key a) = false) l.
Proof.
  unfold priority_ordered. split; apply StronglySorted_weaken; intros a b;
    apply ItemKey_ltb_priority_le.
Qed.

(** X10.  [_sort_items_by_priority] is a stable sort: its result is a
    permutation of the input in priority order, the items tied in the
    priority order keep the order they had in the input, and a list already
    in priority order is returned as it is (so sorting twice changes
    nothing). *)
Theorem sort_items_by_priority_stable :
  forall (items : list Item),
    sort_items_by_priority items ≡ₚ items
    /\ priority_ordered (sort_items_by_priority items)
    /\ (forall c, filter (fun x => priority_tied c x = true) (sort_items_by_priority items)
                  = filter (fun x => priority_tied c x = true) items)
    /\ (priority_ordered items -> sort_items_by_priority items = items)
    /\ sort_items_by_priority (sort_items_by_priority items)
       = sort_items_by_priority items.
Proof.
  intros items. split; [apply sort_by_key_Permutation|].
  split; [apply sort_items_by_priority_ordered|]. split; [|split].
  - intros c. apply (filter_sort_by_key priority_key ItemKey_ltb ItemKey_ltb_neg_trans).
  - intros H. apply sort_by_key_sorted_id. apply priority_ordered_keys. exact H.
  - apply sort_by_key_sorted_id. apply priority_ordered_keys.
    apply sort_items_by_priority_ordered.
Qed.

Lemma sort_items_by_priority_stable_witness :
  sort_items_by_priority [crate; box "low" 1 1 1 50; box "high" 1 1 1 40]
  = [crate; box "low" 1 1 1 50; box "high" 1 1 1 40].
Proof.
  apply (proj1 (proj2 (proj2 (proj2 (sort_items_by_priority_stable _))))).
  apply priority_ordered_keys. repeat constructor.
Defined.

(** ** What a call of [pack_items] does to the packer *)

Lemma Item_eqb_id (a b : Item) : Item_eqb a b = true -> item_id a = item_id b.
Proof.
  unfold Item_eqb. rewrite !andb_true_iff. intros H.
  apply String.eqb_eq. tauto.
Qed.

Lemma list_remove_ids (x : Item) (backlog backlog' : list Item) :
  list_remove x backlog = Some backlog' ->
  item_id x :: (item_id <$> backlog') ≡ₚ item_id <$> backlog.
Proof.
  revert backlog'. induction backlog as [|y rest IH]; intros backlog'; simpl;
    [discriminate|].
  destruct (Item_eqb y x) eqn:E.
  - intros [= <-]. rewrite (Item_eqb_id _ _ E). reflexivity.
  - destruct (list_remove x rest) as [rest'|]; [|discriminate].
    intros [= <-]. cbn [fmap list_fmap]. rewrite Permutation_swap.
    rewrite (IH rest' eq_refl). reflexivity.
Qed.

(** The loop appends placements, and every item that leaves the backlog
    becomes one of them. *)
Lemma pack_loop_accounts (fuel : nat) (h : Heap) (self : BinPackerV3)
  (backlog : list Item) h' self' :
  packer_state h self ->
  h !! unplaced_items self = Some backlog ->
  pack_loop fuel h self = Done (h', self') ->
  exists new backlog',
    placed_items self' = placed_items self ++ new
    /\ h' !! unplaced_items self' = Some backlog'
    /\ ((fun p => item_id (item p)) <$> new) ++ (item_id <$> backlog')
       ≡ₚ item_id <$> backlog
    /\ truck_dimensions self' = truck_dimensions self.
Proof.
  revert h self backlog.
  induction fuel as [|fuel IH]; intros h self backlog Hst Hb Hrun; [discriminate|].
  apply pack_loop_inv in Hrun as [(_ & -> & ->)|(h1 & self1 & Hturn & Hrun)].
  - exists [], backlog. rewrite app_nil_r. repeat split; [exact Hb|reflexivity].
  - assert (Hst1 := state_turn _ _ _ _ Hst Hturn).
    destruct (loop_body_inv _ _ _ _ (packer_state_consistent _ _ Hst) Hturn)
      as (backlog0 & point & cache & Hb0 & _ & _ & Hcase).
    rewrite Hb in Hb0. injection Hb0 as <-. cbv zeta in Hcase.
    destruct Hcase as [(placed & backlog1 & _ & Hrm & -> & ->)|(_ & -> & ->)].
    + assert (Hb1 : <[unplaced_items self := backlog1]> h !! unplaced_items self
                    = Some backlog1).
      { apply list_lookup_insert_eq. eapply lookup_lt_Some. exact Hb. }
      destruct (IH _ _ backlog1 Hst1 Hb1 Hrun) as (new & backlog' & Hp & Hb' & Hids & Hd).
      exists (placed :: new), backlog'.
      cbn [commit_placement placed_items truck_dimensions recache
             with_collision_detector with_point_manager] in Hp, Hd.
      split; [rewrite Hp, <- app_assoc; reflexivity|]. split; [exact Hb'|].
      split; [|exact Hd].
      cbn [fmap list_fmap app]. rewrite Hids. apply list_remove_ids. exact Hrm.
    + destruct (IH _ _ backlog Hst1 Hb Hrun) as (new & backlog' & Hp & Hb' & Hids & Hd).
      exists new, backlog'. repeat split; assumption.
Qed.

Lemma generate_packing_result_inv (h : Heap) (self : BinPackerV3) (report : Report) :
  generate_packing_result h self = Done report ->
  exists backlog,
    h !! unplaced_items self = Some backlog
    /\ report_placed_items report = placed_entry <$> placed_items self
    /\ report_unplaced_items report = unplaced_entry <$> backlog
    /\ report_truck_dimensions report = truck_dimensions self
    /\ statistics report
       = {| items_placed := length (placed_items self);
            items_unplaced := length backlog;
            total_items := length (placed_items self) + length backlog |}.
Proof.
  unfold generate_packing_result, read.
  destruct (h !! unplaced_items self) as [backlog|]; [|discriminate].
  cbn [mbind outcome_bind]. destruct (truck_dimensions self) as [[tl tw] th].
  intros [= <-]. exists backlog. repeat split.
Qed.

Lemma pack_items_accounts (fuel : nat) (h : Heap) (self : BinPackerV3) (items : loc)
  (input : list Item) h' self' report :
  packer_state h self ->
  h !! items = Some input ->
  pack_items fuel h self items = Done (h', self', report) ->
  exists new backlog',
    placed_items self' = placed_items self ++ new
    /\ report_placed_items report = placed_entry <$> (placed_items self ++ new)
    /\ report_unplaced_items report = unplaced_entry <$> backlog'
    /\ ((fun p => item_id (item p)) <$> new) ++ (item_id <$> backlog')
       ≡ₚ item_id <$> input
    /\ truck_dimensions self' = truck_dimensions self
    /\ statistics report
       = {| items_placed := length (placed_items self ++ new);
            items_unplaced := length backlog';
            total_items := length (placed_items self ++ new) + length backlog' |}.
Proof.
  intros Hst Hin Hrun.
  apply pack_items_inv in Hrun as (h1 & self1 & Hb & Hl & Hr).
  assert (Hst1 := state_entered _ _ _ _ _ Hst Hb).
  rewrite (begin_packing_Done h self items input Hin) in Hb. injection Hb as <- <-.
  destruct (pack_loop_accounts _ _ _ _ _ _ Hst1 (begin_packing_backlog h self input) Hl)
    as (new & backlog' & Hp & Hb' & Hids & Hd).
  apply generate_packing_result_inv in Hr as (backlog0 & Hb0 & Hrp & Hru & _ & Hstat).
  rewrite Hb' in Hb0. injection Hb0 as <-.
  cbn [placed_items truck_dimensions with_unplaced_items] in Hp, Hd.
  exists new, backlog'. rewrite <- Hp.
  split; [reflexivity|]. split; [exact Hrp|]. split; [exact Hru|].
  split; [|split; [exact Hd|exact Hstat]].
  rewrite Hids. unfold sort_items_by_priority.
  rewrite (sort_by_key_Permutation priority_key ItemKey_ltb input). reflexivity.
Qed.

(** X11.  A call of [pack_items] on a packer in any state only appends: the
    placements it had stay a prefix of its placements, the report lists them
    all, the container is unchanged, and the items of this call are each
    either among the new placements or in the unplaced list, identifier by
    identifier. *)
Theorem pack_items_appends :
  forall (fuel : nat) (h : Heap) (self : BinPackerV3) (items : loc)
         (input : list Item) h' self' report,
    packer_state h self ->
    h !! items = Some input ->
    pack_items fuel h self items = Done (h', self', report) ->
    exists new,
      placed_items self' = placed_items self ++ new
      /\ report_placed_items report = placed_entry <$> (placed_items self ++ new)
      /\ (pe_id <$> (placed_entry <$> new))
           ++ (ue_id <$> report_unplaced_items report)
         ≡ₚ item_id <$> input
      /\ truck_dimensions self' = truck_dimensions self.
Proof.
  intros fuel h self items input h' self' report Hst Hin Hrun.
  destruct (pack_items_accounts _ _ _ _ _ _ _ _ Hst Hin Hrun)
    as (new & backlog' & Hp & Hrp & Hru & Hids & Hd & _).
  exists new. split; [exact Hp|]. split; [exact Hrp|]. split; [|exact Hd].
  rewrite Hru, <- !list_fmap_compose. exact Hids.
Qed.

(** X12.  Conservation: in the report of a run on a packer just created,
    the identifiers of the placed and of the unplaced items are together a
    permutation of the identifiers of the input, and the counts of placed and
    unplaced items add up to the number of input items, which is the total
    the statistics give. *)
Theorem pack_fresh_conservation :
  forall (fuel : nat) (h : Heap) (truck_length truck_width truck_height : Q)
         (items : loc) (input : list Item) h' self' report,
    h !! items = Some input ->
    pack_fresh fuel h truck_length truck_width truck_height items
    = Done (h', self', report) ->
    (pe_id <$> report_placed_items report) ++ (ue_id <$> report_unplaced_items report)
    ≡ₚ item_id <$> input
    /\ (items_placed (statistics report) + items_unplaced (statistics report)
        = length input)%nat
    /\ total_items (statistics report) = length input
    /\ items_placed (statistics report) = length (report_placed_items report)
    /\ items_unplaced (statistics report) = length (report_unplaced_items report).
Proof.
  intros fuel h l w hh items input h' self' report Hin Hrun.
  unfold pack_fresh in Hrun.
  assert (Hst := state_created h l w hh).
  unfold BinPackerV3_init, alloc in *. cbn [fst snd] in Hst.
  assert (Hin' : (h ++ [[]]) !! items = Some input)
    by (apply lookup_app_l_Some; exact Hin).
  destruct (pack_items_accounts _ _ _ _ _ _ _ _ Hst Hin' Hrun)
    as (new & backlog' & _ & Hrp & Hru & Hids & _ & Hstat).
  cbn [placed_items app] in Hrp, Hstat.
  assert (Hlen : (length new + length backlog' = length input)%nat).
  { apply Permutation_length in Hids.
    rewrite length_app, !length_fmap in Hids. exact Hids. }
  rewrite Hstat, Hrp, Hru, !length_fmap. cbn [items_placed items_unplaced total_items].
  split; [rewrite <- !list_fmap_compose; exact Hids|]. repeat split; assumption.
Qed.

Lemma pack_items_appends_witness :
  exists h self first,
    demo_run = Done (h, self, first)
    /\ exists h' self' second new,
         pack_items 8 h self 0 = Done (h', self', second)
         /\ placed_items self' = placed_items self ++ new.
Proof.
  destruct demo_run as [[[h self] first]| |] eqn:E;
    [|vm_compute in E; discriminate..].
  assert (Hst := pack_fresh_state _ _ _ _ _ _ _ _ _ E).
  vm_compute in E. injection E as <- <- <-.
  eexists _, _, _. split; [reflexivity|].
  match goal with |- context [pack_items 8 ?h ?s 0] =>
    destruct (pack_items 8 h s 0) as [[[h' self'] second]| |] eqn:E2;
      [|vm_compute in E2; discriminate..]
  end.
  destruct (pack_items_appends 8 _ _ 0%nat demo_items _ _ _ Hst eq_refl E2)
    as (new & Hp & _).
  exists h', self', second, new. split; [reflexivity|exact Hp].
Defined.

Lemma pack_fresh_conservation_witness :
  exists h self report,
    demo_run = Done (h, self, report)
    /\ (pe_id <$> report_placed_items report) ++ (ue_id <$> report_unplaced_items report)
       ≡ₚ item_id <$> demo_items.
Proof.
  destruct demo_run as [[[h self] report]| |] eqn:E;
    [|vm_compute in E; discriminate..].
  exists h, self, report. split; [reflexivity|].
  exact (proj1 (pack_fresh_conservation 8 [demo_items] 10 (25 # 10) (25 # 10) 0%nat
                  demo_items h self report eq_refl E)).
Defined.

(** ** Edge cases of the report *)

Lemma quantum_zero (x : Q) (ndigits : nat) : (x == 0)%Q -> Float.quantum x ndigits = 0.
Proof.
  intros Hx. unfold Float.quantum, Float.round_half_even.
  set (q := (x * inject_Z (Float.pow10 ndigits))%Q).
  assert (Hq : (q == 0)%Q) by (subst q; rewrite Hx; ring).
  assert (Hf : Qfloor q = 0) by (rewrite Hq; reflexivity).
  cbv zeta. rewrite Hf.
  assert (Hlt : (q - inject_Z 0 ?= 1 # 2)%Q = Lt)
    by (apply Qlt_alt; rewrite Hq; reflexivity).
  rewrite Hlt. reflexivity.
Qed.

Lemma round_zero (x : Q) (ndigits : nat) : (x == 0)%Q -> (Float.round x ndigits == 0)%Q.
Proof.
  intros Hx. unfold Float.round. rewrite (quantum_zero x ndigits Hx).
  unfold Qdiv. ring.
Qed.

Lemma efficiency_nothing_placed (h : Heap) (self : BinPackerV3) (report : Report) :
  generate_packing_result h self = Done report ->
  placed_items self = [] ->
  (efficiency report == 0)%Q.
Proof.
  unfold generate_packing_result, read.
  destruct (h !! unplaced_items self) as [backlog|]; [|discriminate].
  cbn [mbind outcome_bind]. destruct (truck_dimensions self) as [[tl tw] th].
  intros [= <-] Hp. cbn [efficiency]. apply round_zero.
  destruct (Float.gtb (tl * tw * th) 0); [|reflexivity].
  rewrite Hp. unfold sum. simpl. unfold Qdiv. ring.
Qed.

(** X13.  The efficiency of a report is 0 when the container has no positive
    volume, whatever has been placed: the placed volume is not divided by
    it. *)
Theorem efficiency_zero_volume :
  forall (h : Heap) (self : BinPackerV3) (report : Report),
    generate_packing_result h self = Done report ->
    (let '(l, w, hh) := truck_dimensions self in l * w * hh <= 0)%Q ->
    (efficiency report == 0)%Q.
Proof.
  intros h self report. unfold generate_packing_result, read.
  destruct (h !! unplaced_items self) as [backlog|]; [|discriminate].
  cbn [mbind outcome_bind]. destruct (truck_dimensions self) as [[tl tw] th].
  intros [= <-] Hv. cbn [efficiency]. apply round_zero.
  destruct (Float.gtb (tl * tw * th) 0) eqn:Ev; [|reflexivity].
  float_prop. lra.
Qed.

Lemma efficiency_zero_volume_witness :
  exists report,
    generate_packing_result [[]]
      (snd (BinPackerV3_init [] 0 (25 # 10) (25 # 10))) = Done report
    /\ (efficiency report == 0)%Q.
Proof.
  eexists. split; [reflexivity|].
  apply (efficiency_zero_volume [[]] (snd (BinPackerV3_init [] 0 (25 # 10) (25 # 10))));
    [reflexivity|].
  vm_compute. discriminate.
Defined.

(** X14.  Empty input: for every container, a run on a packer just created
    with an empty item list returns at once, with nothing placed, nothing
    unplaced, all counts 0, efficiency 0 and success. *)
Theorem pack_empty_input :
  forall (fuel : nat) (h : Heap) (truck_length truck_width truck_height : Q)
         (items : loc),
    h !! items = Some [] ->
    (0 < fuel)%nat ->
    exists h' self' report,
      pack_fresh fuel h truck_length truck_width truck_height items
      = Done (h', self', report)
      /\ report_success report = true
      /\ report_placed_items report = []
      /\ report_unplaced_items report = []
      /\ statistics report
         = {| items_placed := 0; items_unplaced := 0; total_items := 0 |}
      /\ (efficiency report == 0)%Q.
Proof.
  intros fuel h l w hh items Hin Hfuel.
  destruct fuel as [|fuel]; [lia|].
  unfold pack_fresh, BinPackerV3_init, alloc, pack_items.
  rewrite (begin_packing_Done (h ++ [[]]) _ items [])
    by (apply lookup_app_l_Some; exact Hin).
  cbn [mbind outcome_bind]. cbn [pack_loop].
  match goal with |- context [loop_body ?hh ?ss] =>
    assert (Hb : hh !! unplaced_items ss = Some []);
      [apply (begin_packing_backlog (h ++ [[]]) _ [])|];
    rewrite (loop_body_exit hh ss [] Hb) by (left; reflexivity);
    cbn [mbind outcome_bind mret outcome_ret];
    destruct (generate_packing_result_Done hh ss [] Hb) as (report & Hr & Hok)
  end.
  rewrite Hr. cbn [mbind outcome_bind mret outcome_ret]. eexists _, _, report.
  split; [reflexivity|].
  assert (Heff := efficiency_nothing_placed _ _ _ Hr eq_refl).
  apply generate_packing_result_inv in Hr as (backlog & Hb0 & Hrp & Hru & _ & Hstat).
  rewrite Hb in Hb0. injection Hb0 as <-.
  split; [exact Hok|].
  split; [exact Hrp|split; [exact Hru|split; [exact Hstat|exact Heff]]].
Qed.

Lemma pack_empty_input_witness :
  exists h' self' report,
    pack_fresh 1 [[]] 10 (25 # 10) (25 # 10) 0 = Done (h', self', report)
    /\ report_placed_items report = []
    /\ report_unplaced_items report = [].
Proof.
  destruct (pack_empty_input 1 [[]] 10 (25 # 10) (25 # 10) 0%nat eq_refl)
    as (h' & self' & report & Hrun & _ & Hp & Hu & _); [lia|].
  exists h', self', report. split; [exact Hrun|]. split; [exact Hp|exact Hu].
Defined.

(** ** The first turn of a run *)

Lemma find_pointwise {A : Type} (f g : A -> bool) (xs : list A) :
  (forall x, f x = g x) -> find f xs = find g xs.
Proof.
  intros Hfg. induction xs as [|x xs IH]; [reflexivity|].
  simpl. rewrite Hfg, IH. reflexivity.
Qed.

Lemma passes_empty_truck (h : Heap) (l w hh : Q) (backlog : loc)
  (attempt : Item * Rotation) :
  passes (with_unplaced_items (snd (BinPackerV3_init h l w hh)) backlog)
         (mkPoint3D 0 0 0) attempt
  = fits_empty_truck (l, w, hh) attempt.
Proof.
  destruct attempt as [it [[il iw] ih]].
  unfold passes, floor_rule, check_geometric_constraints, validate_support,
    validate_placement, check_stack_height, check_weight_limits, stack_weight,
    fits_empty_truck.
  cbn.
  change (Float.eqb 0 0) with true. change (Float.ltb 0 0) with false.
  rewrite andb_false_r. cbn [negb andb orb].
  destruct (Float.leb il l) eqn:E1, (Float.leb iw w) eqn:E2, (Float.leb ih hh) eqn:E3,
    (Float.leb (item_weight it) 1000) eqn:E4,
    (Float.gtb (0 + il) l) eqn:G1, (Float.gtb (0 + iw) w) eqn:G2,
    (Float.gtb (0 + ih) hh) eqn:G3;
    try reflexivity; float_prop; lra.
Qed.

(** X15.  The first turn of a run on a packer just created: when some item
    of the input, in priority order and in one of its two orientations, is
    within the container and weighs at most 1000, the first such item in
    its first such orientation is the first placement, at the origin;
    otherwise nothing is placed and the report lists every item as
    unplaced, in priority order. *)
Theorem fresh_run_first_placement :
  forall (fuel : nat) (h : Heap) (truck_length truck_width truck_height : Q)
         (items : loc) (input : list Item) h' self' report,
    h !! items = Some input ->
    pack_fresh fuel h truck_length truck_width truck_height items
    = Done (h', self', report) ->
    match find (fits_empty_truck (truck_length, truck_width, truck_height))
               (attempts (sort_items_by_priority input)) with
    | Some (it, rot) =>
        exists rest, placed_items self' = mkPlacedItem it (mkPoint3D 0 0 0) rot :: rest
    | None =>
        placed_items self' = []
        /\ report_placed_items report = []
        /\ report_unplaced_items report
           = unplaced_entry <$> sort_items_by_priority input
    end.
Proof.
  intros fuel h l w hh items input h' self' report Hin Hrun.
  unfold pack_fresh in Hrun.
  assert (Hst0 := state_created h l w hh).
  assert (Hpass := fun a => passes_empty_truck h l w hh (S (length (h ++ [[]]))) a).
  unfold BinPackerV3_init, alloc in Hrun, Hst0, Hpass. cbn [fst snd] in Hst0, Hpass.
  assert (Hin' : (h ++ [[]]) !! items = Some input)
    by (apply lookup_app_l_Some; exact Hin).
  unfold pack_items in Hrun.
  match type of Hst0 with packer_state _ ?s0 =>
    assert (Hbegin := begin_packing_Done (h ++ [[]]) s0 items input Hin');
    assert (Hb := begin_packing_backlog (h ++ [[]]) s0 input)
  end.
  rewrite Hbegin in Hrun. cbn [mbind outcome_bind] in Hrun.
  assert (Hst1 := state_entered _ _ _ _ _ Hst0 Hbegin).
  clear Hbegin Hst0.
  set (sorted := sort_items_by_priority input) in *.
  match type of Hst1 with packer_state ?hh1 ?s1 =>
    set (h1 := hh1) in *; set (self1 := s1) in *
  end.
  assert (Hc1 := packer_state_consistent _ _ Hst1).
  assert (Hfind : first_passing self1 sorted (mkPoint3D 0 0 0)
                  = (fun a => mkPlacedItem (fst a) (mkPoint3D 0 0 0) (snd a))
                      <$> find (fits_empty_truck (l, w, hh)) (attempts sorted)).
  { unfold first_passing. rewrite (find_pointwise _ _ _ Hpass). reflexivity. }
  clear Hpass.
  destruct fuel as [|fuel]; [discriminate Hrun|]. cbn [pack_loop] in Hrun.
  destruct sorted as [|first backlog] eqn:Hsorted.
  - rewrite (loop_body_exit h1 self1 [] Hb) in Hrun by (left; reflexivity).
    cbn [mbind outcome_bind mret outcome_ret] in Hrun.
    destruct (generate_packing_result h1 self1) as [r| |] eqn:Hr; try discriminate.
    cbn [mbind outcome_bind mret outcome_ret] in Hrun. injection Hrun as <- <- <-.
    apply generate_packing_result_inv in Hr as (b & Hb0 & Hrp & Hru & _).
    rewrite Hb in Hb0. injection Hb0 as <-.
    cbn [attempts mbind list_bind find]. split; [reflexivity|]. split; assumption.
  - destruct (loop_body_turn h1 self1 (first :: backlog) Hc1 Hb)
      as (point & cache & Hpoint & _ & Hbody); [discriminate|discriminate|].
    assert (Hp0 : point = mkPoint3D 0 0 0).
    { vm_compute in Hpoint. congruence. }
    subst point. cbv zeta in Hbody. rewrite Hfind in Hbody.
    destruct (find (fits_empty_truck (l, w, hh)) (attempts (first :: backlog)))
      as [[it rot]|] eqn:Hfit; cbn [fmap option_fmap option_map fst snd] in Hbody.
    + cbn [item] in Hbody.
      destruct (list_remove it (first :: backlog)) as [backlog'|] eqn:Hrem;
        [|rewrite Hbody in Hrun; discriminate Hrun].
      assert (Hst2 := state_turn _ _ _ _ Hst1 Hbody).
      rewrite Hbody in Hrun. cbn [mbind outcome_bind] in Hrun.
      match type of Hst2 with packer_state ?hh2 ?s2 =>
        set (h2 := hh2) in *; set (self2 := s2) in *
      end.
      destruct (pack_loop fuel h2 self2) as [[h3 self3]| |] eqn:Hloop;
        try discriminate Hrun.
      cbn [mbind outcome_bind] in Hrun.
      destruct (generate_packing_result h3 self3) as [r| |]; try discriminate Hrun.
      cbn [mbind outcome_bind mret outcome_ret] in Hrun. injection Hrun as <- <- <-.
      assert (Hb2 : h2 !! unplaced_items self2 = Some backlog').
      { subst h2 self2. cbn [unplaced_items commit_placement].
        apply list_lookup_insert_eq. apply lookup_lt_Some in Hb. exact Hb. }
      destruct (pack_loop_accounts _ _ _ _ _ _ Hst2 Hb2 Hloop) as (new & _ & Hp & _).
      exists new. rewrite Hp. reflexivity.
    + rewrite Hbody in Hrun. cbn [mbind outcome_bind] in Hrun.
      destruct fuel as [|fuel]; [discriminate Hrun|]. cbn [pack_loop] in Hrun.
      match type of Hrun with context [loop_body h1 ?s2] =>
        set (self2 := s2) in *;
        assert (Hb2 : h1 !! unplaced_items self2 = Some (first :: backlog)) by exact Hb;
        rewrite (loop_body_exit h1 self2 _ Hb2) in Hrun by (right; reflexivity)
      end.
      cbn [mbind outcome_bind mret outcome_ret] in Hrun.
      destruct (generate_packing_result h1 self2) as [r| |] eqn:Hr; try discriminate.
      cbn [mbind outcome_bind mret outcome_ret] in Hrun. injection Hrun as <- <- <-.
      apply generate_packing_result_inv in Hr as (b & Hb0 & Hrp & Hru & _).
      rewrite Hb2 in Hb0. injection Hb0 as <-.
      split; [reflexivity|]. split; assumption.
Qed.

Lemma fresh_run_first_placement_witness :
  exists h self report p rest,
    demo_run = Done (h, self, report)
    /\ placed_items self = p :: rest
    /\ position p = mkPoint3D 0 0 0.
Proof.
  destruct demo_run as [[[h self] report]| |] eqn:E;
    [|vm_compute in E; discriminate..].
  assert (H := fresh_run_first_placement 8 [demo_items] 10 (25 # 10) (25 # 10) 0%nat
                 demo_items h self report eq_refl E).
  destruct (find (fits_empty_truck (10%Q, 25 # 10, 25 # 10))
                 (attempts (sort_items_by_priority demo_items)))
    as [[it rot]|] eqn:Hfit; [|vm_compute in Hfit; discriminate].
  destruct H as (rest & Hp).
  exists h, self, report, (mkPlacedItem it (mkPoint3D 0 0 0) rot), rest.
  split; [reflexivity|]. split; [exact Hp|reflexivity].
Defined.

(** ** The items left unplaced *)

Lemma list_remove_sublist (x : Item) (backlog backlog' : list Item) :
  list_remove x backlog = Some backlog' -> sublist backlog' backlog.
Proof.
  revert backlog'. induction backlog as [|y rest IH]; intros backlog'; simpl;
    [discriminate|].
  destruct (Item_eqb y x).
  - intros [= <-]. apply sublist_cons. reflexivity.
  - destruct (list_remove x rest) as [rest'|]; [|discriminate].
    intros [= <-]. apply sublist_skip. apply IH. reflexivity.
Qed.

Lemma pack_loop_backlog (fuel : nat) (h : Heap) (self : BinPackerV3)
  (backlog : list Item) h' self' :
  packer_state h self ->
  h !! unplaced_items self = Some backlog ->
  pack_loop fuel h self = Done (h', self') ->
  exists backlog',
    h' !! unplaced_items self' = Some backlog'
    /\ sublist backlog' backlog
    /\ (priority_ordered backlog -> priority_ordered backlog').
Proof.
  revert h self backlog.
  induction fuel as [|fuel IH]; intros h self backlog Hst Hb Hrun; [discriminate|].
  apply pack_loop_inv in Hrun as [(_ & -> & ->)|(h1 & self1 & Hturn & Hrun)].
  - exists backlog. split; [exact Hb|]. split; [reflexivity|tauto].
  - assert (Hst1 := state_turn _ _ _ _ Hst Hturn).
    destruct (loop_body_inv _ _ _ _ (packer_state_consistent _ _ Hst) Hturn)
      as (backlog0 & point & cache & Hb0 & _ & _ & Hcase).
    rewrite Hb in Hb0. injection Hb0 as <-. cbv zeta in Hcase.
    destruct Hcase as [(placed & backlog1 & _ & Hrm & -> & ->)|(_ & -> & ->)].
    + assert (Hb1 : <[unplaced_items self := backlog1]> h !! unplaced_items self
                    = Some backlog1).
      { apply list_lookup_insert_eq. eapply lookup_lt_Some. exact Hb. }
      destruct (IH _ _ backlog1 Hst1 Hb1 Hrun) as (backlog' & Hb' & Hsub & Hord).
      exists backlog'. split; [exact Hb'|]. split.
      * etrans; [exact Hsub|]. eapply list_remove_sublist. exact Hrm.
      * intros H. apply Hord. eapply list_remove_ordered; eassumption.
    + apply (IH _ _ backlog Hst1 Hb Hrun).
Qed.

(** X17.  The items a call of [pack_items] reports as unplaced are what is
    left of the sorted input once the placed items are taken out: a
    subsequence of the input in priority order, hence itself in priority
    order. *)
Theorem pack_items_unplaced_order :
  forall (fuel : nat) (h : Heap) (self : BinPackerV3) (items : loc)
         (input : list Item) h' self' report,
    packer_state h self ->
    h !! items = Some input ->
    pack_items fuel h self items = Done (h', self', report) ->
    exists backlog',
      report_unplaced_items report = unplaced_entry <$> backlog'
      /\ sublist backlog' (sort_items_by_priority input)
      /\ priority_ordered backlog'.
Proof.
  intros fuel h self items input h' self' report Hst Hin Hrun.
  apply pack_items_inv in Hrun as (h1 & self1 & Hb & Hl & Hr).
  assert (Hst1 := state_entered _ _ _ _ _ Hst Hb).
  rewrite (begin_packing_Done h self items input Hin) in Hb. injection Hb as <- <-.
  destruct (pack_loop_backlog _ _ _ _ _ _ Hst1 (begin_packing_backlog h self input) Hl)
    as (backlog' & Hb' & Hsub & Hord).
  apply generate_packing_result_inv in Hr as (backlog0 & Hb0 & _ & Hru & _).
  rewrite Hb' in Hb0. injection Hb0 as <-.
  exists backlog'. split; [exact Hru|]. split; [exact Hsub|].
  apply Hord. apply sort_items_by_priority_ordered.
Qed.

Lemma pack_items_unplaced_order_witness :
  exists h self report backlog',
    demo_run = Done (h, self, report)
    /\ report_unplaced_items report = unplaced_entry <$> backlog'
    /\ sublist backlog' (sort_items_by_priority demo_items).
Proof.
  destruct demo_run as [[[h self] report]| |] eqn:E;
    [|vm_compute in E; discriminate..].
  unfold demo_run, pack_fresh, BinPackerV3_init, alloc in E.
  assert (Hst := state_created [demo_items] 10 (25 # 10) (25 # 10)).
  unfold BinPackerV3_init, alloc in Hst. cbn [fst snd] in Hst.
  destruct (pack_items_unplaced_order 8 _ _ 0%nat demo_items _ _ _ Hst eq_refl E)
    as (backlog' & Hru & Hsub & _).
  exists h, self, report, backlog'.
  split; [reflexivity|]. split; [exact Hru|exact Hsub].
Defined.
